(** * Flow Builder Core: canvas state engine and panel width negotiation

    A shallow embedding of [src/components/FlowCanvas.js] (node graph, test
    scope, execution path, scenario path highlights, zoom, outputs of the
    nodes), of the drag handler of the FlowPanel component, and of the
    click handler and the date label of
    [src/components/BuilderHeader.js], with the properties of the
    specification and further properties of the code stated over them.

    Conventions of the embedding.
    - A JavaScript number that holds a length, a ratio or a zoom level is a
      rational [Q]; the arithmetic is exact, the rounding of the doubles is
      not modelled.  Array indices and connector indices are integers [Z],
      so that [findIndex] can answer [-1].
    - [null] and [undefined] are [None]; a string is falsy exactly when it
      is empty.
    - The canvas record describes a canvas whose container element exists:
      the constructor renders only then, and after a render the elements
      [#flow-canvas-content] and [.flow-canvas-main] exist.
    - The part of the DOM the methods read back (the rendered connectors,
      their badge and the class list of their lines) is a field of the
      canvas state: the connectors that [renderConnector] writes.  The
      texts of the nodes reach the markup as they are, so this is the DOM
      of a canvas whose nodes hold no markup in their texts.  Legend,
      zoom buttons and dropdown visibility are presentation and are left
      out. *)

From Stdlib Require Import List Bool ZArith QArith Qminmax Lia Lqa String Ascii.
From Stdlib Require Import Permutation Sorted.
Import ListNotations.

Set Implicit Arguments.

(* ================================================================== *)
(** * JavaScript primitives used by the sources *)
(* ================================================================== *)

Module JS.

Local Open Scope Q_scope.

(** [Math.max(a, b)] and [Math.min(a, b)] on finite numbers. *)
Definition Math_max (a b : Q) : Q := if Qle_bool a b then b else a.
Definition Math_min (a b : Q) : Q := if Qle_bool a b then a else b.

(** [Math.min(a, b, c)]. *)
Definition Math_min3 (a b c : Q) : Q := Math_min (Math_min a b) c.

(** The comparisons [a > b] and [a >= b] on numbers. *)
Definition gt (a b : Q) : bool := negb (Qle_bool a b).
Definition ge (a b : Q) : bool := Qle_bool b a.
Definition lt (a b : Q) : bool := negb (Qle_bool b a).

Local Open Scope Z_scope.

(** Truthiness of a value that is a string or [null]. *)
Definition truthy (v : option string) : bool :=
  match v with
  | Some s => negb (String.eqb s EmptyString)
  | None => false
  end.

(** [v === s] for [v] a string or [null]. *)
Definition strict_eq (v : option string) (s : string) : bool :=
  match v with
  | Some t => String.eqb t s
  | None => false
  end.

Section Arrays.
Variable A : Type.

(** [arr.findIndex(p)]: the first index whose element satisfies [p],
    or [-1]. *)
Fixpoint findIndex_from (p : A -> bool) (arr : list A) (i : Z) : Z :=
  match arr with
  | [] => -1
  | x :: rest => if p x then i else findIndex_from p rest (i + 1)
  end.

Definition findIndex (p : A -> bool) (arr : list A) : Z :=
  findIndex_from p arr 0.

(** [arr[i]] for a number [i]: [undefined] out of range. *)
Definition at_index (arr : list A) (i : Z) : option A :=
  if i <? 0 then None else nth_error arr (Z.to_nat i).

Definition length (arr : list A) : Z := Z.of_nat (List.length arr).

(** [arr.slice(start, end)]: a negative bound counts from the end of
    the array, both bounds are brought into [0 .. length], and the
    result is empty when the first bound is not below the second. *)
Definition relative_index (len k : Z) : Z :=
  if k <? 0 then Z.max (len + k) 0 else Z.min k len.

Definition slice (arr : list A) (start stop : Z) : list A :=
  let len := length arr in
  let k := relative_index len start in
  let final := relative_index len stop in
  firstn (Z.to_nat (Z.max (final - k) 0)) (skipn (Z.to_nat k) arr).

(** [arr.forEach((x, index) => ...)] hands out the index as well. *)
Fixpoint indexed_from (i : Z) (arr : list A) : list (Z * A) :=
  match arr with
  | [] => []
  | x :: rest => (i, x) :: indexed_from (i + 1) rest
  end.

Definition indexed (arr : list A) : list (Z * A) := indexed_from 0 arr.
End Arrays.

(** An object used as a map from string keys: [o[k] = v] keeps the place
    of a key that is already there and appends a new one, [delete o[k]]
    removes it, and the entries are enumerated in the order the keys were
    added (keys that look like array indices, which JavaScript enumerates
    first, are not treated apart; the rendering results below are stated
    on sets and sorted keys, which do not depend on this order). *)
Section Objects.
Variable V : Type.

Fixpoint obj_set (o : list (string * V)) (k : string) (v : V)
  : list (string * V) :=
  match o with
  | [] => [(k, v)]
  | (k', v') :: rest =>
      if String.eqb k' k then (k, v) :: rest
      else (k', v') :: obj_set rest k v
  end.

Definition obj_delete (o : list (string * V)) (k : string)
  : list (string * V) :=
  filter (fun kv => negb (String.eqb (fst kv) k)) o.
End Objects.

(** [arr.includes(i)] on an array of numbers. *)
Definition includes (arr : list Z) (i : Z) : bool :=
  existsb (Z.eqb i) arr.

(** The integers [lo, lo+1, ..., hi-1] visited by
    [for (let i = lo; i < hi; i++)]. *)
Definition range (lo hi : Z) : list Z :=
  map (fun k => lo + Z.of_nat k) (seq 0 (Z.to_nat (hi - lo))).

(** A DOM token list ([classList]): an ordered set of class names. *)
Definition contains (l : list string) (t : string) : bool :=
  existsb (String.eqb t) l.

Definition classList_add (l : list string) (t : string) : list string :=
  if contains l t then l else l ++ [t].

Definition classList_remove (l : list string) (t : string) : list string :=
  filter (fun u => negb (String.eqb t u)) l.

End JS.

(* ================================================================== *)
(** * FlowPanel: width negotiation while a panel is dragged *)
(* ================================================================== *)

Module FlowPanel.

Local Open Scope Q_scope.

Inductive Position := Left | Right.

Definition minWidth : Q := 400.
Definition gapBetweenPanels : Q := 100.
Definition otherPanelMinWidth : Q := 400.

(** The variables the drag closure keeps between events. *)
Record Drag := {
  isDragging : bool;
  startX : Q;
  startWidth : Q
}.

(** What [handleMouseMove] reads from the window and the DOM:
    [window.innerWidth], the left edge of the dragged panel
    ([getBoundingClientRect().left]), and of the other panel container
    whether it exists with class [flow-panel-open], its rectangle and its
    [offsetWidth]. *)
Record Layout := {
  innerWidth : Q;
  thisRectLeft : Q;
  otherOpen : bool;
  otherRectLeft : Q;
  otherRectWidth : Q;
  otherOffsetWidth : Q
}.

(** What [handleMouseMove] writes: the [style.width] of the dragged panel
    and, when the other panel gives way, the [style.width] of the other
    panel. *)
Record Resize := {
  newWidth : Q;
  otherNewWidth : option Q
}.

Definition handleMouseDown (clientX offsetWidth : Q) : Drag :=
  {| isDragging := true; startX := clientX; startWidth := offsetWidth |}.

(** [handleMouseMove]; [None] is the early return of a move outside a
    drag. *)
Definition handleMouseMove (position : Position) (d : Drag) (env : Layout)
           (clientX : Q) : option Resize :=
  if negb (isDragging d) then None else
  let maxWidth := innerWidth env * 0.8 in
  let deltaX :=
    match position with
    | Left => clientX - startX d
    | Right => startX d - clientX
    end in
  let newWidth0 := startWidth d + deltaX in
  let newWidth1 := JS.Math_max minWidth (JS.Math_min maxWidth newWidth0) in
  let '(newWidth2, other) :=
    if otherOpen env then
      let otherPanelCurrentWidth := otherOffsetWidth env in
      match position with
      | Left =>
          let thisPanelRight := thisRectLeft env + newWidth1 in
          let maxRightEdgeWithGap := otherRectLeft env - gapBetweenPanels in
          if JS.gt thisPanelRight maxRightEdgeWithGap then
            let overlap := thisPanelRight - maxRightEdgeWithGap in
            let otherPanelNewWidth := otherPanelCurrentWidth - overlap in
            if JS.ge otherPanelNewWidth otherPanelMinWidth then
              (newWidth1, Some otherPanelNewWidth)
            else
              let otherPanelAtMinLeft := innerWidth env - otherPanelMinWidth in
              let maxAllowedRightWithMinOther :=
                otherPanelAtMinLeft - gapBetweenPanels in
              (JS.Math_min newWidth1
                 (maxAllowedRightWithMinOther - thisRectLeft env), None)
          else (newWidth1, None)
      | Right =>
          let otherPanelRight := otherRectLeft env + otherRectWidth env in
          let minLeftEdgeWithGap := otherPanelRight + gapBetweenPanels in
          let thisPanelLeft := innerWidth env - newWidth1 in
          if JS.lt thisPanelLeft minLeftEdgeWithGap then
            let overlap := minLeftEdgeWithGap - thisPanelLeft in
            let otherPanelNewWidth := otherPanelCurrentWidth - overlap in
            if JS.ge otherPanelNewWidth otherPanelMinWidth then
              (newWidth1, Some otherPanelNewWidth)
            else
              let otherPanelAtMinRight :=
                otherRectLeft env + otherPanelMinWidth in
              let minAllowedLeft := otherPanelAtMinRight + gapBetweenPanels in
              let maxAllowedWidth := innerWidth env - minAllowedLeft in
              (JS.Math_min newWidth1 maxAllowedWidth, None)
          else (newWidth1, None)
      end
    else (newWidth1, None) in
  Some {| newWidth := JS.Math_max minWidth newWidth2;
          otherNewWidth := other |}.

(** ** Geometry after a move of the left panel

    The left panel keeps its left edge and takes its new width.  The
    right panel is laid out against the right edge of the window, as the
    handler itself assumes ([window.innerWidth - otherPanelMinWidth],
    [window.innerWidth - newWidth]); when it is not resized its rectangle
    is the one that was read. *)
Definition leftPanelRightEdge (env : Layout) (r : Resize) : Q :=
  thisRectLeft env + newWidth r.

Definition rightPanelLeftEdge (env : Layout) (r : Resize) : Q :=
  match otherNewWidth r with
  | Some w => innerWidth env - w
  | None => otherRectLeft env
  end.

Definition rightPanelWidth (env : Layout) (r : Resize) : Q :=
  match otherNewWidth r with
  | Some w => w
  | None => otherOffsetWidth env
  end.

Definition gapAfterLeftDrag (env : Layout) (r : Resize) : Q :=
  rightPanelLeftEdge env r - leftPanelRightEdge env r.

(** ** Geometry after a move of the right panel

    The right panel lies against the right edge of the window and takes
    its new width; the left panel keeps its left edge and has its new
    width, or the width that was read. *)
Definition rightPanelLeftEdgeAfter (env : Layout) (r : Resize) : Q :=
  innerWidth env - newWidth r.

Definition leftPanelRightEdgeAfter (env : Layout) (r : Resize) : Q :=
  match otherNewWidth r with
  | Some w => otherRectLeft env + w
  | None => otherRectLeft env + otherRectWidth env
  end.

Definition gapAfterRightDrag (env : Layout) (r : Resize) : Q :=
  rightPanelLeftEdgeAfter env r - leftPanelRightEdgeAfter env r.

(** A window of width [w] seen from the right panel, [tw] wide against
    the right edge, with the left panel open, [lw] wide, at the left
    edge. *)
Definition bothOpenFromRight (w tw lw : Q) : Layout :=
  {| innerWidth := w; thisRectLeft := w - tw; otherOpen := true;
     otherRectLeft := 0; otherRectWidth := lw; otherOffsetWidth := lw |}.

(** A window of width [w] with the left panel at the left edge and the
    right panel open, [rw] wide, against the right edge. *)
Definition bothOpen (w rw : Q) : Layout :=
  {| innerWidth := w; thisRectLeft := 0; otherOpen := true;
     otherRectLeft := w - rw; otherRectWidth := rw;
     otherOffsetWidth := rw |}.

(** The right panel lies against the right edge of the window. *)
Definition rightAnchored (env : Layout) : Prop :=
  otherRectLeft env == innerWidth env - otherOffsetWidth env.

End FlowPanel.

(* ================================================================== *)
(** * FlowCanvas: data model *)
(* ================================================================== *)

Module FlowCanvas.

Local Open Scope string_scope.
Local Open Scope list_scope.
Local Open Scope Z_scope.

(** A node of the flow; [icon], [iconBg] and [badge] only reach the
    markup and are left out: they are the name of an icon, a colour and a
    short text, without markup. *)
Record Node := {
  id : string;
  type : string;
  title : string;
  subtitle : string
}.

Inductive Mode := build | test.

(** The status of a scenario highlight:
    ['passed'|'failed'|'error'|'not-run']. *)
Inductive Status := passed | failed | error | not_run.

Definition statusName (s : Status) : string :=
  match s with
  | passed => "passed"
  | failed => "failed"
  | error => "error"
  | not_run => "not-run"
  end.

Definition Status_eqb (a b : Status) : bool :=
  match a, b with
  | passed, passed | failed, failed | error, error | not_run, not_run => true
  | _, _ => false
  end.

(** An element of the array handed to [setPathHighlights]; a missing
    [status] is [None], a missing [connectors] is the empty array (both
    are skipped alike). *)
Module Scenario.
Record t := {
  scenarioId : string;
  status : option Status;
  connectors : list Z
}.
End Scenario.

(** A value of the [pathHighlights] object. *)
Record PathHighlight := {
  status : Status;
  connectors : list Z
}.

(** ** The rendered connectors

    [dataset.badgeType] of a [.flow-connector] element, and the class
    list and [dataset.pathStatuses] of a [.flow-connector-line]. *)
Inductive Badge := badge_start | badge_end.

Record Line := {
  classList : list string;
  pathStatuses : option string
}.

(** A connector without a badge has one line; a connector with a badge
    has a line above and a line below the badge. *)
Inductive ConnectorEl :=
| Plain (line : Line)
| Badged (badgeType : Badge) (lineAbove lineBelow : Line).

Definition badgeOf (el : ConnectorEl) : option Badge :=
  match el with
  | Plain _ => None
  | Badged b _ _ => Some b
  end.

(** The state of a canvas: the fields of the instance the methods below
    use, and the rendered connectors. *)
Record Canvas := {
  nodes : list Node;
  selectedNodeId : option string;
  buildMode : Mode;
  executionPath : list Z;
  pathHighlights : list (string * PathHighlight);
  testStartPoint : option string;
  testEndPoint : option string;
  zoomLevel : Q;
  isZoomManuallyChanged : bool;
  connectorEls : list ConnectorEl
}.

Definition minZoom : Q := 0.25.
Definition maxZoom : Q := 3.
Definition zoomFactor : Q := 1.05.

(** Functional updates of single fields. *)
Definition with_nodes (v : list Node) (c : Canvas) : Canvas :=
  {| nodes := v; selectedNodeId := selectedNodeId c;
     buildMode := buildMode c; executionPath := executionPath c;
     pathHighlights := pathHighlights c;
     testStartPoint := testStartPoint c; testEndPoint := testEndPoint c;
     zoomLevel := zoomLevel c;
     isZoomManuallyChanged := isZoomManuallyChanged c;
     connectorEls := connectorEls c |}.

Definition with_selectedNodeId (v : option string) (c : Canvas) : Canvas :=
  {| nodes := nodes c; selectedNodeId := v;
     buildMode := buildMode c; executionPath := executionPath c;
     pathHighlights := pathHighlights c;
     testStartPoint := testStartPoint c; testEndPoint := testEndPoint c;
     zoomLevel := zoomLevel c;
     isZoomManuallyChanged := isZoomManuallyChanged c;
     connectorEls := connectorEls c |}.

Definition with_executionPath (v : list Z) (c : Canvas) : Canvas :=
  {| nodes := nodes c; selectedNodeId := selectedNodeId c;
     buildMode := buildMode c; executionPath := v;
     pathHighlights := pathHighlights c;
     testStartPoint := testStartPoint c; testEndPoint := testEndPoint c;
     zoomLevel := zoomLevel c;
     isZoomManuallyChanged := isZoomManuallyChanged c;
     connectorEls := connectorEls c |}.

Definition with_pathHighlights (v : list (string * PathHighlight))
           (c : Canvas) : Canvas :=
  {| nodes := nodes c; selectedNodeId := selectedNodeId c;
     buildMode := buildMode c; executionPath := executionPath c;
     pathHighlights := v;
     testStartPoint := testStartPoint c; testEndPoint := testEndPoint c;
     zoomLevel := zoomLevel c;
     isZoomManuallyChanged := isZoomManuallyChanged c;
     connectorEls := connectorEls c |}.

Definition with_testStartPoint (v : option string) (c : Canvas) : Canvas :=
  {| nodes := nodes c; selectedNodeId := selectedNodeId c;
     buildMode := buildMode c; executionPath := executionPath c;
     pathHighlights := pathHighlights c;
     testStartPoint := v; testEndPoint := testEndPoint c;
     zoomLevel := zoomLevel c;
     isZoomManuallyChanged := isZoomManuallyChanged c;
     connectorEls := connectorEls c |}.

Definition with_testEndPoint (v : option string) (c : Canvas) : Canvas :=
  {| nodes := nodes c; selectedNodeId := selectedNodeId c;
     buildMode := buildMode c; executionPath := executionPath c;
     pathHighlights := pathHighlights c;
     testStartPoint := testStartPoint c; testEndPoint := v;
     zoomLevel := zoomLevel c;
     isZoomManuallyChanged := isZoomManuallyChanged c;
     connectorEls := connectorEls c |}.

Definition with_zoomLevel (v : Q) (c : Canvas) : Canvas :=
  {| nodes := nodes c; selectedNodeId := selectedNodeId c;
     buildMode := buildMode c; executionPath := executionPath c;
     pathHighlights := pathHighlights c;
     testStartPoint := testStartPoint c; testEndPoint := testEndPoint c;
     zoomLevel := v;
     isZoomManuallyChanged := isZoomManuallyChanged c;
     connectorEls := connectorEls c |}.

Definition with_isZoomManuallyChanged (v : bool) (c : Canvas) : Canvas :=
  {| nodes := nodes c; selectedNodeId := selectedNodeId c;
     buildMode := buildMode c; executionPath := executionPath c;
     pathHighlights := pathHighlights c;
     testStartPoint := testStartPoint c; testEndPoint := testEndPoint c;
     zoomLevel := zoomLevel c;
     isZoomManuallyChanged := v;
     connectorEls := connectorEls c |}.


Definition with_connectorEls (v : list ConnectorEl) (c : Canvas) : Canvas :=
  {| nodes := nodes c; selectedNodeId := selectedNodeId c;
     buildMode := buildMode c; executionPath := executionPath c;
     pathHighlights := pathHighlights c;
     testStartPoint := testStartPoint c; testEndPoint := testEndPoint c;
     zoomLevel := zoomLevel c;
     isZoomManuallyChanged := isZoomManuallyChanged c;
     connectorEls := v |}.

Definition getDefaultNodes : list Node :=
  [ {| id := "start"; type := "start";
       title := "Record-Triggered Flow"; subtitle := "Start" |};
    {| id := "create-task"; type := "create";
       title := "Create Task"; subtitle := "Create Records" |};
    {| id := "update-case"; type := "update";
       title := "Update Case to Escalated"; subtitle := "Update Records" |};
    {| id := "send-email"; type := "action";
       title := "Send Email to User"; subtitle := "Action" |};
    {| id := "end"; type := "end"; title := "End"; subtitle := "" |} ].

Definition nodeIndex (c : Canvas) (nodeId : string) : Z :=
  JS.findIndex (fun n => String.eqb (id n) nodeId) (nodes c).

(** [this.testStartPoint ? findIndex(...) : dflt], for either bound. *)
Definition boundIndex (c : Canvas) (bound : option string) (dflt : Z) : Z :=
  match bound with
  | Some b => if JS.truthy bound then nodeIndex c b else dflt
  | None => dflt
  end.

(* ------------------------------------------------------------------ *)
(** ** Rendering of the connectors *)

(** [renderConnector(index)]: connector [index] lies below node [index]
    and above node [index + 1].  It carries the start badge when the
    node after it is the start point, else the end badge when the node
    before it is the end point. *)
Definition renderConnector (c : Canvas) (index : Z) : ConnectorEl :=
  let isExecuted := JS.includes (executionPath c) index in
  let nodeAfterConnector := JS.at_index (nodes c) (index + 1) in
  let nodeBeforeConnector := JS.at_index (nodes c) index in
  let isStartPoint :=
    match nodeAfterConnector with
    | Some n => JS.strict_eq (testStartPoint c) (id n)
    | None => false
    end in
  let isEndPoint :=
    match nodeBeforeConnector with
    | Some n => JS.strict_eq (testEndPoint c) (id n)
    | None => false
    end in
  let above :=
    {| classList := ["flow-connector-line"; "flow-connector-line-above"];
       pathStatuses := None |} in
  let below :=
    {| classList := ["flow-connector-line"; "flow-connector-line-below"];
       pathStatuses := None |} in
  if isStartPoint then Badged badge_start above below
  else if isEndPoint then Badged badge_end above below
  else Plain {| classList :=
                  if isExecuted
                  then ["flow-connector-line";
                        "flow-connector-line-executed"]
                  else ["flow-connector-line"];
                pathStatuses := None |}.

(** The connectors of [renderNodes()]: one after every node but the
    last. *)
Definition renderNodes (c : Canvas) : list ConnectorEl :=
  map (renderConnector c) (JS.range 0 (JS.length (nodes c) - 1)).

(** The loop that looks for the badges,
    [connectors.forEach((connector, index) => ...)], shared by
    [setExecutionPath], [updateConnectorStyles] and
    [filterConnectorsByTestScope]; the answer is
    [(startConnectorIndex, endConnectorIndex)]. *)
Definition noteBadge (acc : Z * Z) (ie : Z * ConnectorEl) : Z * Z :=
  match badgeOf (snd ie) with
  | Some badge_start => (fst ie, snd acc)
  | Some badge_end => (fst acc, fst ie)
  | None => acc
  end.

Definition findBadges (els : list ConnectorEl) : Z * Z :=
  fold_left noteBadge (JS.indexed els) (-1, -1).

Definition startConnectorIndex (c : Canvas) : Z :=
  fst (findBadges (connectorEls c)).

Definition endConnectorIndex (c : Canvas) : Z :=
  snd (findBadges (connectorEls c)).

(* ------------------------------------------------------------------ *)
(** ** Styles of a connector line *)

Definition executedClass : string := "flow-connector-line-executed".
Definition multiClass : string := "flow-connector-line-multi".
Definition statusClass (s : Status) : string :=
  String.append "flow-connector-line-" (statusName s).

(** [clearPathHighlightStyles(lineElement)]. *)
Definition clearPathHighlightStyles (l : Line) : Line :=
  let cl := classList l in
  let cl := JS.classList_remove cl "flow-connector-line-executed" in
  let cl := JS.classList_remove cl "flow-connector-line-passed" in
  let cl := JS.classList_remove cl "flow-connector-line-failed" in
  let cl := JS.classList_remove cl "flow-connector-line-error" in
  let cl := JS.classList_remove cl "flow-connector-line-not-run" in
  let cl := JS.classList_remove cl "flow-connector-line-multi" in
  {| classList := cl;
     pathStatuses :=
       if JS.truthy (pathStatuses l) then None else pathStatuses l |}.

(** [[...new Set(pathStatuses)]]: the distinct statuses in the order of
    their first occurrence. *)
Definition Set_add (seen : list Status) (s : Status) : list Status :=
  if existsb (Status_eqb s) seen then seen else seen ++ [s].

Definition Set_of (l : list Status) : list Status :=
  fold_left Set_add l [].

(** [uniqueStatuses.sort()]: the default order of [sort] compares the
    strings by code unit; the sort is stable. *)
Definition status_leb (a b : Status) : bool :=
  String.leb (statusName a) (statusName b).

Fixpoint sort_insert (s : Status) (l : list Status) : list Status :=
  match l with
  | [] => [s]
  | x :: rest =>
      if status_leb s x then s :: l else x :: sort_insert s rest
  end.

Definition sort (l : list Status) : list Status :=
  fold_right sort_insert [] l.

(** [statuses.join(',')]. *)
Definition join (l : list Status) : string :=
  String.concat "," (map statusName l).

(** [applyPathHighlightStyles(lineElement, pathStatuses,
    hasLegacyExecuted)]. *)
Definition applyPathHighlightStyles (l : Line) (statuses : list Status)
           (hasLegacyExecuted : bool) : Line :=
  let l := clearPathHighlightStyles l in
  match statuses with
  | _ :: _ =>
      let uniqueStatuses := Set_of statuses in
      match uniqueStatuses with
      | [s] =>
          {| classList := JS.classList_add (classList l) (statusClass s);
             pathStatuses := pathStatuses l |}
      | _ =>
          let cl := JS.classList_add (classList l) multiClass in
          let cl :=
            fold_left (fun cl s => JS.classList_add cl (statusClass s))
                      uniqueStatuses cl in
          {| classList := cl;
             pathStatuses := Some (join (sort uniqueStatuses)) |}
      end
  | [] =>
      if hasLegacyExecuted then
        {| classList := JS.classList_add (classList l) executedClass;
           pathStatuses := pathStatuses l |}
      else l
  end.

(** The [connectorStatusMap] of [updateConnectorStyles]: for every
    scenario and every connector index of it, the status is pushed on
    the array kept for that index. *)
Fixpoint statusMap_push (m : list (Z * list Status)) (k : Z) (s : Status)
  : list (Z * list Status) :=
  match m with
  | [] => [(k, [s])]
  | (k', l) :: rest =>
      if k' =? k then (k', l ++ [s]) :: rest
      else (k', l) :: statusMap_push rest k s
  end.

Definition statusMap_get (m : list (Z * list Status)) (k : Z)
  : list Status :=
  match find (fun kv => fst kv =? k) m with
  | Some kv => snd kv
  | None => []
  end.

Definition connectorStatusMap (hs : list (string * PathHighlight))
  : list (Z * list Status) :=
  fold_left
    (fun m (entry : string * PathHighlight) =>
       fold_left (fun m connectorIndex =>
                    statusMap_push m connectorIndex (status (snd entry)))
                 (connectors (snd entry)) m)
    hs [].

(** The body of the second loop of [updateConnectorStyles] for one
    connector. *)
Definition styleConnector (path : list Z) (m : list (Z * list Status))
           (endConnectorIndex : Z) (index : Z) (el : ConnectorEl)
  : ConnectorEl :=
  let hasLegacyPath := 0 <? JS.length path in
  let isAfterEnd := (0 <=? endConnectorIndex) && (endConnectorIndex <? index) in
  let isLegacyExecuted :=
    negb isAfterEnd && hasLegacyPath && JS.includes path index in
  let statuses := statusMap_get m index in
  match el with
  | Badged badge_start lineAbove lineBelow =>
      Badged badge_start
             (clearPathHighlightStyles lineAbove)
             (applyPathHighlightStyles lineBelow statuses
                (isLegacyExecuted && hasLegacyPath))
  | Badged badge_end lineAbove lineBelow =>
      Badged badge_end
             (applyPathHighlightStyles lineAbove statuses
                (isLegacyExecuted && hasLegacyPath))
             (clearPathHighlightStyles lineBelow)
  | Plain line =>
      if isAfterEnd then Plain (clearPathHighlightStyles line)
      else Plain (applyPathHighlightStyles line statuses
                    (isLegacyExecuted && hasLegacyPath))
  end.

(** [updateConnectorStyles()]. *)
Definition updateConnectorStyles (c : Canvas) : Canvas :=
  let m := connectorStatusMap (pathHighlights c) in
  let e := endConnectorIndex c in
  with_connectorEls
    (map (fun ie => styleConnector (executionPath c) m e (fst ie) (snd ie))
         (JS.indexed (connectorEls c)))
    c.

(* ------------------------------------------------------------------ *)
(** ** Execution path and scenario path highlights *)

(** The loops of [setExecutionPath] that add the connectors between the
    badges: [for (let i = lo; i < hi; i++)
               if (i !== endConnectorIndex && !executionPath.includes(i))
                 executionPath.push(i)]. *)
Definition pushMissing (endConnectorIndex lo hi : Z) (path : list Z)
  : list Z :=
  fold_left
    (fun path i =>
       if negb (i =? endConnectorIndex) && negb (JS.includes path i)
       then path ++ [i] else path)
    (JS.range lo hi) path.

(** [setExecutionPath(connectorIndices)]; [null] behaves as the empty
    array. *)
Definition setExecutionPath (connectorIndices : list Z) (c : Canvas)
  : Canvas :=
  let executionPath0 := connectorIndices in
  let executionPath4 :=
    if 0 <? JS.length connectorIndices then
      let connectors := connectorEls c in
      let startConnectorIndex := startConnectorIndex c in
      let endConnectorIndex := endConnectorIndex c in
      let executionPath1 :=
        if 0 <=? startConnectorIndex then
          let upperBound :=
            if 0 <=? endConnectorIndex then endConnectorIndex
            else JS.length connectors in
          pushMissing endConnectorIndex (startConnectorIndex + 1)
                      upperBound executionPath0
        else executionPath0 in
      let executionPath2 :=
        if (0 <=? endConnectorIndex) && (startConnectorIndex <? 0) then
          pushMissing endConnectorIndex 0 endConnectorIndex executionPath1
        else executionPath1 in
      let executionPath3 :=
        if 0 <=? endConnectorIndex then
          filter (fun index => negb (index =? endConnectorIndex))
                 executionPath2
        else executionPath2 in
      if 0 <=? endConnectorIndex then
        filter (fun index => index <? endConnectorIndex) executionPath3
      else executionPath3
    else executionPath0 in
  updateConnectorStyles (with_executionPath executionPath4 c).

(** [clearExecutionPath()]. *)
Definition clearExecutionPath (c : Canvas) : Canvas :=
  updateConnectorStyles
    (with_pathHighlights [] (with_executionPath [] c)).

(** [filterConnectorsByTestScope(connectorIndices)]. *)
Definition filterConnectorsByTestScope (c : Canvas)
           (connectorIndices : list Z) : list Z :=
  let startConnectorIndex := startConnectorIndex c in
  let endConnectorIndex := endConnectorIndex c in
  let filtered := connectorIndices in
  let filtered :=
    if 0 <=? startConnectorIndex then
      filter (fun index => startConnectorIndex <=? index) filtered
    else filtered in
  if 0 <=? endConnectorIndex then
    filter (fun index => index <=? endConnectorIndex) filtered
  else filtered.

(** The body of the loop of [setPathHighlights] for one scenario. *)
Definition addScenario (c : Canvas) (hs : list (string * PathHighlight))
           (sc : Scenario.t) : list (string * PathHighlight) :=
  if negb (String.eqb (Scenario.scenarioId sc) "")
     && (0 <? JS.length (Scenario.connectors sc)) then
    let connectorsArray :=
      filterConnectorsByTestScope c (Scenario.connectors sc) in
    JS.obj_set hs (Scenario.scenarioId sc)
      {| status := match Scenario.status sc with
                   | Some s => s
                   | None => not_run
                   end;
         connectors := connectorsArray |}
  else hs.

(** [setPathHighlights(scenarioHighlights)]. *)
Definition setPathHighlights (scenarioHighlights : list Scenario.t)
           (c : Canvas) : Canvas :=
  updateConnectorStyles
    (with_pathHighlights
       (fold_left (addScenario c) scenarioHighlights []) c).

(** [clearPathHighlights(scenarioIds = null)]. *)
Definition clearPathHighlights (scenarioIds : option (list string))
           (c : Canvas) : Canvas :=
  updateConnectorStyles
    (match scenarioIds with
     | None => with_pathHighlights [] c
     | Some ids =>
         with_pathHighlights
           (fold_left (@JS.obj_delete PathHighlight) ids (pathHighlights c))
           c
     end).

(* ------------------------------------------------------------------ *)
(** ** Zoom *)

Local Open Scope Q_scope.

(** [applyZoom(zoomLevel)]. *)
Definition applyZoom (level : Q) (c : Canvas) : Canvas :=
  with_zoomLevel (JS.Math_max minZoom (JS.Math_min maxZoom level)) c.

Definition zoomIn (c : Canvas) : Canvas :=
  let c := with_isZoomManuallyChanged true c in
  applyZoom (zoomLevel c * zoomFactor) c.

Definition zoomOut (c : Canvas) : Canvas :=
  let c := with_isZoomManuallyChanged true c in
  applyZoom (zoomLevel c / zoomFactor) c.

(** The rectangles [zoomFit] measures: [.flow-canvas-main] (the
    viewport) and [#flow-canvas-content]. *)
Record Rects := {
  wrapperWidth : Q;
  wrapperHeight : Q;
  contentWidth : Q;
  contentHeight : Q
}.

(** [zoomFit()]. *)
Definition zoomFit (r : Rects) (c : Canvas) : Canvas :=
  if isZoomManuallyChanged c then
    applyZoom 1 (with_isZoomManuallyChanged false c)
  else
    let scaleX := (wrapperWidth r - 96) / contentWidth r in
    let scaleY := (wrapperHeight r - 96) / contentHeight r in
    let fitZoom := JS.Math_min3 scaleX scaleY 1 in
    applyZoom (JS.Math_max minZoom fitZoom)
              (with_isZoomManuallyChanged false c).

Local Close Scope Q_scope.

(* ------------------------------------------------------------------ *)
(** ** Re-rendering *)

(** [renderNodesOnly()]: the connectors are rendered anew and styled. *)
Definition renderNodesOnly (c : Canvas) : Canvas :=
  updateConnectorStyles (with_connectorEls (renderNodes c) c).


(** [new FlowCanvas(container, options)]: the first render lays the
    connectors out and applies the zoom level. *)
Definition new (optionNodes : option (list Node)) (mode : Mode) : Canvas :=
  let c :=
    {| nodes := match optionNodes with
                | Some ns => ns
                | None => getDefaultNodes
                end;
       selectedNodeId := None;
       buildMode := mode;
       executionPath := [];
       pathHighlights := [];
       testStartPoint := None;
       testEndPoint := None;
       zoomLevel := 1%Q;
       isZoomManuallyChanged := false;
       connectorEls := [] |} in
  let c := with_connectorEls (renderNodes c) c in
  applyZoom (zoomLevel c) c.

(** [addNode(node, index)]: [splice(index + 1, 0, node)]. *)
Definition splice_insert (arr : list Node) (start : Z) (n : Node)
  : list Node :=
  let k := Z.to_nat (JS.relative_index (JS.length arr) start) in
  firstn k arr ++ n :: skipn k arr.

Definition addNode (n : Node) (index : Z) (c : Canvas) : Canvas :=
  renderNodesOnly (with_nodes (splice_insert (nodes c) (index + 1) n) c).

(** [removeNode(nodeId)]. *)
Definition removeNode (nodeId : string) (c : Canvas) : Canvas :=
  let c :=
    with_nodes
      (filter (fun n => negb (String.eqb (id n) nodeId)) (nodes c)) c in
  let c :=
    if JS.strict_eq (selectedNodeId c) nodeId
    then with_selectedNodeId None c else c in
  renderNodesOnly c.

(* ------------------------------------------------------------------ *)
(** ** Test scope *)

(** [handleStartEndPointChange()]; the switch of the run-result tab
    belongs to another component. *)
Definition handleStartEndPointChange (c : Canvas) : Canvas :=
  clearExecutionPath c.

Definition setTestStartPoint (nodeId : string) (c : Canvas) : Canvas :=
  let c := handleStartEndPointChange c in
  let c := with_testStartPoint (Some nodeId) c in
  let c := renderNodesOnly c in
  updateConnectorStyles c.

Definition setTestEndPoint (nodeId : string) (c : Canvas) : Canvas :=
  let c := handleStartEndPointChange c in
  let c := with_testEndPoint (Some nodeId) c in
  let c := renderNodesOnly c in
  updateConnectorStyles c.

Definition removeTestStartPoint (c : Canvas) : Canvas :=
  let c := handleStartEndPointChange c in
  let c := with_testStartPoint None c in
  let c := renderNodesOnly c in
  updateConnectorStyles c.

Definition removeTestEndPoint (nodeId : string) (c : Canvas) : Canvas :=
  let c := handleStartEndPointChange c in
  let c := with_testEndPoint None c in
  let c := renderNodesOnly c in
  updateConnectorStyles c.

Definition clearTestStartPoint (c : Canvas) : Canvas :=
  renderNodesOnly (with_testStartPoint None c).



(** [getTestScope()]. *)
Definition getTestScope (c : Canvas) : list string :=
  if negb (JS.truthy (testStartPoint c)) && negb (JS.truthy (testEndPoint c))
  then map id (nodes c)
  else
    let startIndex := boundIndex c (testStartPoint c) 0 in
    let endIndex :=
      boundIndex c (testEndPoint c) (JS.length (nodes c) - 1) in
    map id (JS.slice (nodes c) startIndex (endIndex + 1)).

(* ------------------------------------------------------------------ *)
(** ** The menu of a node *)

(** The [data-action] of a menu item. *)
Inductive Action :=
| set_start_point | remove_start_point
| set_end_point | remove_end_point
| copy_element | cut_element | delete_element.

(** Whether [renderNode] marks the item "Set an End Point After" of a
    node as disabled ([endPointDisabled]). *)
Definition endPointDisabled (c : Canvas) (n : Node) : bool :=
  let isTestEndPoint := JS.strict_eq (testEndPoint c) (id n) in
  let currentNodeIndex := nodeIndex c (id n) in
  let endPointIndex := boundIndex c (testEndPoint c) (-1) in
  let nextNode :=
    if (0 <=? currentNodeIndex)
       && (currentNodeIndex <? JS.length (nodes c) - 1)
    then JS.at_index (nodes c) (currentNodeIndex + 1) else None in
  let isRightBeforeEndElement :=
    negb isTestEndPoint
    && match nextNode with
       | Some nx => String.eqb (type nx) "end"
       | None => false
       end in
  let isRightBeforeEndPoint :=
    negb isTestEndPoint && JS.truthy (testEndPoint c)
    && (0 <=? currentNodeIndex) && (0 <=? endPointIndex)
    && (currentNodeIndex + 1 =? endPointIndex) in
  isRightBeforeEndElement || isRightBeforeEndPoint.

(** The guard of the click handler before it sets the end point:
    [true] when the handler returns without setting anything. *)
Definition setEndPointRefused (c : Canvas) (nodeId : string)
           (itemDisabled : bool) : bool :=
  if itemDisabled then true else
  let currentNodeIndex := nodeIndex c nodeId in
  if (0 <=? currentNodeIndex)
     && (currentNodeIndex <? JS.length (nodes c) - 1) then
    let nextNode := JS.at_index (nodes c) (currentNodeIndex + 1) in
    if match nextNode with
       | Some nx => String.eqb (type nx) "end"
       | None => false
       end then true
    else if JS.truthy (testEndPoint c) then
      let endPointIndex := boundIndex c (testEndPoint c) (-1) in
      (0 <=? endPointIndex) && (currentNodeIndex + 1 =? endPointIndex)
    else false
  else false.

(** The click handler of the container, for a click on a menu item with
    [data-action] and [data-node-id].  [itemDisabled] tells whether the
    clicked item carries [slds-is-disabled] or [aria-disabled="true"];
    [confirmed] is the answer of [confirm(...)].  The callbacks
    [onNodeCopy] and [onNodeCut] belong to the host. *)
Definition menuItemClick (action : Action) (nodeId : string)
           (itemDisabled confirmed : bool) (c : Canvas) : Canvas :=
  match action with
  | set_start_point => setTestStartPoint nodeId c
  | remove_start_point => removeTestStartPoint c
  | set_end_point =>
      if setEndPointRefused c nodeId itemDisabled then c
      else setTestEndPoint nodeId c
  | remove_end_point => removeTestEndPoint nodeId c
  | copy_element => c
  | cut_element => c
  | delete_element => if confirmed then removeNode nodeId c else c
  end.

(* ------------------------------------------------------------------ *)
(** ** Notions used in the statements about the test scope *)

(** The scope in the words of the specification, on the sequence of the
    node ids: all ids when neither bound is set; otherwise
    [startIndex = start ? indexOf(start) : 0],
    [endIndex = end ? indexOf(end) : lastIndex], and the slice from
    [startIndex] to [endIndex], both included. *)
Fixpoint indexOf (ids : list string) (x : string) : nat :=
  match ids with
  | [] => 0
  | y :: rest => if String.eqb y x then 0 else S (indexOf rest x)
  end.

Definition inclusiveSlice (A : Type) (l : list A) (i j : nat) : list A :=
  firstn (S j - i) (skipn i l).

Definition isSet (bound : option string) : bool := JS.truthy bound.

Definition startIndexOf (ids : list string) (start : option string) : nat :=
  match start with
  | Some s => if isSet start then indexOf ids s else 0%nat
  | None => 0%nat
  end.

Definition endIndexOf (ids : list string) (stop : option string) : nat :=
  match stop with
  | Some e => if isSet stop then indexOf ids e else (List.length ids - 1)%nat
  | None => (List.length ids - 1)%nat
  end.

Definition scopeNodeIds (ids : list string) (start stop : option string)
  : list string :=
  if negb (isSet start) && negb (isSet stop) then ids
  else inclusiveSlice ids (startIndexOf ids start) (endIndexOf ids stop).

(** A bound that is set names a node of the graph. *)
Definition boundExists (c : Canvas) (bound : option string) : Prop :=
  match bound with
  | Some b => isSet bound = true -> In b (map id (nodes c))
  | None => True
  end.

(** The node right after [n] in the graph. *)
Definition followedBy (c : Canvas) (n nx : Node) : Prop :=
  exists i, nth_error (nodes c) i = Some n
            /\ nth_error (nodes c) (S i) = Some nx.

(* ------------------------------------------------------------------ *)
(** ** Notions used in the statements about highlights *)

(** Scenario [k] with status [s] touches connector [i]. *)
Definition contributes (hs : list (string * PathHighlight)) (i : Z)
           (s : Status) : Prop :=
  exists k h, In (k, h) hs /\ In i (connectors h) /\ status h = s.

(** The statuses pushed for connector [i], scenario after scenario. *)
Definition statusesAt (hs : list (string * PathHighlight)) (i : Z)
  : list Status :=
  flat_map (fun entry : string * PathHighlight =>
              map (fun _ => status (snd entry))
                  (filter (Z.eqb i) (connectors (snd entry))))
           hs.

(** The rendered connector with index [i]. *)
Definition connectorAt (c : Canvas) (i : Z) : option ConnectorEl :=
  JS.at_index (connectorEls c) i.

(** The line of a connector that shows the highlights: the single line,
    the line below a start badge, the line above an end badge; and the
    line on the far side of a badge. *)
Definition shownLine (el : ConnectorEl) : Line :=
  match el with
  | Plain line => line
  | Badged badge_start _ lineBelow => lineBelow
  | Badged badge_end lineAbove _ => lineAbove
  end.


Definition hasClass (l : Line) (t : string) : Prop := In t (classList l).

(** The six class names that [clearPathHighlightStyles] removes. *)
Definition highlightClassNames : list string :=
  [ "flow-connector-line-executed"; "flow-connector-line-passed";
    "flow-connector-line-failed"; "flow-connector-line-error";
    "flow-connector-line-not-run"; "flow-connector-line-multi" ].

Definition isHighlightClass (t : string) : bool :=
  JS.contains highlightClassNames t.

Definition highlightClasses (l : Line) : list string :=
  filter isHighlightClass (classList l).


(** Statuses in the strict order of their names. *)
Definition name_lt (a b : Status) : Prop :=
  String.ltb (statusName a) (statusName b) = true.

Definition sortedByName (u : list Status) : Prop :=
  StronglySorted name_lt u.

(** A scenario of the list given to [setPathHighlights] is kept when it
    has an id and at least one connector; of several kept scenarios with
    one id the last one stays in the object.  What is stored for it is
    its status, ['not-run'] when it has none, and its connectors inside
    the scope. *)
Definition keptScenario (sc : Scenario.t) : Prop :=
  Scenario.scenarioId sc <> "" /\ Scenario.connectors sc <> [].

Definition lastKept (scs : list Scenario.t) (sc : Scenario.t) : Prop :=
  exists pre post,
    scs = pre ++ sc :: post
    /\ keptScenario sc
    /\ forall sc', In sc' post -> keptScenario sc' ->
                   Scenario.scenarioId sc' <> Scenario.scenarioId sc.

Definition statusOrNotRun (sc : Scenario.t) : Status :=
  match Scenario.status sc with
  | Some s => s
  | None => not_run
  end.

(** Connector [i] is not before the connector with the start badge and
    not after the connector with the end badge. *)
Definition inBadgeScope (c : Canvas) (i : Z) : Prop :=
  (startConnectorIndex c < 0 \/ startConnectorIndex c <= i)
  /\ (endConnectorIndex c < 0 \/ i <= endConnectorIndex c).

(** *** Auxiliary notions of the proofs about highlights *)

Definition addStatusClass (cl : list string) (s : Status) : list string :=
  JS.classList_add cl (statusClass s).

Definition notHighlight (t : string) : bool := negb (isHighlightClass t).

(** The class list after [applyPathHighlightStyles]: what the clearing
    left, then the classes that were added. *)
Definition addedClasses (statuses : list Status) (legacy : bool)
  : list string :=
  match statuses with
  | _ :: _ =>
      match Set_of statuses with
      | [s] => [statusClass s]
      | u => multiClass :: map statusClass u
      end
  | [] => if legacy then [executedClass] else []
  end.

(** Whether [applyPathHighlightStyles] takes the branch of several
    distinct statuses. *)
Definition severalStatuses (statuses : list Status) : bool :=
  match statuses with
  | [] => false
  | _ :: _ => match Set_of statuses with
              | [_] => false
              | _ => true
              end
  end.

Definition badgeStep (acc : Z * Z) (i : Z) (b : option Badge) : Z * Z :=
  match b with
  | Some badge_start => (i, snd acc)
  | Some badge_end => (fst acc, i)
  | None => acc
  end.

(** The flag [isLegacyExecuted && hasLegacyPath] of a connector. *)
Definition legacyFlag (path : list Z) (e i : Z) : bool :=
  negb ((0 <=? e) && (e <? i)) && JS.includes path i.

(** The scenarios of the example: both touch connector 2, one passed and
    one failed. *)
Definition scenarioA : Scenario.t :=
  {| Scenario.scenarioId := "scenario-a"; Scenario.status := Some passed;
     Scenario.connectors := [0; 1; 2] |}.

Definition scenarioB : Scenario.t :=
  {| Scenario.scenarioId := "scenario-b"; Scenario.status := Some failed;
     Scenario.connectors := [2; 3] |}.

(* ------------------------------------------------------------------ *)
(** ** Operations on the execution path, the highlights and the scope *)

(** The calls that the test view makes: the execution path and the
    highlights of a run, and the start and end point set and removed
    from the menu of a node. *)
Inductive TestOp :=
| op_setExecutionPath (connectorIndices : list Z)
| op_clearExecutionPath
| op_setPathHighlights (scenarioHighlights : list Scenario.t)
| op_clearPathHighlights (scenarioIds : option (list string))
| op_setTestStartPoint (nodeId : string)
| op_setTestEndPoint (nodeId : string)
| op_removeTestStartPoint
| op_removeTestEndPoint (nodeId : string).

Definition testStep (c : Canvas) (op : TestOp) : Canvas :=
  match op with
  | op_setExecutionPath l => setExecutionPath l c
  | op_clearExecutionPath => clearExecutionPath c
  | op_setPathHighlights scs => setPathHighlights scs c
  | op_clearPathHighlights ids => clearPathHighlights ids c
  | op_setTestStartPoint n => setTestStartPoint n c
  | op_setTestEndPoint n => setTestEndPoint n c
  | op_removeTestStartPoint => removeTestStartPoint c
  | op_removeTestEndPoint n => removeTestEndPoint n c
  end.

(** A sequence of calls, first call first. *)
Definition testRun (ops : list TestOp) (c : Canvas) : Canvas :=
  fold_left testStep ops c.


(* ------------------------------------------------------------------ *)
(** ** Notions used in the statements about zoom *)

Local Open Scope Q_scope.




Definition inZoomRange (q : Q) : Prop := minZoom <= q /\ q <= maxZoom.


(** The fit ratio in the words of the specification, with the minimum
    and maximum of the rationals:
    [min((viewportWidth - 96)/contentWidth,
         (viewportHeight - 96)/contentHeight, 1.0)], not below 0.25. *)
Definition fitRatio (r : Rects) : Q :=
  Qmax 0.25
       (Qmin (Qmin ((wrapperWidth r - 96) / contentWidth r)
                   ((wrapperHeight r - 96) / contentHeight r)) 1).

(** A viewport of 1096 by 896 around a content of 2000 by 1000: the fit
    ratio is [min(1000/2000, 800/1000, 1) = 0.5]. *)
Definition sampleRects : Rects :=
  {| wrapperWidth := 1096; wrapperHeight := 896;
     contentWidth := 2000; contentHeight := 1000 |}.

(** The same viewport around the content scaled by 0.5, as the content
    is measured once the level 0.5 is applied to it. *)
Definition sampleRectsScaled : Rects :=
  {| wrapperWidth := 1096; wrapperHeight := 896;
     contentWidth := 1000; contentHeight := 500 |}.

Local Close Scope Q_scope.

End FlowCanvas.


(** The decimal notation of integers, for the date label of the header;
    not imported, so that the names of the lists stay as they are. *)
From Stdlib Require Decimal DecimalString DecimalZ.

(* ================================================================== *)
(** * FlowCanvas: selection, node properties, mode and node styling *)
(* ================================================================== *)

Module CanvasEdit.

Import FlowCanvas.
Local Open Scope string_scope.
Local Open Scope list_scope.
Local Open Scope Z_scope.














(** ** The scope class of a node in [renderNode]

    [isOutOfScope]: the node lies before the start point or after the
    end point; the class [flow-node-out-of-scope] is given outside build
    mode. *)
Definition isOutOfScope (c : Canvas) (n : Node) : bool :=
  let nodeIndex' := nodeIndex c (id n) in
  let startIndex := boundIndex c (testStartPoint c) (-1) in
  let endIndex := boundIndex c (testEndPoint c) (-1) in
  let isBeforeStart := (0 <=? startIndex) && (nodeIndex' <? startIndex) in
  let isAfterEnd := (0 <=? endIndex) && (endIndex <? nodeIndex') in
  isBeforeStart || isAfterEnd.


(** ** Operations of a session *)








(** The connectors that [setExecutionPath] adds to a path that is not
    empty: those after the connector with the start badge, up to the
    connector with the end badge when there is one; those before the
    connector with the end badge when there is no start badge. *)
Definition autoFilled (c : Canvas) (i : Z) : Prop :=
  let s := startConnectorIndex c in
  let e := endConnectorIndex c in
  (0 <= s /\ s < i
   /\ i < (if 0 <=? e then e else JS.length (connectorEls c)))
  \/ (0 <= e /\ s < 0 /\ 0 <= i /\ i < e).


(** ** Texts without markup

    [renderNode] writes [node.id], [node.title] and [node.subtitle] into
    the markup as they are, and [updateNodeDisplay] builds the selector
    [[data-node-id="..."]] from the id it is given.  The field
    [connectorEls] of the canvas lists the elements of class
    [flow-connector] of the container only when these texts hold no
    markup: an element of class [flow-connector] inside a title would be
    one more connector for [querySelectorAll], and a quote inside an id
    would end the attribute or make the selector invalid.  [plainText]
    admits the printable ASCII characters other than the angle brackets,
    the ampersand, the quotes, the backquote and the backslash. *)
Definition plainChar (ch : ascii) : bool :=
  let n := nat_of_ascii ch in
  ((32 <=? n) && (n <=? 126)
   && negb (existsb (Nat.eqb n) [34; 38; 39; 60; 62; 92; 96]))%nat.

Fixpoint plainText (s : string) : bool :=
  match s with
  | EmptyString => true
  | String ch rest => plainChar ch && plainText rest
  end.




End CanvasEdit.

(* ================================================================== *)
(** * FlowCanvas: the fit of the zoom on a page *)
(* ================================================================== *)

Module ZoomLayout.

Import FlowCanvas.
Local Open Scope Q_scope.

(** What [zoomFit] measures on a page.  [applyZoom] writes
    [content.style.transform = scale(zoomLevel)] on
    [#flow-canvas-content], and [getBoundingClientRect()] answers the
    box of an element after its transform: the box that was laid out,
    scaled by the level.  The viewport [.flow-canvas-main] carries no
    transform.  [layout] holds the two boxes as they are laid out, that
    is at scale 1; a transform does not change the layout. *)
Definition measured (layout : Rects) (level : Q) : Rects :=
  {| wrapperWidth := wrapperWidth layout;
     wrapperHeight := wrapperHeight layout;
     contentWidth := contentWidth layout * level;
     contentHeight := contentHeight layout * level |}.

(** [zoomFit()] on a page with this layout: the rectangles are measured
    under the level that the canvas has when the method is called. *)
Definition zoomFitOnPage (layout : Rects) (c : Canvas) : Canvas :=
  zoomFit (measured layout (zoomLevel c)) c.

(** The content, scaled by the level of the canvas, lies within the
    viewport less the padding of 96 pixels. *)
Definition fitsViewport (layout : Rects) (c : Canvas) : Prop :=
  contentWidth layout * zoomLevel c <= wrapperWidth layout - 96
  /\ contentHeight layout * zoomLevel c <= wrapperHeight layout - 96.

End ZoomLayout.

(* ================================================================== *)
(** * FlowCanvas: the outputs of the nodes *)
(* ================================================================== *)

Module Outputs.

Import FlowCanvas.
Local Open Scope string_scope.
Local Open Scope list_scope.

(** A value of a field of the outputs of a node: the flag
    [mockOutputs], the strings of the view mode and of the inputs. *)
Inductive Value := VBool (b : bool) | VString (s : string).

(** The outputs of one node, an object, and [this.outputs], the object
    that holds them by node id.  Both are plain objects, read and
    written with [o[k]]; the lists hold their own properties.  A list
    answers as the object does for every key that is not a name of
    [Object.prototype]: under such a name the object answers with what
    it inherits, and an assignment to [__proto__] changes the prototype
    instead of storing a property. *)
Definition Data := list (string * Value).
Definition Store := list (string * Data).

(** The names that every plain object inherits. *)
Definition prototypeNames : list string :=
  [ "__proto__"; "constructor"; "hasOwnProperty"; "isPrototypeOf";
    "propertyIsEnumerable"; "toLocaleString"; "toString"; "valueOf";
    "__defineGetter__"; "__defineSetter__"; "__lookupGetter__";
    "__lookupSetter__" ].

(** A key under which a plain object answers with its own properties
    only. *)
Definition ownName (k : string) : bool :=
  negb (JS.contains prototypeNames k).

Section Get.
Variable V : Type.

(** [o[k]]: [undefined] when the key is missing. *)
Definition obj_get (o : list (string * V)) (k : string) : option V :=
  option_map snd (find (fun kv => String.eqb (fst kv) k) o).
End Get.

(** The calls of [config.onOutputsChange], on a canvas that was given
    the callback. *)
Inductive Call := onOutputsChange (nodeId : string) (outputsData : Data).

(** [updateNodeOutputs(nodeId, outputsData)]. *)
Definition updateNodeOutputs (nodeId : option string) (outputsData : Data)
           (outputs : Store) : Store * list Call :=
  match nodeId with
  | Some k =>
      if negb (JS.truthy nodeId) then (outputs, [])
      else (JS.obj_set outputs k outputsData,
            [onOutputsChange k outputsData])
  | None => (outputs, [])
  end.

(** [getNodeOutputs(nodeId)]: [this.outputs[nodeId] || null]. *)
Definition getNodeOutputs (nodeId : string) (outputs : Store)
  : option Data :=
  obj_get outputs nodeId.

(** [setOutputs(outputs)]: [this.outputs = outputs || {}]. *)
Definition setOutputs (given : option Store) : Store :=
  match given with
  | Some o => o
  | None => []
  end.

(** [this.outputs[nodeId] || {}]. *)
Definition currentOutputs (outputs : Store) (nodeId : string) : Data :=
  match obj_get outputs nodeId with
  | Some d => d
  | None => []
  end.

(** The handler of a change of the toggle [data-node-outputs-toggle];
    [nodeExists] tells whether the container holds an element with
    [data-node-id] equal to [nodeId], the answer of
    [querySelector('[data-node-id="' + nodeId + '"]')] for an id without
    quote or backslash. *)
Definition toggleChange (nodeId : option string) (checked nodeExists : bool)
           (outputs : Store) : Store * list Call :=
  match nodeId with
  | Some k =>
      if JS.truthy nodeId && nodeExists then
        let currentOutputs := currentOutputs outputs k in
        let updatedOutputs :=
          if checked
          then JS.obj_set currentOutputs "mockOutputs" (VBool true)
          else JS.obj_delete currentOutputs "mockOutputs" in
        updateNodeOutputs nodeId updatedOutputs outputs
      else (outputs, [])
  | None => (outputs, [])
  end.

(** The handler of a click on a view mode button that is not
    disabled. *)
Definition viewModeClick (nodeId viewMode : option string)
           (nodeExists : bool) (outputs : Store) : Store * list Call :=
  match nodeId, viewMode with
  | Some k, Some vm =>
      if JS.truthy nodeId && JS.truthy viewMode
         && (String.eqb vm "resource" || String.eqb vm "code")
      then
        if nodeExists then
          let currentOutputs := currentOutputs outputs k in
          updateNodeOutputs
            nodeId (JS.obj_set currentOutputs "viewMode" (VString vm))
            outputs
        else (outputs, [])
      else (outputs, [])
  | _, _ => (outputs, [])
  end.

(** What the timer of an input of the resource view does when it fires:
    [{ ...currentOutputs, [fieldName]: value }]; for the text area of
    the code view the field is [value]. *)
Definition inputCommit (nodeId fieldName value : string)
           (nodeExists : bool) (outputs : Store) : Store * list Call :=
  if nodeExists then
    updateNodeOutputs
      (Some nodeId)
      (JS.obj_set (currentOutputs outputs nodeId) fieldName
                  (VString value))
      outputs
  else (outputs, []).

(** [nodeOutputs.mockOutputs === true] in [renderNode], and the badge
    "Output Mocked", shown outside build mode only. *)
Definition mockOutputsEnabled (outputs : Store) (nodeId : string) : bool :=
  match obj_get (currentOutputs outputs nodeId) "mockOutputs" with
  | Some (VBool true) => true
  | _ => false
  end.

Definition mockOutputsBadge (mode : Mode) (outputs : Store)
           (nodeId : string) : bool :=
  match mode with
  | build => false
  | test => mockOutputsEnabled outputs nodeId
  end.

End Outputs.

(* ================================================================== *)
(** * BuilderHeader: the panel buttons and the label of the last save *)
(* ================================================================== *)

Module BuilderHeader.

Local Open Scope string_scope.
Local Open Scope list_scope.
Local Open Scope Z_scope.

(** The fields of [this.config] that [handleClick] writes. *)
Record Header := {
  toolboxOpen : bool;
  errorsOpen : bool;
  layoutMode : string
}.

(** [new BuilderHeader(container, options)]: [options.toolboxOpen ||
    false], [options.errorsOpen || false],
    [options.layoutMode || 'auto-layout']. *)
Definition new (optionToolboxOpen optionErrorsOpen : option bool)
           (optionLayoutMode : option string) : Header :=
  {| toolboxOpen := match optionToolboxOpen with
                    | Some b => b
                    | None => false
                    end;
     errorsOpen := match optionErrorsOpen with
                   | Some b => b
                   | None => false
                   end;
     layoutMode := match optionLayoutMode with
                   | Some s => if JS.truthy optionLayoutMode then s
                               else "auto-layout"
                   | None => "auto-layout"
                   end |}.

(** The [data-action] of the element that was clicked; for
    [layoutchange], the value of the target when it is a [SELECT]. *)
Inductive HeaderAction :=
| back | flowselect | help | toolbox | errors | multiselect | undo | redo
| canvassettings | saveasnewversion | save | activate
| layoutchange (selectValue : option string)
| unknownAction.

(** The calls of the callbacks of the configuration, on a header that
    was given every callback. *)
Inductive HeaderCall :=
| onBack | onFlowSelect | onHelp
| onToolbox (newToolboxState : bool)
| onErrors (newErrorsState : bool)
| onMultiSelect | onUndo | onRedo | onCanvasSettings
| onSaveAsNewVersion | onSave | onActivate
| onLayoutChange (value : string).

(** [handleClick(e)] for a click on an element with a [data-action]. *)
Definition handleClick (action : HeaderAction) (h : Header)
  : Header * list HeaderCall :=
  match action with
  | back => (h, [onBack])
  | flowselect => (h, [onFlowSelect])
  | help => (h, [onHelp])
  | toolbox =>
      let newToolboxState := negb (toolboxOpen h) in
      ({| toolboxOpen := newToolboxState; errorsOpen := false;
          layoutMode := layoutMode h |},
       [onToolbox newToolboxState])
  | errors =>
      let newErrorsState := negb (errorsOpen h) in
      ({| toolboxOpen := false; errorsOpen := newErrorsState;
          layoutMode := layoutMode h |},
       [onErrors newErrorsState])
  | multiselect => (h, [onMultiSelect])
  | undo => (h, [onUndo])
  | redo => (h, [onRedo])
  | canvassettings => (h, [onCanvasSettings])
  | saveasnewversion => (h, [onSaveAsNewVersion])
  | save => (h, [onSave])
  | activate => (h, [onActivate])
  | layoutchange (Some value) =>
      ({| toolboxOpen := toolboxOpen h; errorsOpen := errorsOpen h;
          layoutMode := value |},
       [onLayoutChange value])
  | layoutchange None => (h, [])
  | unknownAction => (h, [])
  end.

(** A sequence of clicks, first click first. *)
Definition clicks (actions : list HeaderAction) (h : Header) : Header :=
  fold_left (fun h a => fst (handleClick a h)) actions h.

(** At most one of the two panels is open. *)
Definition exclusive (h : Header) : Prop :=
  toolboxOpen h && errorsOpen h = false.

(** ** The label of the last save *)

(** What [formatLastSavedDate] reads from a valid date: [getMonth()],
    [getDate()], [getFullYear()], [getHours()], [getMinutes()]. *)
Record DateFields := {
  getMonth : Z;
  getDate : Z;
  getFullYear : Z;
  getHours : Z;
  getMinutes : Z
}.

(** [String(n)] for an integer. *)
Definition String_of (n : Z) : string :=
  DecimalString.NilZero.string_of_int (Z.to_int n).

Fixpoint repeat_string (s : string) (n : nat) : string :=
  match n with
  | O => ""
  | S k => String.append s (repeat_string s k)
  end.

(** [s.padStart(2, '0')]. *)
Definition padStart2 (s : string) : string :=
  String.append (repeat_string "0" (2 - String.length s)) s.

(** [hours >= 12 ? 'PM' : 'AM']. *)
Definition ampm (hours : Z) : string :=
  if 12 <=? hours then "PM" else "AM".

(** [hours = hours % 12; hours = hours ? hours : 12]. *)
Definition hours12 (hours : Z) : Z :=
  let hours := Z.rem hours 12 in
  if hours =? 0 then 12 else hours.

(** The label [mm/dd/yyyy, hh:mm AM] that [formatLastSavedDate]
    builds. *)
Definition formatted (d : DateFields) : string :=
  let month := padStart2 (String_of (getMonth d + 1)) in
  let day := padStart2 (String_of (getDate d)) in
  let year := String_of (getFullYear d) in
  let minutes := padStart2 (String_of (getMinutes d)) in
  let formattedHours := padStart2 (String_of (hours12 (getHours d))) in
  String.append month
    (String.append "/"
       (String.append day
          (String.append "/"
             (String.append year
                (String.append ", "
                   (String.append formattedHours
                      (String.append ":"
                         (String.append minutes
                            (String.append " "
                               (ampm (getHours d))))))))))).

(** The memo of [formatLastSavedDate]: [_cachedFormattedDate] and
    [_cachedDateTimestamp]. *)
Record Cache := {
  cachedFormattedDate : option string;
  cachedDateTimestamp : option Z
}.

(** The cache of the constructor, and of [updateConfig] when it is
    given a [lastSavedDate]. *)
Definition emptyCache : Cache :=
  {| cachedFormattedDate := None; cachedDateTimestamp := None |}.

Section Format.

(** The local date and time of a time value, as the [Date] object of
    the browser gives them. *)
Variable fieldsOf : Z -> DateFields.

(** [formatLastSavedDate(date)] for a valid date with the time value
    [getTime() = dateTimestamp]; the answer is a string, or [null] when
    the cache holds a time value without a label. *)
Definition formatLastSavedDate (dateTimestamp : Z) (cache : Cache)
  : option string * Cache :=
  if negb (dateTimestamp =? 0)
     && match cachedDateTimestamp cache with
        | Some t => t =? dateTimestamp
        | None => false
        end
  then (cachedFormattedDate cache, cache)
  else
    let formatted := formatted (fieldsOf dateTimestamp) in
    (Some formatted,
     {| cachedFormattedDate := Some formatted;
        cachedDateTimestamp := Some dateTimestamp |}).

(** What the header does with the label: it formats a date, or it is
    given a new [lastSavedDate] and clears the memo. *)
Inductive LabelOp := op_format (dateTimestamp : Z) | op_clear.

Definition labelStep (cache : Cache) (op : LabelOp) : Cache :=
  match op with
  | op_format t => snd (formatLastSavedDate t cache)
  | op_clear => emptyCache
  end.

Definition labelRun (ops : list LabelOp) (cache : Cache) : Cache :=
  fold_left labelStep ops cache.

(** A memo that holds a time value holds the label of this time
    value. *)
Definition coherent (cache : Cache) : Prop :=
  forall t, cachedDateTimestamp cache = Some t ->
            cachedFormattedDate cache = Some (formatted (fieldsOf t)).

End Format.

(** The ranges of the fields of a date with a year of four digits. *)
Definition validFields (d : DateFields) : Prop :=
  0 <= getMonth d <= 11 /\ 1 <= getDate d <= 31
  /\ 1000 <= getFullYear d <= 9999
  /\ 0 <= getHours d <= 23 /\ 0 <= getMinutes d <= 59.

(** The number a decimal string stands for. *)
Definition decimalValue (s : string) : option Z :=
  option_map Z.of_int (DecimalString.NilZero.int_of_string s).

End BuilderHeader.
Unset Implicit Arguments.

(* ================================================================== *)
(** * Properties of the JavaScript primitives *)
(* ================================================================== *)

Module JSFacts.

Local Open Scope Q_scope.

Lemma Qle_bool_false (a b : Q) : Qle_bool a b = false -> b < a.
Proof.
  intros H. apply Qnot_le_lt. intros Hle.
  apply Qle_bool_iff in Hle. congruence.
Qed.

Lemma Math_max_lub (a b : Q) : a <= JS.Math_max a b /\ b <= JS.Math_max a b.
Proof.
  unfold JS.Math_max. destruct (Qle_bool a b) eqn:E.
  - apply Qle_bool_iff in E. split; [exact E | apply Qle_refl].
  - apply Qle_bool_false in E. split; [apply Qle_refl | apply Qlt_le_weak, E].
Qed.

Lemma Math_min_glb (a b : Q) : JS.Math_min a b <= a /\ JS.Math_min a b <= b.
Proof.
  unfold JS.Math_min. destruct (Qle_bool a b) eqn:E.
  - apply Qle_bool_iff in E. split; [apply Qle_refl | exact E].
  - apply Qle_bool_false in E. split; [apply Qlt_le_weak, E | apply Qle_refl].
Qed.

Lemma Math_max_cases (a b : Q) :
  (a <= b /\ JS.Math_max a b = b) \/ (b < a /\ JS.Math_max a b = a).
Proof.
  unfold JS.Math_max. destruct (Qle_bool a b) eqn:E.
  - left. apply Qle_bool_iff in E. auto.
  - right. apply Qle_bool_false in E. auto.
Qed.

Lemma Math_min_cases (a b : Q) :
  (a <= b /\ JS.Math_min a b = a) \/ (b < a /\ JS.Math_min a b = b).
Proof.
  unfold JS.Math_min. destruct (Qle_bool a b) eqn:E.
  - left. apply Qle_bool_iff in E. auto.
  - right. apply Qle_bool_false in E. auto.
Qed.

(** The clamp [Math.max(lo, Math.min(hi, x))] lands in [[lo, hi]]. *)
Lemma clamp_bounds (lo hi x : Q) :
  lo <= hi ->
  lo <= JS.Math_max lo (JS.Math_min hi x)
  /\ JS.Math_max lo (JS.Math_min hi x) <= hi.
Proof.
  intros Hlh.
  destruct (Math_max_cases lo (JS.Math_min hi x)) as [[H1 ->] | [H1 ->]].
  - split; [exact H1 | apply Math_min_glb].
  - split; [apply Qle_refl | exact Hlh].
Qed.

Lemma gt_true (a b : Q) : JS.gt a b = true -> b < a.
Proof.
  unfold JS.gt. intros H. apply negb_true_iff in H.
  now apply Qle_bool_false.
Qed.

Lemma gt_false (a b : Q) : JS.gt a b = false -> a <= b.
Proof.
  unfold JS.gt. intros H. apply negb_false_iff in H.
  now apply Qle_bool_iff.
Qed.

Lemma ge_true (a b : Q) : JS.ge a b = true -> b <= a.
Proof. unfold JS.ge. intros H. now apply Qle_bool_iff. Qed.

Lemma ge_false (a b : Q) : JS.ge a b = false -> a < b.
Proof. unfold JS.ge. intros H. now apply Qle_bool_false. Qed.

End JSFacts.

(* ================================================================== *)
(** * FlowPanel: the gap between the panels during a drag *)
(* ================================================================== *)

Module FlowPanelProps.

Import FlowPanel.
Local Open Scope Q_scope.

(** The dragged panel never gets narrower than [minWidth]. *)
Lemma newWidth_min position d env x r :
  handleMouseMove position d env x = Some r -> minWidth <= newWidth r.
Proof.
  unfold handleMouseMove. destruct (negb (isDragging d)); [discriminate|].
  match goal with
  | |- context [let '(a, b) := ?e in _] => destruct e as [w o]
  end.
  intros [= <-]. cbn. apply JSFacts.Math_max_lub.
Qed.



(** When the other panel is exactly at its minimum width and the window
    has room for both minimum widths and the gap, the gap is kept. *)
Lemma left_drag_other_at_min d env x r :
  handleMouseMove Left d env x = Some r ->
  otherOpen env = true ->
  rightAnchored env ->
  otherOffsetWidth env == otherPanelMinWidth ->
  thisRectLeft env + minWidth + gapBetweenPanels + otherPanelMinWidth
    <= innerWidth env ->
  gapBetweenPanels <= gapAfterLeftDrag env r.
Proof.
  unfold handleMouseMove, rightAnchored, gapAfterLeftDrag,
    rightPanelLeftEdge, leftPanelRightEdge.
  destruct (negb (isDragging d)); [discriminate|].
  set (n1 := JS.Math_max minWidth
               (JS.Math_min (innerWidth env * 0.8)
                  (startWidth d + (x - startX d)))).
  assert (Hn1 : minWidth <= n1) by apply JSFacts.Math_max_lub.
  intros H Hopen. rewrite Hopen in H. revert H.
  unfold minWidth, gapBetweenPanels, otherPanelMinWidth in *.
  destruct (JS.gt _ _) eqn:Hgt.
  - destruct (JS.ge _ _) eqn:Hge.
    + intros [= <-] Hanch Hmin Hroom. cbn.
      apply JSFacts.ge_true in Hge.
      destruct (JSFacts.Math_max_cases 400 n1) as [[_ ->] | [Hlt _]];
        [lra | exfalso; apply (Qlt_not_le _ _ Hlt), Hn1].
    + intros [= <-] Hanch Hmin Hroom. cbn.
      set (capped := JS.Math_min n1 _).
      assert (Hc : capped <= innerWidth env - 400 - 100 - thisRectLeft env)
        by apply JSFacts.Math_min_glb.
      destruct (JSFacts.Math_max_cases 400 capped) as [[_ ->] | [_ ->]];
        lra.
  - intros [= <-] Hanch Hmin Hroom. cbn.
    apply JSFacts.gt_false in Hgt.
    destruct (JSFacts.Math_max_cases 400 n1) as [[_ ->] | [Hlt _]];
      [lra | exfalso; apply (Qlt_not_le _ _ Hlt), Hn1].
Qed.

(** The example of the specification: window 1200 wide, right panel open
    at 400, the left panel dragged from 400 towards 900.  The growth is
    capped at [1200 - 400 - 100 = 700], the right panel keeps its width
    and the gap is 100. *)
Lemma left_drag_to_900_capped :
  exists r,
    handleMouseMove Left (handleMouseDown 400 400) (bothOpen 1200 400) 900
    = Some r
    /\ newWidth r <= 700
    /\ newWidth r == 700
    /\ otherNewWidth r = None
    /\ gapAfterLeftDrag (bothOpen 1200 400) r == 100.
Proof.
  eexists. split; [vm_compute; reflexivity|].
  cbn. repeat split; try reflexivity. vm_compute. discriminate.
Qed.

(** C1 (fails on the code).  The gap of 100 between the inner edges is
    not kept in every drag: with a window 1200 wide and the right panel
    open at 450 (left edge at 750), one move that takes the left panel
    from 400 towards 720 finds an overlap of 70 that the right panel
    cannot take in full (450 - 70 < 400).  The handler then caps the
    left panel at 700, as if the right panel were at its minimum width,
    but leaves the right panel at 450: the gap that remains is 50. *)
Theorem left_drag_breaks_gap :
  exists r,
    handleMouseMove Left (handleMouseDown 400 400) (bothOpen 1200 450) 720
    = Some r
    /\ newWidth r == 700
    /\ otherNewWidth r = None
    /\ rightPanelWidth (bothOpen 1200 450) r == 450
    /\ gapAfterLeftDrag (bothOpen 1200 450) r == 50
    /\ gapAfterLeftDrag (bothOpen 1200 450) r < gapBetweenPanels.
Proof.
  eexists. split; [vm_compute; reflexivity|].
  cbn. repeat split; reflexivity.
Qed.

(** X19.  The right panel has the same two branches.  When the right
    panel is dragged and the left panel can
    take the whole overlap, it is shrunk by the overlap and the gap is
    exactly [gapBetweenPanels]. *)
Lemma right_drag_other_gives_way d env x r w :
  handleMouseMove Right d env x = Some r ->
  otherRectWidth env == otherOffsetWidth env ->
  otherNewWidth r = Some w ->
  otherPanelMinWidth <= w /\ gapAfterRightDrag env r == gapBetweenPanels.
Proof.
  unfold handleMouseMove, gapAfterRightDrag, rightPanelLeftEdgeAfter,
    leftPanelRightEdgeAfter.
  destruct (negb (isDragging d)); [discriminate|].
  set (n1 := JS.Math_max minWidth
               (JS.Math_min (innerWidth env * 0.8)
                  (startWidth d + (startX d - x)))).
  assert (Hn1 : minWidth <= n1) by apply JSFacts.Math_max_lub.
  destruct (otherOpen env).
  2:{ intros [= <-]; cbn; discriminate. }
  destruct (JS.lt _ _) eqn:Hlt.
  2:{ intros [= <-]; cbn; discriminate. }
  destruct (JS.ge _ _) eqn:Hge.
  2:{ intros [= <-]; cbn; discriminate. }
  intros [= <-] Hw. cbn. intros [= <-].
  apply JSFacts.ge_true in Hge. split; [exact Hge|].
  destruct (JSFacts.Math_max_cases minWidth n1) as [[_ ->] | [Hlt' _]].
  - unfold gapBetweenPanels in *. lra.
  - exfalso. apply (Qlt_not_le _ _ Hlt'), Hn1.
Qed.

(** The example: window 1200 wide, the left panel 500 wide, the right
    panel dragged from 400 to 650; the left panel gives 50 way. *)
Lemma right_drag_other_gives_way_witness :
  exists r,
    handleMouseMove Right (handleMouseDown 800 400)
                    (bothOpenFromRight 1200 400 500) 550
    = Some r
    /\ otherNewWidth r = Some 450
    /\ gapAfterRightDrag (bothOpenFromRight 1200 400 500) r
       == gapBetweenPanels.
Proof.
  eexists. split; [vm_compute; reflexivity|]. split; [reflexivity|].
  refine (proj2 (right_drag_other_gives_way
                   (handleMouseDown 800 400)
                   (bothOpenFromRight 1200 400 500) 550 _ 450 _ _ _)).
  - vm_compute. reflexivity.
  - vm_compute. reflexivity.
  - reflexivity.
Defined.

(** And the same defect: window 1200 wide, left panel open at 450, the
    right panel dragged from 400 towards 720.  The left panel cannot
    take the overlap of 70 and keeps its 450; the right panel is capped
    at 700, as if the left panel were 400 wide, and the gap is 50. *)
Lemma right_drag_breaks_gap :
  exists r,
    handleMouseMove Right (handleMouseDown 800 400)
                    (bothOpenFromRight 1200 400 450) 480
    = Some r
    /\ newWidth r == 700
    /\ otherNewWidth r = None
    /\ gapAfterRightDrag (bothOpenFromRight 1200 400 450) r == 50.
Proof.
  eexists. split; [vm_compute; reflexivity|].
  cbn. repeat split; reflexivity.
Qed.

End FlowPanelProps.

(* ================================================================== *)
(** * FlowCanvas: zoom *)
(* ================================================================== *)

Module ZoomProps.

Import FlowCanvas.
Local Open Scope Q_scope.

Lemma applyZoom_level z c :
  zoomLevel (applyZoom z c) = JS.Math_max minZoom (JS.Math_min maxZoom z).
Proof. reflexivity. Qed.

Lemma applyZoom_inRange z c : inZoomRange (zoomLevel (applyZoom z c)).
Proof.
  rewrite applyZoom_level. apply JSFacts.clamp_bounds.
  unfold minZoom, maxZoom. lra.
Qed.



Lemma new_inRange ns mode : inZoomRange (zoomLevel (new ns mode)).
Proof. apply applyZoom_inRange. Qed.



Lemma iter_zoomIn_flag n c :
  isZoomManuallyChanged (Nat.iter (S n) zoomIn c) = true.
Proof. reflexivity. Qed.






(* ------------------------------------------------------------------ *)
(** ** Fit and reset *)

Lemma Math_max_Qmax a b : JS.Math_max a b == Qmax a b.
Proof.
  destruct (JSFacts.Math_max_cases a b) as [[H ->] | [H ->]].
  - symmetry. apply Q.max_r, H.
  - symmetry. apply Q.max_l, Qlt_le_weak, H.
Qed.

Lemma Math_min_Qmin a b : JS.Math_min a b == Qmin a b.
Proof.
  destruct (JSFacts.Math_min_cases a b) as [[H ->] | [H ->]].
  - symmetry. apply Q.min_l, H.
  - symmetry. apply Q.min_r, Qlt_le_weak, H.
Qed.

Lemma zoomFit_reset r c :
  isZoomManuallyChanged c = true ->
  zoomLevel (zoomFit r c) = 1 /\ isZoomManuallyChanged (zoomFit r c) = false.
Proof. intros H. unfold zoomFit. rewrite H. split; reflexivity. Qed.

(** In fit mode the second clamp of [applyZoom] changes nothing: the
    level is the value [Math.max(minZoom, fitZoom)] itself. *)
Lemma zoomFit_fit_level r c :
  isZoomManuallyChanged c = false ->
  zoomLevel (zoomFit r c)
  = JS.Math_max minZoom
      (JS.Math_min3 ((wrapperWidth r - 96) / contentWidth r)
                    ((wrapperHeight r - 96) / contentHeight r) 1)
  /\ isZoomManuallyChanged (zoomFit r c) = false.
Proof.
  intros H. unfold zoomFit. rewrite H. split; [|reflexivity].
  rewrite applyZoom_level.
  set (fit := JS.Math_min3 _ _ _).
  assert (Hfit : fit <= 1) by apply JSFacts.Math_min_glb.
  set (v := JS.Math_max minZoom fit).
  assert (Hv : minZoom <= v /\ v <= 1).
  { subst v. destruct (JSFacts.Math_max_cases minZoom fit)
      as [[H1 ->] | [H1 ->]]; unfold minZoom in *; split; lra. }
  destruct Hv as [Hv1 Hv2].
  destruct (JSFacts.Math_min_cases maxZoom v) as [[H1 _] | [_ ->]].
  - unfold maxZoom in H1. lra.
  - destruct (JSFacts.Math_max_cases minZoom v) as [[_ ->] | [H1 _]];
      [reflexivity | lra].
Qed.

Lemma zoomFit_fit_ratio r c :
  isZoomManuallyChanged c = false ->
  zoomLevel (zoomFit r c) == fitRatio r.
Proof.
  intros H. destruct (zoomFit_fit_level r c H) as [-> _].
  unfold fitRatio, JS.Math_min3, minZoom.
  rewrite Math_max_Qmax, !Math_min_Qmin. reflexivity.
Qed.

(** Two calls of [zoomFit] in fit mode with the same measures leave the
    canvas as one call does. *)
Lemma zoomFit_idempotent r c :
  isZoomManuallyChanged c = false ->
  zoomFit r (zoomFit r c) = zoomFit r c.
Proof. intros H. unfold zoomFit. rewrite H. reflexivity. Qed.

(** [zoomFit] as a function of the rectangles it measures.  With
    [isZoomManuallyChanged] set it puts the level at exactly 1 and
    clears the flag.  With the flag clear it puts the level at
    [min((viewportWidth - 96)/contentWidth,
         (viewportHeight - 96)/contentHeight, 1)]
    raised to the minimum 0.25, and leaves the flag clear.  Hence after
    a [zoomIn] the first call resets to 1 and the second computes the
    fit ratio of what it measures; a further call that measured the
    same rectangles would change nothing.  The measured content has a
    positive width and height. *)
Theorem zoomFit_toggle (r : Rects) (c : Canvas)
        (Hw : 0 < contentWidth r) (Hh : 0 < contentHeight r) :
  (isZoomManuallyChanged c = true ->
     zoomLevel (zoomFit r c) = 1
     /\ isZoomManuallyChanged (zoomFit r c) = false)
  /\ (isZoomManuallyChanged c = false ->
       zoomLevel (zoomFit r c) == fitRatio r
       /\ 0.25 <= zoomLevel (zoomFit r c) <= 1
       /\ isZoomManuallyChanged (zoomFit r c) = false
       /\ zoomFit r (zoomFit r c) = zoomFit r c)
  /\ (isZoomManuallyChanged (zoomIn c) = true
      /\ zoomLevel (zoomFit r (zoomIn c)) = 1
      /\ isZoomManuallyChanged (zoomFit r (zoomIn c)) = false
      /\ zoomLevel (zoomFit r (zoomFit r (zoomIn c))) == fitRatio r
      /\ isZoomManuallyChanged (zoomFit r (zoomFit r (zoomIn c))) = false
      /\ zoomFit r (zoomFit r (zoomFit r (zoomIn c)))
         = zoomFit r (zoomFit r (zoomIn c))).
Proof.
  split; [apply zoomFit_reset|].
  split.
  - intros H. split; [apply zoomFit_fit_ratio, H|].
    split.
    + rewrite (zoomFit_fit_ratio r c H). unfold fitRatio. split.
      * apply Q.le_max_l.
      * apply Q.max_lub; [lra | apply Q.le_min_r].
    + split; [apply zoomFit_fit_level, H | apply zoomFit_idempotent, H].
  - assert (Hin : isZoomManuallyChanged (zoomIn c) = true) by reflexivity.
    destruct (zoomFit_reset r (zoomIn c) Hin) as [H1 H2].
    split; [exact Hin|]. split; [exact H1|]. split; [exact H2|].
    split; [apply zoomFit_fit_ratio, H2|].
    split; [apply zoomFit_fit_level, H2 | apply zoomFit_idempotent, H2].
Qed.

(** The rectangles are read from the DOM at each call, and the level of
    a fit depends on them alone: with the measures of [sampleRects] the
    level is 0.5, and with the content measured at half its size the
    next fit gives 1. *)
Remark zoomFit_follows_measures :
  zoomLevel (zoomFit sampleRects (new None build)) == 0.5
  /\ zoomLevel (zoomFit sampleRectsScaled
                        (zoomFit sampleRects (new None build))) == 1.
Proof. split; vm_compute; reflexivity. Qed.

(** A fresh canvas zoomed in once, then fitted twice to [sampleRects]. *)
Lemma zoomFit_toggle_witness :
  zoomLevel (zoomFit sampleRects (zoomFit sampleRects
                                    (zoomIn (new None build)))) == 0.5
  /\ zoomLevel (zoomFit sampleRects (zoomIn (new None build))) = 1.
Proof.
  assert (Hw : 0 < contentWidth sampleRects) by reflexivity.
  assert (Hh : 0 < contentHeight sampleRects) by reflexivity.
  destruct (zoomFit_toggle sampleRects (new None build) Hw Hh)
    as (_ & _ & _ & H1 & _ & H2 & _).
  split; [|exact H1].
  rewrite H2. vm_compute. reflexivity.
Defined.

(** C5.  On a page a repeated [zoomFit] does not settle: the method
    measures [#flow-canvas-content] under the scale that [applyZoom] has
    put on it.  The content is laid out 2000 by 1000 in a viewport of
    1096 by 896.  After a [zoomIn] on a fresh canvas the first fit
    resets the level to 1 and clears the flag.  The second fit measures
    2000 by 1000 and gives the fit ratio 0.5, under which the content
    lies within the viewport.  The third fit measures 1000 by 500 and
    gives 1, under which the content does not lie within the viewport;
    the fourth gives 0.5 again.  The flag stays clear throughout. *)
Theorem zoomFit_repeated_alternates :
  let c0 := zoomIn (new None build) in
  let c1 := ZoomLayout.zoomFitOnPage sampleRects c0 in
  let c2 := ZoomLayout.zoomFitOnPage sampleRects c1 in
  let c3 := ZoomLayout.zoomFitOnPage sampleRects c2 in
  let c4 := ZoomLayout.zoomFitOnPage sampleRects c3 in
  isZoomManuallyChanged c0 = true
  /\ (zoomLevel c1 == 1 /\ isZoomManuallyChanged c1 = false)
  /\ (zoomLevel c2 == 0.5 /\ isZoomManuallyChanged c2 = false
      /\ ZoomLayout.fitsViewport sampleRects c2)
  /\ (zoomLevel c3 == 1 /\ isZoomManuallyChanged c3 = false
      /\ ~ ZoomLayout.fitsViewport sampleRects c3)
  /\ (zoomLevel c4 == 0.5 /\ isZoomManuallyChanged c4 = false)
  /\ ~ zoomLevel c3 == zoomLevel c2
  /\ c3 <> c2.
Proof.
  cbv zeta.
  repeat match goal with |- _ /\ _ => split end;
    try (vm_compute; reflexivity).
  - split; vm_compute; discriminate.
  - intros [H _]. vm_compute in H. now apply H.
  - intros H. vm_compute in H. discriminate H.
  - intros H. apply (f_equal zoomLevel) in H. vm_compute in H.
    discriminate H.
Qed.

End ZoomProps.

(* ================================================================== *)
(** * Arrays: [findIndex] and [slice] *)
(* ================================================================== *)

Module ArrayFacts.

Local Open Scope Z_scope.

Section FindIndex.
Variable A : Type.
Variable p : A -> bool.

Lemma findIndex_from_range (arr : list A) : forall i,
  0 <= i ->
  JS.findIndex_from p arr i = -1
  \/ (i <= JS.findIndex_from p arr i < i + JS.length arr).
Proof.
  unfold JS.length.
  induction arr as [|x rest IH]; intros i Hi; cbn [JS.findIndex_from].
  - now left.
  - destruct (p x).
    + right. cbn [List.length]. lia.
    + destruct (IH (i + 1)) as [H | H]; [lia | now left |].
      right. cbn [List.length]. lia.
Qed.

Lemma findIndex_range (arr : list A) :
  -1 <= JS.findIndex p arr < JS.length arr.
Proof.
  unfold JS.findIndex.
  destruct (findIndex_from_range arr 0) as [H | H]; [lia | |].
  - rewrite H. unfold JS.length. lia.
  - lia.
Qed.


Lemma findIndex_from_first (arr : list A) : forall i k x,
  nth_error arr k = Some x -> p x = true ->
  (forall j y, (j < k)%nat -> nth_error arr j = Some y -> p y = false) ->
  JS.findIndex_from p arr i = i + Z.of_nat k.
Proof.
  induction arr as [|a rest IH]; intros i k x Hk Hp Hbefore.
  - destruct k; discriminate.
  - cbn [JS.findIndex_from]. destruct k as [|k].
    + cbn in Hk. injection Hk as ->. rewrite Hp. lia.
    + rewrite (Hbefore 0%nat a) by (try lia; reflexivity).
      rewrite (IH (i + 1) k x Hk Hp); [lia|].
      intros j y Hj Hy. apply (Hbefore (S j) y); [lia | exact Hy].
Qed.
End FindIndex.

Section Slice.
Variable A : Type.

(** On bounds inside the array, [slice(i, j + 1)] is the slice from
    [i] to [j], both included. *)
Lemma slice_inclusive (arr : list A) (i j : nat) :
  (i <= List.length arr)%nat -> (j < List.length arr)%nat ->
  JS.slice arr (Z.of_nat i) (Z.of_nat j + 1)
  = FlowCanvas.inclusiveSlice arr i j.
Proof.
  intros Hi Hj. unfold JS.slice, JS.relative_index, JS.length,
    FlowCanvas.inclusiveSlice.
  destruct (Z.ltb_spec (Z.of_nat i) 0); [lia|].
  destruct (Z.ltb_spec (Z.of_nat j + 1) 0); [lia|].
  f_equal; [|f_equal]; lia.
Qed.

(** [slice(start, stop)] is empty as soon as [stop <= start], for a
    start inside the array. *)
Lemma slice_empty (arr : list A) (start stop : Z) :
  0 <= start -> 0 <= stop -> stop <= start ->
  JS.slice arr start stop = [].
Proof.
  intros Hs He Hle. unfold JS.slice, JS.relative_index.
  destruct (Z.ltb_spec start 0); [lia|].
  destruct (Z.ltb_spec stop 0); [lia|].
  replace (Z.to_nat _) with 0%nat by lia. reflexivity.
Qed.
End Slice.

End ArrayFacts.

(* ================================================================== *)
(** * FlowCanvas: the test scope *)
(* ================================================================== *)

Module ScopeProps.

Import FlowCanvas.
Local Open Scope string_scope.
Local Open Scope list_scope.
Local Open Scope Z_scope.

(** [findIndex] on the nodes agrees with the position of the id in the
    sequence of ids. *)
Lemma findIndex_indexOf (x : string) (ns : list Node) : forall i,
  In x (map id ns) ->
  JS.findIndex_from (fun n => String.eqb (id n) x) ns i
  = i + Z.of_nat (indexOf (map id ns) x)
  /\ (indexOf (map id ns) x < List.length ns)%nat.
Proof.
  induction ns as [|n rest IH]; intros i Hin; [destruct Hin|].
  cbn [map indexOf JS.findIndex_from List.length].
  destruct (String.eqb (id n) x) eqn:E.
  - split; lia.
  - destruct Hin as [Hin | Hin].
    + apply String.eqb_neq in E. contradiction.
    + destruct (IH (i + 1) Hin) as [H1 H2]. rewrite H1. split; lia.
Qed.

Lemma nodeIndex_indexOf c x :
  In x (map id (nodes c)) ->
  nodeIndex c x = Z.of_nat (indexOf (map id (nodes c)) x)
  /\ (indexOf (map id (nodes c)) x < List.length (nodes c))%nat.
Proof.
  intros Hin. unfold nodeIndex, JS.findIndex.
  destruct (findIndex_indexOf x (nodes c) 0 Hin) as [H1 H2].
  rewrite H1. split; [lia | exact H2].
Qed.

Lemma nodeIndex_range c x : -1 <= nodeIndex c x < JS.length (nodes c).
Proof. apply ArrayFacts.findIndex_range. Qed.

Lemma slice_ids (ns : list Node) (i j : nat) :
  (i <= List.length ns)%nat -> (j < List.length ns)%nat ->
  map id (JS.slice ns (Z.of_nat i) (Z.of_nat j + 1))
  = inclusiveSlice (map id ns) i j.
Proof.
  intros Hi Hj. rewrite ArrayFacts.slice_inclusive by assumption.
  unfold inclusiveSlice. now rewrite skipn_map, firstn_map.
Qed.

Lemma last_index (ns : list Node) :
  (0 < List.length ns)%nat ->
  JS.length ns - 1 = Z.of_nat (List.length ns - 1).
Proof. unfold JS.length. lia. Qed.

Lemma In_nonempty (x : string) (ns : list Node) :
  In x (map id ns) -> (0 < List.length ns)%nat.
Proof. destruct ns; cbn; [tauto | lia]. Qed.

(** C2.  When every bound that is set names a node of the graph,
    [getTestScope()] returns all node ids in order when neither bound is
    set, and otherwise the ids from [startIndex] (the index of the start
    bound, or 0 when the start is unset) to [endIndex] (the index of the
    end bound, or the last index when the end is unset), both included.
    For the nodes [start, create-task, update-case, send-email, end] and
    the start set on [create-task] this is
    [create-task, update-case, send-email, end]. *)
Theorem getTestScope_scopeNodeIds (c : Canvas)
        (Hstart : boundExists c (testStartPoint c))
        (Hend : boundExists c (testEndPoint c)) :
  getTestScope c
  = scopeNodeIds (map id (nodes c)) (testStartPoint c) (testEndPoint c)
  /\ (isSet (testStartPoint c) = false -> isSet (testEndPoint c) = false ->
      getTestScope c = map id (nodes c)).
Proof.
  assert (Hall : isSet (testStartPoint c) = false ->
                 isSet (testEndPoint c) = false ->
                 getTestScope c = map id (nodes c)).
  { unfold getTestScope, isSet. intros -> ->. reflexivity. }
  split; [|exact Hall].
  unfold scopeNodeIds.
  destruct (isSet (testStartPoint c)) eqn:Es;
    destruct (isSet (testEndPoint c)) eqn:Ee; cbn [negb andb].
  - (* both bounds set *)
    unfold getTestScope, boundIndex, boundExists, startIndexOf, endIndexOf,
      isSet in *.
    rewrite Es, Ee. cbn [negb andb].
    destruct (testStartPoint c) as [s|]; [|discriminate].
    destruct (testEndPoint c) as [e|]; [|discriminate].
    destruct (nodeIndex_indexOf c s (Hstart Es)) as [-> Hs].
    destruct (nodeIndex_indexOf c e (Hend Ee)) as [-> He].
    apply slice_ids; lia.
  - (* the start only *)
    unfold getTestScope, boundIndex, boundExists, startIndexOf, endIndexOf,
      isSet in *.
    rewrite Es, Ee. cbn [negb andb].
    destruct (testStartPoint c) as [s|]; [|discriminate].
    destruct (nodeIndex_indexOf c s (Hstart Es)) as [-> Hs].
    assert (Hne : (0 < List.length (nodes c))%nat) by lia.
    rewrite length_map.
    destruct (testEndPoint c); rewrite (last_index _ Hne);
      apply slice_ids; lia.
  - (* the end only *)
    unfold getTestScope, boundIndex, boundExists, startIndexOf, endIndexOf,
      isSet in *.
    rewrite Es, Ee. cbn [negb andb].
    destruct (testEndPoint c) as [e|]; [|discriminate].
    destruct (nodeIndex_indexOf c e (Hend Ee)) as [-> He].
    destruct (testStartPoint c);
      change 0 with (Z.of_nat 0); apply slice_ids; lia.
  - (* neither bound *)
    apply (Hall eq_refl eq_refl).
Qed.

(** The example: the default nodes with the start set on [create-task]. *)
Lemma getTestScope_scopeNodeIds_witness :
  getTestScope (setTestStartPoint "create-task" (new None test))
  = ["create-task"; "update-case"; "send-email"; "end"].
Proof.
  refine (eq_trans
            (proj1 (getTestScope_scopeNodeIds
                      (setTestStartPoint "create-task" (new None test))
                      _ _)) _).
  - intros _. vm_compute. tauto.
  - exact I.
  - reflexivity.
Defined.

(** C10.  With both bounds set and the start node after the end node,
    [getTestScope()] returns the empty sequence.  It is a function of
    the state that writes nothing, defined on every state. *)
Theorem getTestScope_inverted (c : Canvas) (s e : string)
        (Hs : testStartPoint c = Some s) (He : testEndPoint c = Some e)
        (Hss : isSet (testStartPoint c) = true)
        (Hse : isSet (testEndPoint c) = true)
        (Hexists : 0 <= nodeIndex c e)
        (Hinv : nodeIndex c e < nodeIndex c s) :
  getTestScope c = [].
Proof.
  unfold getTestScope, boundIndex, isSet in *.
  rewrite Hs, He in *. rewrite Hss, Hse. cbn [negb andb].
  rewrite ArrayFacts.slice_empty; [reflexivity | lia | lia | lia].
Qed.

(** The default nodes with the end on [create-task] and the start on
    [send-email]. *)
Lemma getTestScope_inverted_witness :
  getTestScope (setTestStartPoint "send-email"
                  (setTestEndPoint "create-task" (new None test))) = [].
Proof.
  apply (getTestScope_inverted _ "send-email" "create-task");
    vm_compute; congruence.
Defined.

(* ------------------------------------------------------------------ *)
(** ** Setting the end point *)

Lemma nth_error_id (ns : list Node) (i : nat) :
  nth_error (map id ns) i = option_map id (nth_error ns i).
Proof. apply nth_error_map. Qed.

(** With unique ids, the node at position [i] is found at index [i]. *)
Lemma nodeIndex_nth c (i : nat) (n : Node) :
  NoDup (map id (nodes c)) ->
  nth_error (nodes c) i = Some n ->
  nodeIndex c (id n) = Z.of_nat i.
Proof.
  intros Hnd Hn. unfold nodeIndex, JS.findIndex.
  rewrite (ArrayFacts.findIndex_from_first _ _ (nodes c) 0 i n Hn);
    [lia | apply String.eqb_refl |].
  intros j y Hj Hy. apply String.eqb_neq. intros Heq.
  assert (Hji : j = i).
  { apply (proj1 (NoDup_nth_error (map id (nodes c))) Hnd).
    - rewrite length_map. apply nth_error_Some. congruence.
    - rewrite !nth_error_id, Hy, Hn. cbn. congruence. }
  lia.
Qed.

Lemma at_index_succ (ns : list Node) (i : nat) :
  JS.at_index ns (Z.of_nat i + 1) = nth_error ns (S i).
Proof.
  unfold JS.at_index. destruct (Z.ltb_spec (Z.of_nat i + 1) 0); [lia|].
  f_equal. lia.
Qed.

Lemma nth_error_lt (ns : list Node) (i : nat) (n : Node) :
  nth_error ns i = Some n -> Z.of_nat i < JS.length ns.
Proof.
  intros H. unfold JS.length.
  assert (i < List.length ns)%nat by (apply nth_error_Some; congruence).
  lia.
Qed.

(** The guard of the click handler fires when the next node is the End
    element or the current end point. *)
Lemma setEndPointRefused_adjacent c n nx itemDisabled :
  NoDup (map id (nodes c)) ->
  followedBy c n nx ->
  type nx = "end"
  \/ (isSet (testEndPoint c) = true /\ testEndPoint c = Some (id nx)) ->
  setEndPointRefused c (id n) itemDisabled = true.
Proof.
  intros Hnd (i & Hn & Hnx) Hadj. unfold setEndPointRefused.
  destruct itemDisabled; [reflexivity|].
  rewrite (nodeIndex_nth c i n Hnd Hn).
  pose proof (nth_error_lt _ _ _ Hnx) as Hlt.
  replace (0 <=? Z.of_nat i) with true by (symmetry; apply Z.leb_le; lia).
  replace (Z.of_nat i <? JS.length (nodes c) - 1) with true
    by (symmetry; apply Z.ltb_lt; lia).
  cbn [andb]. rewrite at_index_succ, Hnx.
  destruct (String.eqb (type nx) "end") eqn:Et; [reflexivity|].
  destruct Hadj as [Hty | [Hset Hend]].
  - apply String.eqb_neq in Et. contradiction.
  - unfold isSet in Hset. rewrite Hset. unfold boundIndex.
    rewrite Hend in *. rewrite Hset.
    rewrite (nodeIndex_nth c (S i) nx Hnd Hnx).
    apply andb_true_intro. split; [apply Z.leb_le | apply Z.eqb_eq]; lia.
Qed.

(** The menu item is rendered disabled in the same cases. *)
Lemma endPointDisabled_adjacent c n nx :
  NoDup (map id (nodes c)) ->
  followedBy c n nx ->
  type nx = "end"
  \/ (isSet (testEndPoint c) = true /\ testEndPoint c = Some (id nx)) ->
  JS.strict_eq (testEndPoint c) (id n) = false ->
  endPointDisabled c n = true.
Proof.
  intros Hnd (i & Hn & Hnx) Hadj Hnot. unfold endPointDisabled.
  rewrite Hnot, (nodeIndex_nth c i n Hnd Hn).
  pose proof (nth_error_lt _ _ _ Hnx) as Hlt.
  replace (0 <=? Z.of_nat i) with true by (symmetry; apply Z.leb_le; lia).
  replace (Z.of_nat i <? JS.length (nodes c) - 1) with true
    by (symmetry; apply Z.ltb_lt; lia).
  cbn [andb negb]. rewrite at_index_succ, Hnx.
  destruct Hadj as [Hty | [Hset Hend]].
  - rewrite Hty. reflexivity.
  - apply orb_true_iff. right.
    unfold isSet in Hset. rewrite Hset. unfold boundIndex.
    rewrite Hend in *. rewrite Hset.
    rewrite (nodeIndex_nth c (S i) nx Hnd Hnx). cbn [andb].
    apply andb_true_intro. split; [apply Z.leb_le | apply Z.eqb_eq]; lia.
Qed.

(** [setTestEndPoint] itself has no guard: it clears the execution path
    and the highlights and moves the end point. *)
Lemma setTestEndPoint_sets nodeId c :
  testEndPoint (setTestEndPoint nodeId c) = Some nodeId
  /\ executionPath (setTestEndPoint nodeId c) = []
  /\ pathHighlights (setTestEndPoint nodeId c) = []
  /\ nodes (setTestEndPoint nodeId c) = nodes c
  /\ testStartPoint (setTestEndPoint nodeId c) = testStartPoint c.
Proof. repeat split. Qed.

(** C3 (as stated, fails).  In the default graph [send-email] is right
    before the End element, and [update-case] is right before
    [send-email]; called directly, [setTestEndPoint] moves the end point
    on either of them. *)
Lemma setTestEndPoint_direct_not_refused :
  let c0 := new None test in
  let c1 := setTestEndPoint "send-email" c0 in
  (exists n nx, followedBy c0 n nx /\ id n = "send-email"
                /\ type nx = "end")
  /\ testEndPoint c0 = None
  /\ testEndPoint c1 = Some "send-email"
  /\ c1 <> c0
  /\ (exists n nx, followedBy c1 n nx /\ id n = "update-case"
                   /\ testEndPoint c1 = Some (id nx))
  /\ testEndPoint (setTestEndPoint "update-case" c1) = Some "update-case"
  /\ setTestEndPoint "update-case" c1 <> c1.
Proof.
  cbv zeta. split.
  { eexists _, _. split; [exists 3%nat; split; reflexivity|].
    split; reflexivity. }
  split; [reflexivity|]. split; [reflexivity|].
  split; [intros H; apply (f_equal testEndPoint) in H; discriminate|].
  split.
  { eexists _, _. split; [exists 2%nat; split; reflexivity|].
    split; reflexivity. }
  split; [reflexivity|].
  intros H; apply (f_equal testEndPoint) in H; discriminate.
Qed.

(** C3 (amended).  In a graph with unique ids, a click on the menu item
    "set end point" of a node that is right before a node of type [end],
    or right before the current end point, changes nothing in the state
    of the canvas, whether or not the item was rendered disabled; the
    item of such a node (when it is not itself the end point) is rendered
    disabled.  [setTestEndPoint] called directly does not refuse: it
    moves the end point to the node and clears the execution path and
    the highlights. *)
Theorem set_end_point_click_refused
        (c : Canvas) (n nx : Node) (itemDisabled confirmed : bool)
        (Hids : NoDup (map id (nodes c)))
        (Hnext : followedBy c n nx)
        (Hadj : type nx = "end"
                \/ (isSet (testEndPoint c) = true
                    /\ testEndPoint c = Some (id nx))) :
  menuItemClick set_end_point (id n) itemDisabled confirmed c = c
  /\ (JS.strict_eq (testEndPoint c) (id n) = false ->
      endPointDisabled c n = true)
  /\ testEndPoint (setTestEndPoint (id n) c) = Some (id n)
  /\ executionPath (setTestEndPoint (id n) c) = []
  /\ pathHighlights (setTestEndPoint (id n) c) = [].
Proof.
  split.
  - unfold menuItemClick.
    now rewrite (setEndPointRefused_adjacent c n nx itemDisabled Hids Hnext Hadj).
  - split; [apply (endPointDisabled_adjacent c n nx Hids Hnext Hadj)|].
    repeat split.
Qed.

(** The default nodes: [send-email] is right before the End element. *)
Lemma set_end_point_click_refused_witness :
  let c := new None test in
  menuItemClick set_end_point "send-email" false false c = c.
Proof.
  cbv zeta.
  refine (proj1 (set_end_point_click_refused
                   (new None test)
                   {| id := "send-email"; type := "action";
                      title := "Send Email to User"; subtitle := "Action" |}
                   {| id := "end"; type := "end"; title := "End";
                      subtitle := "" |}
                   false false _ _ _)).
  - vm_compute. repeat constructor; cbn; intuition discriminate.
  - exists 3%nat. split; reflexivity.
  - left. reflexivity.
Defined.

End ScopeProps.

(* ================================================================== *)
(** * FlowCanvas: styles of a connector line *)
(* ================================================================== *)

Module LineFacts.

Import FlowCanvas.
Local Open Scope string_scope.
Local Open Scope list_scope.

Lemma contains_In (l : list string) (t : string) :
  JS.contains l t = true <-> In t l.
Proof.
  unfold JS.contains. rewrite existsb_exists. split.
  - intros (x & Hx & E). apply String.eqb_eq in E. now subst.
  - intros H. exists t. split; [exact H | apply String.eqb_refl].
Qed.

Lemma contains_false (l : list string) (t : string) :
  JS.contains l t = false <-> ~ In t l.
Proof.
  rewrite <- contains_In. destruct (JS.contains l t); split; intros H;
    try congruence; try tauto.
Qed.

Lemma classList_add_In (l : list string) (t u : string) :
  In u (JS.classList_add l t) <-> In u l \/ u = t.
Proof.
  unfold JS.classList_add. destruct (JS.contains l t) eqn:E.
  - apply contains_In in E. split; [tauto|]. intros [H | ->]; assumption.
  - rewrite in_app_iff. cbn. intuition congruence.
Qed.

Lemma classList_add_filter (keep : string -> bool) (l : list string)
      (t : string) :
  keep t = false ->
  filter keep (JS.classList_add l t) = filter keep l.
Proof.
  intros Hk. unfold JS.classList_add. destruct (JS.contains l t);
    [reflexivity|].
  rewrite filter_app. cbn. rewrite Hk. apply app_nil_r.
Qed.

(** The six removals of [clearPathHighlightStyles] amount to one
    filter. *)
Lemma clear_classList (l : Line) :
  classList (clearPathHighlightStyles l)
  = filter (fun t => negb (isHighlightClass t)) (classList l).
Proof.
  unfold clearPathHighlightStyles, JS.classList_remove. cbn [classList].
  induction (classList l) as [|t rest IH]; [reflexivity|].
  cbn [filter]. unfold isHighlightClass, JS.contains, highlightClassNames.
  cbn [existsb].
  rewrite (String.eqb_sym t "flow-connector-line-executed").
  destruct (String.eqb "flow-connector-line-executed" t);
    cbn [negb orb filter]; [exact IH|].
  rewrite (String.eqb_sym t "flow-connector-line-passed").
  destruct (String.eqb "flow-connector-line-passed" t);
    cbn [negb orb filter]; [exact IH|].
  rewrite (String.eqb_sym t "flow-connector-line-failed").
  destruct (String.eqb "flow-connector-line-failed" t);
    cbn [negb orb filter]; [exact IH|].
  rewrite (String.eqb_sym t "flow-connector-line-error").
  destruct (String.eqb "flow-connector-line-error" t);
    cbn [negb orb filter]; [exact IH|].
  rewrite (String.eqb_sym t "flow-connector-line-not-run").
  destruct (String.eqb "flow-connector-line-not-run" t);
    cbn [negb orb filter]; [exact IH|].
  rewrite (String.eqb_sym t "flow-connector-line-multi").
  destruct (String.eqb "flow-connector-line-multi" t);
    cbn [negb orb filter]; [exact IH|].
  f_equal. exact IH.
Qed.

Lemma statusClass_highlight (s : Status) :
  isHighlightClass (statusClass s) = true.
Proof. destruct s; reflexivity. Qed.

Lemma executedClass_highlight : isHighlightClass executedClass = true.
Proof. reflexivity. Qed.

Lemma multiClass_highlight : isHighlightClass multiClass = true.
Proof. reflexivity. Qed.

Lemma statusClass_inj (a b : Status) :
  statusClass a = statusClass b -> a = b.
Proof. destruct a, b; intros H; try reflexivity; discriminate. Qed.

Lemma statusClass_not_executed (s : Status) : statusClass s <> executedClass.
Proof. destruct s; discriminate. Qed.

Lemma statusClass_not_multi (s : Status) : statusClass s <> multiClass.
Proof. destruct s; discriminate. Qed.

(** After the clearing no highlight class is left. *)
Lemma clear_highlightClasses (l : Line) :
  highlightClasses (clearPathHighlightStyles l) = [].
Proof.
  unfold highlightClasses. rewrite clear_classList.
  induction (classList l) as [|t rest IH]; [reflexivity|].
  cbn [filter]. destruct (isHighlightClass t) eqn:E; cbn [negb];
    [exact IH|].
  cbn [filter]. rewrite E. exact IH.
Qed.

Lemma highlightClasses_In (l : Line) (t : string) :
  In t (highlightClasses l) <-> hasClass l t /\ isHighlightClass t = true.
Proof. unfold highlightClasses, hasClass. apply filter_In. Qed.

Lemma clear_no_highlight (l : Line) (t : string) :
  isHighlightClass t = true -> ~ hasClass (clearPathHighlightStyles l) t.
Proof.
  intros Ht Hin.
  assert (H : In t (highlightClasses (clearPathHighlightStyles l)))
    by (apply highlightClasses_In; auto).
  rewrite clear_highlightClasses in H. exact H.
Qed.

Lemma clear_truthy (l : Line) :
  JS.truthy (pathStatuses (clearPathHighlightStyles l)) = false.
Proof.
  unfold clearPathHighlightStyles. cbn [pathStatuses].
  destruct (JS.truthy (pathStatuses l)) eqn:E; [reflexivity | exact E].
Qed.

Lemma clear_idempotent (l : Line) :
  clearPathHighlightStyles (clearPathHighlightStyles l)
  = clearPathHighlightStyles l.
Proof.
  assert (Hc : classList (clearPathHighlightStyles
                            (clearPathHighlightStyles l))
               = classList (clearPathHighlightStyles l)).
  { rewrite (clear_classList (clearPathHighlightStyles l)).
    rewrite clear_classList.
    induction (classList l) as [|t rest IH]; [reflexivity|].
    cbn [filter]. destruct (isHighlightClass t) eqn:E; cbn [negb];
      [exact IH|].
    cbn [filter]. rewrite E. cbn [negb]. f_equal. exact IH. }
  assert (Hp : pathStatuses (clearPathHighlightStyles
                               (clearPathHighlightStyles l))
               = pathStatuses (clearPathHighlightStyles l)).
  { pose proof (clear_truthy l) as Ht.
    unfold clearPathHighlightStyles at 1. cbn [pathStatuses].
    now rewrite Ht. }
  destruct (clearPathHighlightStyles (clearPathHighlightStyles l)),
    (clearPathHighlightStyles l).
  cbn in Hc, Hp. now subst.
Qed.

(* ------------------------------------------------------------------ *)
(** ** The distinct statuses and their sorted key *)

Lemma Status_eqb_eq (a b : Status) : Status_eqb a b = true <-> a = b.
Proof. destruct a, b; cbn; split; intros H; congruence. Qed.

Lemma Set_add_In (seen : list Status) (s x : Status) :
  In x (Set_add seen s) <-> In x seen \/ x = s.
Proof.
  unfold Set_add. destruct (existsb (Status_eqb s) seen) eqn:E.
  - apply existsb_exists in E. destruct E as (y & Hy & E).
    apply Status_eqb_eq in E. subst y.
    split; [tauto|]. intros [H | ->]; assumption.
  - rewrite in_app_iff. cbn. intuition congruence.
Qed.

Lemma Set_add_NoDup (seen : list Status) (s : Status) :
  NoDup seen -> NoDup (Set_add seen s).
Proof.
  intros Hnd. unfold Set_add.
  destruct (existsb (Status_eqb s) seen) eqn:E; [exact Hnd|].
  apply NoDup_app; [exact Hnd | repeat constructor; intros [] |].
  intros x Hx [Heq | []]. subst x.
  assert (Hex : existsb (Status_eqb s) seen = true).
  { apply existsb_exists. exists s. split; [exact Hx|].
    now apply Status_eqb_eq. }
  congruence.
Qed.

Lemma fold_Set_add_In (l : list Status) : forall seen x,
  In x (fold_left Set_add l seen) <-> In x seen \/ In x l.
Proof.
  induction l as [|s rest IH]; intros seen x; cbn [fold_left].
  - cbn. tauto.
  - rewrite IH, Set_add_In. cbn. intuition congruence.
Qed.

Lemma fold_Set_add_NoDup (l : list Status) : forall seen,
  NoDup seen -> NoDup (fold_left Set_add l seen).
Proof.
  induction l as [|s rest IH]; intros seen H; cbn [fold_left]; [exact H|].
  apply IH, Set_add_NoDup, H.
Qed.

Lemma Set_of_In (l : list Status) (x : Status) :
  In x (Set_of l) <-> In x l.
Proof. unfold Set_of. rewrite fold_Set_add_In. cbn. tauto. Qed.

Lemma Set_of_NoDup (l : list Status) : NoDup (Set_of l).
Proof. apply fold_Set_add_NoDup. constructor. Qed.

Lemma name_lt_trans (a b c : Status) :
  name_lt a b -> name_lt b c -> name_lt a c.
Proof.
  unfold name_lt. destruct a, b, c; vm_compute; congruence.
Qed.

Lemma name_lt_irrefl (a : Status) : ~ name_lt a a.
Proof. unfold name_lt. destruct a; vm_compute; congruence. Qed.

Lemma status_leb_true (a b : Status) :
  status_leb a b = true -> a = b \/ name_lt a b.
Proof.
  unfold status_leb, name_lt. destruct a, b; vm_compute; auto.
Qed.

Lemma status_leb_false (a b : Status) :
  status_leb a b = false -> name_lt b a.
Proof.
  unfold status_leb, name_lt. destruct a, b; vm_compute; congruence.
Qed.

Lemma sort_insert_In (s : Status) (l : list Status) (x : Status) :
  In x (sort_insert s l) <-> x = s \/ In x l.
Proof.
  induction l as [|y rest IH]; cbn [sort_insert].
  - cbn. intuition congruence.
  - destruct (status_leb s y); cbn [In]; [intuition congruence|].
    rewrite IH. intuition congruence.
Qed.

Lemma sort_In (l : list Status) (x : Status) : In x (sort l) <-> In x l.
Proof.
  unfold sort. induction l as [|y rest IH]; cbn [fold_right]; [tauto|].
  rewrite sort_insert_In, IH. cbn. intuition congruence.
Qed.

Lemma sort_insert_sorted (s : Status) (l : list Status) :
  ~ In s l -> sortedByName l -> sortedByName (sort_insert s l).
Proof.
  unfold sortedByName.
  induction l as [|y rest IH]; intros Hnin Hs; cbn [sort_insert].
  - repeat constructor.
  - inversion Hs as [|? ? Hrest Hall]; subst.
    destruct (status_leb s y) eqn:E.
    + apply status_leb_true in E. destruct E as [-> | Hlt].
      { exfalso. apply Hnin. now left. }
      constructor; [exact Hs|].
      constructor; [exact Hlt|].
      eapply Forall_impl; [|exact Hall].
      intros z Hz. eapply name_lt_trans; eassumption.
    + apply status_leb_false in E.
      constructor.
      * apply IH; [|exact Hrest]. intros H. apply Hnin. now right.
      * apply Forall_forall. intros z Hz.
        apply sort_insert_In in Hz. destruct Hz as [-> | Hz]; [exact E|].
        rewrite Forall_forall in Hall. now apply Hall.
Qed.

Lemma sort_sorted (l : list Status) : NoDup l -> sortedByName (sort l).
Proof.
  unfold sort. induction 1 as [|x rest Hnin Hnd IH]; cbn [fold_right].
  - constructor.
  - apply sort_insert_sorted; [|exact IH].
    intros H. apply Hnin. now apply (sort_In rest x).
Qed.

(** Two lists sorted by name with the same members are the same list:
    the key of a set of statuses does not depend on the order in which
    the statuses came. *)
Lemma sortedByName_unique (u : list Status) : forall v,
  sortedByName u -> sortedByName v ->
  (forall s, In s u <-> In s v) -> u = v.
Proof.
  unfold sortedByName.
  induction u as [|a u IH]; intros v Hu Hv Hsame.
  - destruct v as [|b v]; [reflexivity|].
    exfalso. apply (Hsame b). now left.
  - destruct v as [|b v].
    { exfalso. apply (Hsame a). now left. }
    inversion Hu as [|? ? Hu' Hau]; subst.
    inversion Hv as [|? ? Hv' Hbv]; subst.
    rewrite Forall_forall in Hau, Hbv.
    assert (Hab : a = b).
    { destruct (proj1 (Hsame a) (or_introl eq_refl)) as [E | Hin];
        [now symmetry|].
      destruct (proj2 (Hsame b) (or_introl eq_refl)) as [E | Hin'];
        [exact E|].
      exfalso. apply (name_lt_irrefl a).
      eapply name_lt_trans; [apply Hau, Hin' | apply Hbv, Hin]. }
    subst b. f_equal. apply IH; [exact Hu' | exact Hv' |].
    intros s. split; intros Hin.
    + destruct (proj1 (Hsame s) (or_intror Hin)) as [E | H]; [|exact H].
      subst s. exfalso. apply (name_lt_irrefl a), Hau, Hin.
    + destruct (proj2 (Hsame s) (or_intror Hin)) as [E | H]; [|exact H].
      subst s. exfalso. apply (name_lt_irrefl a), Hbv, Hin.
Qed.

Lemma sort_Set_of_same (l1 l2 : list Status) :
  (forall s, In s l1 <-> In s l2) ->
  sort (Set_of l1) = sort (Set_of l2).
Proof.
  intros Hsame. apply sortedByName_unique.
  - apply sort_sorted, Set_of_NoDup.
  - apply sort_sorted, Set_of_NoDup.
  - intros s. rewrite !sort_In, !Set_of_In. apply Hsame.
Qed.

(* ------------------------------------------------------------------ *)
(** ** [applyPathHighlightStyles] *)

Lemma line_ext (l1 l2 : Line) :
  classList l1 = classList l2 -> pathStatuses l1 = pathStatuses l2 ->
  l1 = l2.
Proof. destruct l1, l2. cbn. intros -> ->. reflexivity. Qed.

Lemma fold_add_In (u : list Status) : forall cl t,
  In t (fold_left addStatusClass u cl)
  <-> In t cl \/ exists s, In s u /\ t = statusClass s.
Proof.
  induction u as [|a u IH]; intros cl t; cbn [fold_left].
  - split; [tauto|]. intros [H | (s & [] & _)]. exact H.
  - rewrite IH. unfold addStatusClass at 1. rewrite classList_add_In.
    split.
    + intros [[H | ->] | (s & Hs & ->)]; [tauto | |].
      * right. exists a. split; [now left | reflexivity].
      * right. exists s. split; [now right | reflexivity].
    + intros [H | (s & [-> | Hs] & ->)]; [tauto | tauto |].
      right. exists s. tauto.
Qed.

Lemma fold_add_filter (keep : string -> bool) (u : list Status) :
  (forall s, keep (statusClass s) = false) ->
  forall cl,
    filter keep (fold_left addStatusClass u cl) = filter keep cl.
Proof.
  intros Hk. induction u as [|a u IH]; intros cl; cbn [fold_left];
    [reflexivity|].
  rewrite IH. apply classList_add_filter, Hk.
Qed.

Lemma filter_notHighlight_clear (l : Line) :
  filter notHighlight (classList (clearPathHighlightStyles l))
  = classList (clearPathHighlightStyles l).
Proof.
  unfold notHighlight.
  rewrite <- (clear_classList (clearPathHighlightStyles l)).
  now rewrite clear_idempotent.
Qed.

Lemma apply_classes_In (l : Line) (statuses : list Status) (legacy : bool)
      (t : string) :
  hasClass (applyPathHighlightStyles l statuses legacy) t
  <-> hasClass (clearPathHighlightStyles l) t
      \/ In t (addedClasses statuses legacy).
Proof.
  unfold hasClass, applyPathHighlightStyles, addedClasses.
  destruct statuses as [|s0 rest].
  - destruct legacy; cbn [classList].
    + rewrite classList_add_In. cbn. intuition congruence.
    + cbn. tauto.
  - destruct (Set_of (s0 :: rest)) as [|a [|b u]]; cbn [classList].
    + cbn [fold_left]. rewrite classList_add_In. cbn. intuition congruence.
    + rewrite classList_add_In. cbn. intuition congruence.
    + change (fun cl s => JS.classList_add cl (statusClass s))
        with addStatusClass.
      rewrite fold_add_In, classList_add_In. cbn [In map].
      split.
      * intros [[H | ->] | (s & Hs & ->)]; [tauto | tauto |].
        right. right. destruct Hs as [-> | [-> | Hs]]; [tauto | tauto |].
        right. right. now apply in_map.
      * intros [H | [<- | [<- | [<- | H]]]]; [tauto | tauto | | |].
        -- right. exists a. cbn. tauto.
        -- right. exists b. cbn. tauto.
        -- apply in_map_iff in H. destruct H as (s & <- & Hs).
           right. exists s. cbn. tauto.
Qed.

Lemma addedClasses_highlight (statuses : list Status) (legacy : bool)
      (t : string) :
  In t (addedClasses statuses legacy) -> isHighlightClass t = true.
Proof.
  unfold addedClasses. destruct statuses as [|s0 rest].
  - destruct legacy; cbn; [intros [<- | []]; reflexivity | tauto].
  - destruct (Set_of (s0 :: rest)) as [|a [|b u]]; cbn [In map].
    + intros [<- | []]. reflexivity.
    + intros [<- | []]. apply statusClass_highlight.
    + intros [<- | [<- | [<- | H]]];
        try reflexivity; try apply statusClass_highlight.
      apply in_map_iff in H. destruct H as (s & <- & _).
      apply statusClass_highlight.
Qed.

(** A highlight class is on the line exactly when it was added. *)
Lemma apply_highlight_In (l : Line) (statuses : list Status)
      (legacy : bool) (t : string) :
  isHighlightClass t = true ->
  (hasClass (applyPathHighlightStyles l statuses legacy) t
   <-> In t (addedClasses statuses legacy)).
Proof.
  intros Ht. rewrite apply_classes_In. split; [|tauto].
  intros [H | H]; [|exact H].
  exfalso. exact (clear_no_highlight l t Ht H).
Qed.

Lemma Set_of_nonempty (s0 : Status) (rest : list Status) :
  Set_of (s0 :: rest) <> [].
Proof.
  intros H. assert (Hin : In s0 (Set_of (s0 :: rest)))
    by (apply Set_of_In; now left).
  rewrite H in Hin. exact Hin.
Qed.

(** The status classes on the line are those of the statuses given. *)
Lemma apply_statusClass (l : Line) (statuses : list Status)
      (legacy : bool) (s : Status) :
  hasClass (applyPathHighlightStyles l statuses legacy) (statusClass s)
  <-> In s statuses.
Proof.
  rewrite (apply_highlight_In l statuses legacy _ (statusClass_highlight s)).
  unfold addedClasses. destruct statuses as [|s0 rest].
  - destruct legacy; cbn; [|tauto].
    split; [|tauto]. intros [H | []].
    exfalso. now apply (statusClass_not_executed s).
  - rewrite <- (Set_of_In (s0 :: rest) s).
    pose proof (Set_of_nonempty s0 rest) as Hne.
    destruct (Set_of (s0 :: rest)) as [|a [|b u]]; [congruence | |].
    + cbn. split.
      * intros [H | []]. left. now apply statusClass_inj.
      * intros [-> | []]. now left.
    + cbn [In]. split.
      * intros [H | H].
        { exfalso. now apply (statusClass_not_multi s). }
        apply in_map_iff in H. destruct H as (x & Hx & Hin).
        apply statusClass_inj in Hx. now subst.
      * intros H. right. apply in_map_iff. now exists s.
Qed.

(** The class of the legacy execution path is on the line exactly when
    no status was given and the connector is executed. *)
Lemma apply_executedClass (l : Line) (statuses : list Status)
      (legacy : bool) :
  hasClass (applyPathHighlightStyles l statuses legacy) executedClass
  <-> statuses = [] /\ legacy = true.
Proof.
  rewrite (apply_highlight_In l statuses legacy _ executedClass_highlight).
  unfold addedClasses. destruct statuses as [|s0 rest].
  - destruct legacy; cbn; intuition congruence.
  - split; [|intros [H _]; discriminate].
    destruct (Set_of (s0 :: rest)) as [|a [|b u]]; cbn [In].
    + intros [H | []]. discriminate.
    + intros [H | []]. exfalso. now apply (statusClass_not_executed a).
    + intros [H | H]; [discriminate|].
      apply in_map_iff in H. destruct H as (x & Hx & _).
      exfalso. now apply (statusClass_not_executed x).
Qed.

(* ------------------------------------------------------------------ *)
(** ** Single status, several statuses, and applying twice *)

Lemma apply_classList (l : Line) (statuses : list Status) (legacy : bool) :
  filter notHighlight
         (classList (applyPathHighlightStyles l statuses legacy))
  = classList (clearPathHighlightStyles l).
Proof.
  rewrite <- (filter_notHighlight_clear l).
  assert (Hk : forall s, notHighlight (statusClass s) = false)
    by (intros s; unfold notHighlight; now rewrite statusClass_highlight).
  unfold applyPathHighlightStyles.
  destruct statuses as [|s0 rest].
  - destruct legacy; cbn [classList]; [|reflexivity].
    apply classList_add_filter. reflexivity.
  - destruct (Set_of (s0 :: rest)) as [|a [|b u]]; cbn [classList].
    + cbn [fold_left]. apply classList_add_filter. reflexivity.
    + apply classList_add_filter, Hk.
    + change (fun cl s => JS.classList_add cl (statusClass s))
        with addStatusClass.
      rewrite (fold_add_filter notHighlight (a :: b :: u) Hk).
      apply classList_add_filter. reflexivity.
Qed.

Lemma apply_pathStatuses (l : Line) (statuses : list Status)
      (legacy : bool) :
  pathStatuses (applyPathHighlightStyles l statuses legacy)
  = if severalStatuses statuses
    then Some (join (sort (Set_of statuses)))
    else pathStatuses (clearPathHighlightStyles l).
Proof.
  unfold applyPathHighlightStyles, severalStatuses.
  destruct statuses as [|s0 rest].
  - destruct legacy; reflexivity.
  - destruct (Set_of (s0 :: rest)) as [|a [|b u]]; reflexivity.
Qed.

Lemma clear_pathStatuses_falsy (l : Line) :
  JS.truthy (pathStatuses l) = false ->
  pathStatuses (clearPathHighlightStyles l) = pathStatuses l.
Proof.
  intros H. unfold clearPathHighlightStyles. cbn [pathStatuses].
  now rewrite H.
Qed.

(** Clearing after applying leaves the classes that the first clearing
    left. *)
Lemma clear_apply_classList (l : Line) (statuses : list Status)
      (legacy : bool) :
  classList (clearPathHighlightStyles
               (applyPathHighlightStyles l statuses legacy))
  = classList (clearPathHighlightStyles l).
Proof. rewrite clear_classList. apply apply_classList. Qed.

(** The part of [applyPathHighlightStyles] after the clearing depends
    on the cleared line only. *)
Lemma apply_congr (l1 l2 : Line) (statuses : list Status) (legacy : bool) :
  classList (clearPathHighlightStyles l1)
  = classList (clearPathHighlightStyles l2) ->
  (severalStatuses statuses = false ->
   pathStatuses (clearPathHighlightStyles l1)
   = pathStatuses (clearPathHighlightStyles l2)) ->
  applyPathHighlightStyles l1 statuses legacy
  = applyPathHighlightStyles l2 statuses legacy.
Proof.
  intros Hc Hp. apply line_ext.
  - unfold applyPathHighlightStyles.
    destruct statuses as [|s0 rest].
    + destruct legacy; cbn [classList]; now rewrite Hc.
    + destruct (Set_of (s0 :: rest)) as [|a [|b u]]; cbn [classList];
        now rewrite Hc.
  - rewrite !apply_pathStatuses.
    destruct (severalStatuses statuses); [reflexivity | now apply Hp].
Qed.

Lemma apply_idempotent (l : Line) (statuses : list Status) (legacy : bool) :
  applyPathHighlightStyles
    (applyPathHighlightStyles l statuses legacy) statuses legacy
  = applyPathHighlightStyles l statuses legacy.
Proof.
  apply apply_congr.
  - apply clear_apply_classList.
  - intros Hs. rewrite clear_pathStatuses_falsy.
    + rewrite apply_pathStatuses, Hs. reflexivity.
    + rewrite apply_pathStatuses, Hs. apply clear_truthy.
Qed.

Lemma clear_apply_idempotent (l : Line) :
  applyPathHighlightStyles (clearPathHighlightStyles l) [] false
  = clearPathHighlightStyles l.
Proof. unfold applyPathHighlightStyles. apply clear_idempotent. Qed.


(** Two or more distinct statuses: the line carries the class of a
    multi-status line and the key of the sorted distinct statuses. *)
Lemma apply_several (l : Line) (statuses : list Status) (legacy : bool) :
  hasClass (applyPathHighlightStyles l statuses legacy) multiClass
  <-> (2 <= List.length (Set_of statuses))%nat.
Proof.
  rewrite (apply_highlight_In l statuses legacy _ multiClass_highlight).
  unfold addedClasses. destruct statuses as [|s0 rest].
  - destruct legacy; cbn; split; try lia; intuition discriminate.
  - pose proof (Set_of_nonempty s0 rest) as Hne.
    destruct (Set_of (s0 :: rest)) as [|a [|b u]]; [congruence | |].
    + cbn. split; [|lia]. intros [H | []].
      exfalso. now apply (statusClass_not_multi a).
    + cbn [List.length In]. split; [lia|]. intros _. now left.
Qed.


End LineFacts.

(* ================================================================== *)
(** * FlowCanvas: from the highlights to the rendered connectors *)
(* ================================================================== *)

Module ConnectorFacts.

Import FlowCanvas.
Local Open Scope string_scope.
Local Open Scope list_scope.
Local Open Scope Z_scope.

(** ** The status map *)

Lemma statusMap_get_push (m : list (Z * list Status)) (k i : Z)
      (s : Status) :
  statusMap_get (statusMap_push m k s) i
  = if k =? i then statusMap_get m i ++ [s] else statusMap_get m i.
Proof.
  unfold statusMap_get.
  induction m as [|[k' l] rest IH]; cbn [statusMap_push find fst snd].
  - destruct (k =? i); reflexivity.
  - destruct (Z.eqb_spec k' k) as [-> | Hne]; cbn [find fst snd].
    + destruct (k =? i); reflexivity.
    + destruct (Z.eqb_spec k' i) as [-> | Hne'].
      * destruct (Z.eqb_spec k i); [congruence | reflexivity].
      * exact IH.
Qed.

Lemma statusMap_get_pushes (s : Status) (i : Z) (cs : list Z) : forall m,
  statusMap_get
    (fold_left (fun m connectorIndex => statusMap_push m connectorIndex s)
               cs m) i
  = statusMap_get m i ++ map (fun _ => s) (filter (Z.eqb i) cs).
Proof.
  induction cs as [|k cs IH]; intros m; cbn [fold_left filter map].
  - now rewrite app_nil_r.
  - rewrite IH, statusMap_get_push, (Z.eqb_sym i k).
    destruct (k =? i); cbn [map]; [|reflexivity].
    now rewrite <- app_assoc.
Qed.

Lemma statusMap_get_fold (i : Z) (hs : list (string * PathHighlight)) :
  forall m,
    statusMap_get
      (fold_left
         (fun m (entry : string * PathHighlight) =>
            fold_left (fun m connectorIndex =>
                         statusMap_push m connectorIndex
                                        (status (snd entry)))
                      (connectors (snd entry)) m)
         hs m) i
    = statusMap_get m i ++ statusesAt hs i.
Proof.
  induction hs as [|entry hs IH]; intros m; cbn [fold_left statusesAt flat_map].
  - now rewrite app_nil_r.
  - rewrite IH, statusMap_get_pushes. now rewrite <- app_assoc.
Qed.

(** The array kept for connector [i] holds the statuses of the
    scenarios that touch [i]. *)
Lemma connectorStatusMap_get (hs : list (string * PathHighlight)) (i : Z) :
  statusMap_get (connectorStatusMap hs) i = statusesAt hs i.
Proof. unfold connectorStatusMap. now rewrite statusMap_get_fold. Qed.

Lemma statusesAt_In (hs : list (string * PathHighlight)) (i : Z)
      (s : Status) :
  In s (statusesAt hs i) <-> contributes hs i s.
Proof.
  unfold statusesAt, contributes. rewrite in_flat_map. split.
  - intros ([k h] & Hin & Hs). cbn [snd] in Hs.
    apply in_map_iff in Hs. destruct Hs as (j & <- & Hj).
    apply filter_In in Hj. destruct Hj as [Hj E].
    apply Z.eqb_eq in E. subst j. now exists k, h.
  - intros (k & h & Hin & Hi & <-). exists (k, h). split; [exact Hin|].
    cbn [snd]. apply in_map_iff. exists i. split; [reflexivity|].
    apply filter_In. split; [exact Hi | apply Z.eqb_refl].
Qed.


(** ** Indexed traversal of the connectors *)

Section Indexed.
Variables A B : Type.
Variable f : Z -> A -> B.

Lemma nth_error_map_indexed (l : list A) : forall k n,
  nth_error (map (fun ie => f (fst ie) (snd ie)) (JS.indexed_from k l)) n
  = option_map (f (k + Z.of_nat n)) (nth_error l n).
Proof.
  induction l as [|x rest IH]; intros k n; cbn [JS.indexed_from map].
  - destruct n; reflexivity.
  - destruct n as [|n]; cbn [nth_error option_map fst snd].
    + f_equal. f_equal. lia.
    + rewrite IH. f_equal. f_equal. lia.
Qed.

Lemma at_index_map_indexed (l : list A) (i : Z) :
  JS.at_index (map (fun ie => f (fst ie) (snd ie)) (JS.indexed l)) i
  = option_map (f i) (JS.at_index l i).
Proof.
  unfold JS.at_index, JS.indexed.
  destruct (Z.ltb_spec i 0); [reflexivity|].
  rewrite nth_error_map_indexed. f_equal. f_equal. lia.
Qed.

Lemma map_indexed_map (g : B -> option Badge) (h : A -> option Badge)
      (l : list A) :
  (forall i x, g (f i x) = h x) ->
  forall k,
    map g (map (fun ie => f (fst ie) (snd ie)) (JS.indexed_from k l))
    = map h l.
Proof.
  intros Hgh. induction l as [|x rest IH]; intros k;
    cbn [JS.indexed_from map fst snd]; [reflexivity|].
  now rewrite Hgh, IH.
Qed.
End Indexed.

(** ** The badges *)

Lemma findBadges_from (els : list ConnectorEl) : forall k acc,
  fold_left noteBadge (JS.indexed_from k els) acc
  = fold_left (fun acc ib => badgeStep acc (fst ib) (snd ib))
              (JS.indexed_from k (map badgeOf els)) acc.
Proof.
  induction els as [|el rest IH]; intros k acc;
    cbn [JS.indexed_from map fold_left fst snd]; [reflexivity|].
  now rewrite IH.
Qed.

(** The badge indices depend on the badges only. *)
Lemma findBadges_badges (els1 els2 : list ConnectorEl) :
  map badgeOf els1 = map badgeOf els2 ->
  findBadges els1 = findBadges els2.
Proof.
  intros H. unfold findBadges, JS.indexed.
  now rewrite !findBadges_from, H.
Qed.

Lemma styleConnector_badge path m e i el :
  badgeOf (styleConnector path m e i el) = badgeOf el.
Proof.
  unfold styleConnector. destruct el as [line | [|] above below];
    cbn [badgeOf]; [|reflexivity|reflexivity].
  destruct ((0 <=? e) && (e <? i)); reflexivity.
Qed.

Lemma styled_badges path m e (els : list ConnectorEl) :
  map badgeOf
      (map (fun ie => styleConnector path m e (fst ie) (snd ie))
           (JS.indexed els))
  = map badgeOf els.
Proof.
  unfold JS.indexed. apply map_indexed_map.
  intros i x. apply styleConnector_badge.
Qed.

Lemma updateConnectorStyles_badges c :
  findBadges (connectorEls (updateConnectorStyles c))
  = findBadges (connectorEls c).
Proof.
  unfold updateConnectorStyles. cbn [connectorEls with_connectorEls].
  apply findBadges_badges, styled_badges.
Qed.

Lemma updateConnectorStyles_end c :
  endConnectorIndex (updateConnectorStyles c) = endConnectorIndex c.
Proof.
  unfold endConnectorIndex. now rewrite updateConnectorStyles_badges.
Qed.

Lemma updateConnectorStyles_start c :
  startConnectorIndex (updateConnectorStyles c) = startConnectorIndex c.
Proof.
  unfold startConnectorIndex. now rewrite updateConnectorStyles_badges.
Qed.

(** ** One connector after [updateConnectorStyles] *)

Lemma connectorAt_update c i :
  connectorAt (updateConnectorStyles c) i
  = option_map
      (styleConnector (executionPath c)
                      (connectorStatusMap (pathHighlights c))
                      (endConnectorIndex c) i)
      (connectorAt c i).
Proof.
  unfold connectorAt, updateConnectorStyles.
  cbn [connectorEls with_connectorEls].
  apply (at_index_map_indexed _ _
           (styleConnector (executionPath c)
                           (connectorStatusMap (pathHighlights c))
                           (endConnectorIndex c))).
Qed.

Lemma includes_In (l : list Z) (i : Z) : JS.includes l i = true <-> In i l.
Proof.
  unfold JS.includes. rewrite existsb_exists. split.
  - intros (x & Hx & E). apply Z.eqb_eq in E. now subst.
  - intros H. exists i. split; [exact H | apply Z.eqb_refl].
Qed.

Lemma hasLegacy_includes (path : list Z) (i : Z) :
  (0 <? JS.length path) && JS.includes path i = JS.includes path i.
Proof.
  destruct path as [|x rest]; [reflexivity|].
  unfold JS.length. cbn [List.length].
  replace (0 <? Z.of_nat (S (List.length rest))) with true; [reflexivity|].
  symmetry. apply Z.ltb_lt. lia.
Qed.

Lemma legacy_flag (path : list Z) (e i : Z) :
  negb ((0 <=? e) && (e <? i)) && (0 <? JS.length path)
    && JS.includes path i && (0 <? JS.length path)
  = legacyFlag path e i.
Proof.
  unfold legacyFlag.
  rewrite <- (hasLegacy_includes path i).
  destruct (negb _), (0 <? JS.length path), (JS.includes path i);
    reflexivity.
Qed.


(** The line that shows the highlights, after the styling: cleared on a
    plain connector after the end badge, else styled with the statuses
    of the connector. *)
Lemma shownLine_style path m e i el :
  shownLine (styleConnector path m e i el)
  = match el with
    | Plain line =>
        if (0 <=? e) && (e <? i) then clearPathHighlightStyles line
        else applyPathHighlightStyles line (statusMap_get m i)
                                      (legacyFlag path e i)
    | Badged _ _ _ =>
        applyPathHighlightStyles (shownLine el) (statusMap_get m i)
                                 (legacyFlag path e i)
    end.
Proof.
  unfold styleConnector. rewrite legacy_flag.
  destruct el as [line | [|] above below]; cbn [shownLine];
    [|reflexivity|reflexivity].
  destruct ((0 <=? e) && (e <? i)); reflexivity.
Qed.


End ConnectorFacts.

(* ================================================================== *)
(** * FlowCanvas: the object built by [setPathHighlights] *)
(* ================================================================== *)

Module ScenarioFacts.

Import FlowCanvas.
Local Open Scope string_scope.
Local Open Scope list_scope.
Local Open Scope Z_scope.

Section ObjSet.
Variable V : Type.

Lemma obj_set_keys (o : list (string * V)) (k : string) (v : V) :
  map fst (JS.obj_set o k v)
  = if JS.contains (map fst o) k then map fst o else map fst o ++ [k].
Proof.
  induction o as [|[k' v'] rest IH]; cbn [JS.obj_set map fst]; [reflexivity|].
  unfold JS.contains in *. cbn [existsb]. rewrite (String.eqb_sym k k').
  destruct (String.eqb_spec k' k) as [-> | Hne]; cbn [orb map fst].
  - reflexivity.
  - rewrite IH. destruct (existsb (String.eqb k) (map fst rest));
      reflexivity.
Qed.

Lemma obj_set_NoDup (o : list (string * V)) (k : string) (v : V) :
  NoDup (map fst o) -> NoDup (map fst (JS.obj_set o k v)).
Proof.
  intros Hnd. rewrite obj_set_keys.
  destruct (JS.contains (map fst o) k) eqn:E; [exact Hnd|].
  apply LineFacts.contains_false in E.
  apply NoDup_app; [exact Hnd | repeat constructor; intros [] |].
  intros x Hx [<- | []]. contradiction.
Qed.

(** With distinct keys, the entries after [o[k0] = v0] are the new entry
    and the old entries under the other keys. *)
Lemma obj_set_In (o : list (string * V)) (k0 : string) (v0 : V) :
  NoDup (map fst o) ->
  forall k v,
    In (k, v) (JS.obj_set o k0 v0)
    <-> (k = k0 /\ v = v0) \/ (k <> k0 /\ In (k, v) o).
Proof.
  induction o as [|[k' v'] rest IH]; intros Hnd k v;
    cbn [JS.obj_set map fst] in *.
  - cbn. intuition congruence.
  - inversion Hnd as [|? ? Hnin Hnd']; subst.
    destruct (String.eqb_spec k' k0) as [-> | Hne]; cbn [In].
    + split.
      * intros [E | Hin]; [injection E as <- <-; tauto|].
        right. split; [|tauto]. intros ->.
        apply Hnin. apply (in_map fst) in Hin. exact Hin.
      * intros [[-> ->] | [Hk [E | Hin]]]; [tauto | | tauto].
        injection E as <- <-. congruence.
    + rewrite (IH Hnd'). split.
      * intros [E | [[-> ->] | [Hk Hin]]]; [|tauto|tauto].
        injection E as <- <-. tauto.
      * intros [[-> ->] | [Hk [E | Hin]]]; tauto.
Qed.
End ObjSet.

Lemma keptScenario_test (sc : Scenario.t) :
  negb (String.eqb (Scenario.scenarioId sc) "")
  && (0 <? JS.length (Scenario.connectors sc)) = true
  <-> keptScenario sc.
Proof.
  unfold keptScenario, JS.length.
  rewrite andb_true_iff, negb_true_iff, String.eqb_neq, Z.ltb_lt.
  destruct (Scenario.connectors sc); cbn [List.length]; split;
    intros [H1 H2]; split; try assumption; try lia; congruence.
Qed.

(** What [setPathHighlights] stores for a kept scenario. *)
Lemma addScenario_kept c hs sc :
  keptScenario sc ->
  addScenario c hs sc
  = JS.obj_set hs (Scenario.scenarioId sc)
      {| status := statusOrNotRun sc;
         connectors :=
           filterConnectorsByTestScope c (Scenario.connectors sc) |}.
Proof.
  intros H. unfold addScenario.
  now rewrite (proj2 (keptScenario_test sc) H).
Qed.

Lemma addScenario_skipped c hs sc :
  ~ keptScenario sc -> addScenario c hs sc = hs.
Proof.
  intros H. unfold addScenario.
  destruct (negb _ && _) eqn:E; [|reflexivity].
  exfalso. now apply H, keptScenario_test.
Qed.

Lemma keptScenario_dec (sc : Scenario.t) :
  keptScenario sc \/ ~ keptScenario sc.
Proof.
  destruct (negb (String.eqb (Scenario.scenarioId sc) "")
            && (0 <? JS.length (Scenario.connectors sc))) eqn:E.
  - left. now apply keptScenario_test.
  - right. intros H. apply keptScenario_test in H. congruence.
Qed.

Lemma addScenario_NoDup c hs sc :
  NoDup (map fst hs) -> NoDup (map fst (addScenario c hs sc)).
Proof.
  intros H. destruct (keptScenario_dec sc) as [Hk | Hk].
  - rewrite (addScenario_kept c hs sc Hk). now apply obj_set_NoDup.
  - now rewrite (addScenario_skipped c hs sc Hk).
Qed.

Lemma lastKept_cons (sc0 : Scenario.t) (rest : list Scenario.t)
      (sc : Scenario.t) :
  lastKept (sc0 :: rest) sc
  <-> (sc = sc0 /\ keptScenario sc0
       /\ forall sc', In sc' rest -> keptScenario sc' ->
                      Scenario.scenarioId sc' <> Scenario.scenarioId sc0)
      \/ lastKept rest sc.
Proof.
  unfold lastKept. split.
  - intros (pre & post & Heq & Hk & Hlast). destruct pre as [|p pre].
    + cbn in Heq. injection Heq as -> ->. left. tauto.
    + cbn in Heq. injection Heq as -> ->. right. now exists pre, post.
  - intros [(-> & Hk & Hlast) | (pre & post & -> & Hk & Hlast)].
    + now exists [], rest.
    + now exists (sc0 :: pre), post.
Qed.

(** The entries of the object after the loop of [setPathHighlights]. *)
Lemma fold_addScenario_In c (scs : list Scenario.t) :
  forall hs k h,
    NoDup (map fst hs) ->
    (In (k, h) (fold_left (addScenario c) scs hs)
     <-> (exists sc,
             lastKept scs sc /\ k = Scenario.scenarioId sc
             /\ h = {| status := statusOrNotRun sc;
                       connectors :=
                         filterConnectorsByTestScope
                           c (Scenario.connectors sc) |})
         \/ (In (k, h) hs
             /\ forall sc, In sc scs -> keptScenario sc ->
                           Scenario.scenarioId sc <> k)).
Proof.
  induction scs as [|sc0 rest IH]; intros hs k h Hnd; cbn [fold_left].
  - split.
    + intros H. right. split; [exact H | intros sc []].
    + intros [(sc & (pre & post & Heq & _) & _) | [H _]]; [|exact H].
      destruct pre; discriminate.
  - rewrite (IH _ k h (addScenario_NoDup c hs sc0 Hnd)).
    destruct (keptScenario_dec sc0) as [Hk | Hk].
    + rewrite (addScenario_kept c hs sc0 Hk), (obj_set_In _ _ _ _ Hnd).
      split.
      * intros [(sc & Hl & Hrest) | [[[-> ->] | [Hne Hin]] Hnone]].
        -- left. exists sc. split; [|exact Hrest].
           apply lastKept_cons. now right.
        -- left. exists sc0. split; [|split; reflexivity].
           apply lastKept_cons. left. split; [reflexivity|].
           split; [exact Hk | exact Hnone].
        -- right. split; [exact Hin|].
           intros sc [<- | Hsc] Hkept; [congruence | now apply Hnone].
      * intros [(sc & Hl & Hid & Hh) | [Hin Hnone]].
        -- apply lastKept_cons in Hl.
           destruct Hl as [(-> & _ & Hlast) | Hl].
           ++ right. split; [left; split; assumption|].
              intros sc Hsc Hkept. rewrite Hid. now apply Hlast.
           ++ left. now exists sc.
        -- right. split.
           ++ right. split; [|exact Hin].
              intros ->. apply (Hnone sc0); [now left | exact Hk | reflexivity].
           ++ intros sc Hsc. apply Hnone. now right.
    + rewrite (addScenario_skipped c hs sc0 Hk). split.
      * intros [(sc & Hl & Hrest) | [Hin Hnone]].
        -- left. exists sc. split; [|exact Hrest].
           apply lastKept_cons. now right.
        -- right. split; [exact Hin|].
           intros sc [<- | Hsc] Hkept; [contradiction | now apply Hnone].
      * intros [(sc & Hl & Hrest) | [Hin Hnone]].
        -- apply lastKept_cons in Hl.
           destruct Hl as [(-> & Hk' & _) | Hl]; [contradiction|].
           left. now exists sc.
        -- right. split; [exact Hin|].
           intros sc Hsc. apply Hnone. now right.
Qed.

Lemma filterConnectorsByTestScope_In c (l : list Z) (i : Z) :
  In i (filterConnectorsByTestScope c l) <-> In i l /\ inBadgeScope c i.
Proof.
  unfold filterConnectorsByTestScope, inBadgeScope.
  destruct (Z.leb_spec 0 (startConnectorIndex c));
    destruct (Z.leb_spec 0 (endConnectorIndex c));
    repeat rewrite filter_In; repeat rewrite Z.leb_le; intuition lia.
Qed.

Lemma pathHighlights_set (scs : list Scenario.t) c :
  pathHighlights (setPathHighlights scs c)
  = fold_left (addScenario c) scs [].
Proof. reflexivity. Qed.

(** The statuses that touch connector [i] after [setPathHighlights]:
    those of the scenarios that stay in the object and name [i], when
    [i] is inside the scope of the badges. *)
Lemma contributes_set (scs : list Scenario.t) c (i : Z) (s : Status) :
  contributes (pathHighlights (setPathHighlights scs c)) i s
  <-> exists sc,
      lastKept scs sc /\ In i (Scenario.connectors sc)
      /\ inBadgeScope c i /\ statusOrNotRun sc = s.
Proof.
  rewrite pathHighlights_set. unfold contributes. split.
  - intros (k & h & Hin & Hi & Hs).
    apply fold_addScenario_In in Hin; [|constructor].
    destruct Hin as [(sc & Hl & _ & ->) | [[] _]].
    cbn [connectors status] in *.
    apply filterConnectorsByTestScope_In in Hi.
    exists sc. tauto.
  - intros (sc & Hl & Hi & Hscope & Hs).
    exists (Scenario.scenarioId sc),
      {| status := statusOrNotRun sc;
         connectors :=
           filterConnectorsByTestScope c (Scenario.connectors sc) |}.
    split; [|split; [|exact Hs]].
    + apply fold_addScenario_In; [constructor|]. left. now exists sc.
    + cbn [connectors]. apply filterConnectorsByTestScope_In. tauto.
Qed.

End ScenarioFacts.

(* ================================================================== *)
(** * FlowCanvas: scenario highlights and the legacy execution path *)
(* ================================================================== *)

Module HighlightProps.

Import FlowCanvas.
Import LineFacts ConnectorFacts.
Local Open Scope string_scope.
Local Open Scope list_scope.
Local Open Scope Z_scope.







(* ------------------------------------------------------------------ *)
(** ** The order of the scenarios *)

Lemma lastKept_distinct (scs : list Scenario.t) (sc : Scenario.t) :
  NoDup (map Scenario.scenarioId scs) ->
  (lastKept scs sc <-> In sc scs /\ keptScenario sc).
Proof.
  intros Hnd. unfold lastKept. split.
  - intros (pre & post & -> & Hk & _). split; [|exact Hk].
    apply in_or_app. right. now left.
  - intros [Hin Hk]. apply in_split in Hin.
    destruct Hin as (pre & post & ->).
    exists pre, post. split; [reflexivity|]. split; [exact Hk|].
    intros sc' Hin' _ Heq.
    rewrite map_app in Hnd. cbn [map] in Hnd.
    apply NoDup_remove_2 in Hnd. apply Hnd.
    apply in_or_app. right. rewrite <- Heq. now apply in_map.
Qed.

Lemma sort_length (l : list Status) :
  List.length (sort l) = List.length l.
Proof.
  assert (Hins : forall s u,
             List.length (sort_insert s u) = S (List.length u)).
  { intros s u. induction u as [|x u IH]; cbn [sort_insert];
      [reflexivity|].
    destruct (status_leb s x); cbn [List.length]; [reflexivity|].
    now rewrite IH. }
  unfold sort. induction l as [|x l IH]; cbn [fold_right]; [reflexivity|].
  rewrite Hins, IH. reflexivity.
Qed.

Lemma severalStatuses_length (st : list Status) :
  severalStatuses st = (2 <=? List.length (sort (Set_of st)))%nat.
Proof.
  rewrite sort_length. unfold severalStatuses.
  destruct st as [|s0 rest]; [reflexivity|].
  pose proof (Set_of_nonempty s0 rest) as Hne.
  destruct (Set_of (s0 :: rest)) as [|a [|b u]]; [congruence | |];
    reflexivity.
Qed.

(** Lists of statuses with the same members are styled alike, up to the
    order of the classes. *)
Lemma apply_same_members (l : Line) (st1 st2 : list Status) (flag : bool) :
  (forall s, In s st1 <-> In s st2) ->
  (forall t, hasClass (applyPathHighlightStyles l st1 flag) t
             <-> hasClass (applyPathHighlightStyles l st2 flag) t)
  /\ pathStatuses (applyPathHighlightStyles l st1 flag)
     = pathStatuses (applyPathHighlightStyles l st2 flag).
Proof.
  intros Hsame.
  assert (Hsort : sort (Set_of st1) = sort (Set_of st2))
    by now apply sort_Set_of_same.
  assert (Hnil : st1 = [] <-> st2 = []).
  { split; intros ->.
    - destruct st2 as [|s r]; [reflexivity|].
      exfalso. apply (Hsame s). now left.
    - destruct st1 as [|s r]; [reflexivity|].
      exfalso. apply (Hsame s). now left. }
  split.
  - intros t. rewrite !apply_classes_In.
    assert (Hadded : In t (addedClasses st1 flag)
                     <-> In t (addedClasses st2 flag)).
    { destruct (isHighlightClass t) eqn:Ht.
      - rewrite <- !(apply_highlight_In l _ flag t Ht).
        unfold isHighlightClass in Ht. apply contains_In in Ht.
        destruct Ht as [<- | [<- | [<- | [<- | [<- | [<- | []]]]]]].
        + change "flow-connector-line-executed" with executedClass.
          rewrite !apply_executedClass. tauto.
        + change "flow-connector-line-passed" with (statusClass passed).
          rewrite !apply_statusClass. apply Hsame.
        + change "flow-connector-line-failed" with (statusClass failed).
          rewrite !apply_statusClass. apply Hsame.
        + change "flow-connector-line-error" with (statusClass error).
          rewrite !apply_statusClass. apply Hsame.
        + change "flow-connector-line-not-run" with (statusClass not_run).
          rewrite !apply_statusClass. apply Hsame.
        + change "flow-connector-line-multi" with multiClass.
          rewrite !apply_several, <- (sort_length (Set_of st1)),
            <- (sort_length (Set_of st2)), Hsort. tauto.
      - split; intros H; apply addedClasses_highlight in H; congruence. }
    tauto.
  - rewrite !apply_pathStatuses, !severalStatuses_length, Hsort.
    reflexivity.
Qed.

(** X10.  [setPathHighlights] does not depend on the order of the
    scenarios:
    for two lists with distinct ids that are permutations of each other,
    every connector gets the same classes on its line and the same
    status key. *)
Lemma setPathHighlights_order (scs1 scs2 : list Scenario.t) c i el :
  Permutation scs1 scs2 ->
  NoDup (map Scenario.scenarioId scs1) ->
  connectorAt c i = Some el ->
  exists el1 el2,
    connectorAt (setPathHighlights scs1 c) i = Some el1
    /\ connectorAt (setPathHighlights scs2 c) i = Some el2
    /\ (forall t, hasClass (shownLine el1) t <-> hasClass (shownLine el2) t)
    /\ pathStatuses (shownLine el1) = pathStatuses (shownLine el2).
Proof.
  intros Hperm Hnd1 Hel.
  assert (Hnd2 : NoDup (map Scenario.scenarioId scs2)).
  { eapply Permutation_NoDup; [|exact Hnd1]. now apply Permutation_map. }
  assert (Hsame : forall s,
             In s (statusesAt (pathHighlights (setPathHighlights scs1 c)) i)
             <-> In s (statusesAt
                         (pathHighlights (setPathHighlights scs2 c)) i)).
  { intros s. rewrite !statusesAt_In, !ScenarioFacts.contributes_set.
    split; intros (sc & Hl & Hrest); exists sc; (split; [|exact Hrest]).
    - apply lastKept_distinct in Hl; [|exact Hnd1].
      apply lastKept_distinct; [exact Hnd2|].
      destruct Hl as [Hin Hk]. split; [|exact Hk].
      eapply Permutation_in; eassumption.
    - apply lastKept_distinct in Hl; [|exact Hnd2].
      apply lastKept_distinct; [exact Hnd1|].
      destruct Hl as [Hin Hk]. split; [|exact Hk].
      eapply Permutation_in; [apply Permutation_sym|]; eassumption. }
  set (c1 := with_pathHighlights (fold_left (addScenario c) scs1 []) c).
  set (c2 := with_pathHighlights (fold_left (addScenario c) scs2 []) c).
  change (setPathHighlights scs1 c) with (updateConnectorStyles c1) in *.
  change (setPathHighlights scs2 c) with (updateConnectorStyles c2) in *.
  rewrite !connectorAt_update.
  change (connectorAt c1 i) with (connectorAt c i).
  change (connectorAt c2 i) with (connectorAt c i).
  rewrite Hel. cbn [option_map]. eexists _, _.
  split; [reflexivity|]. split; [reflexivity|].
  rewrite !shownLine_style, !connectorStatusMap_get.
  change (executionPath c2) with (executionPath c1).
  change (endConnectorIndex c2) with (endConnectorIndex c1).
  change (pathHighlights (updateConnectorStyles c1))
    with (pathHighlights c1) in Hsame.
  change (pathHighlights (updateConnectorStyles c2))
    with (pathHighlights c2) in Hsame.
  destruct el as [line | b above below].
  - destruct ((0 <=? endConnectorIndex c1) && (endConnectorIndex c1 <? i)).
    + split; [tauto | reflexivity].
    + now apply apply_same_members.
  - now apply apply_same_members.
Qed.

(** The example: the two scenarios of the example in both orders, on
    connector 2, which both touch. *)
Lemma setPathHighlights_order_witness :
  exists el1 el2,
    connectorAt (setPathHighlights [scenarioA; scenarioB] (new None test)) 2
    = Some el1
    /\ connectorAt
         (setPathHighlights [scenarioB; scenarioA] (new None test)) 2
       = Some el2
    /\ (forall t, hasClass (shownLine el1) t <-> hasClass (shownLine el2) t)
    /\ pathStatuses (shownLine el1) = pathStatuses (shownLine el2).
Proof.
  refine (setPathHighlights_order
            [scenarioA; scenarioB] [scenarioB; scenarioA]
            (new None test) 2 _ _ _ _).
  - apply perm_swap.
  - cbn. repeat constructor; cbn; intuition discriminate.
  - vm_compute. reflexivity.
Defined.

(* ------------------------------------------------------------------ *)
(** ** The legacy execution path under scenario highlights *)






(** The styling does not look at the start badge.  With the start point
    on [update-case] the connector with the start badge is connector 1;
    [setExecutionPath([0, 1, 2, 3])] keeps connector 0 in the path, and
    the styling renders it with the class of the legacy execution path,
    although it lies before the scope and [filterConnectorsByTestScope]
    would drop it from a highlight. *)
Remark legacy_executed_before_start :
  let c := testRun [op_setTestStartPoint "update-case";
                    op_setExecutionPath [0; 1; 2; 3]] (new None test) in
  startConnectorIndex c = 1
  /\ ~ inBadgeScope c 0
  /\ exists el,
      connectorAt c 0 = Some el
      /\ hasClass (shownLine el) executedClass.
Proof.
  cbv zeta. split; [vm_compute; reflexivity|]. split.
  - intros [[H | H] _]; vm_compute in H; [discriminate H | now apply H].
  - eexists. split; [vm_compute; reflexivity|].
    unfold hasClass. cbn. tauto.
Qed.

(* ------------------------------------------------------------------ *)
(** ** Setting the highlights twice *)

Lemma styleConnector_idempotent path m e i el :
  styleConnector path m e i (styleConnector path m e i el)
  = styleConnector path m e i el.
Proof.
  unfold styleConnector.
  destruct el as [line | [|] above below].
  - destruct ((0 <=? e) && (e <? i)).
    + now rewrite clear_idempotent.
    + now rewrite apply_idempotent.
  - now rewrite clear_idempotent, apply_idempotent.
  - now rewrite clear_idempotent, apply_idempotent.
Qed.

Lemma style_all_idempotent path m e (els : list ConnectorEl) : forall k,
  map (fun ie => styleConnector path m e (fst ie) (snd ie))
      (JS.indexed_from k
         (map (fun ie => styleConnector path m e (fst ie) (snd ie))
              (JS.indexed_from k els)))
  = map (fun ie => styleConnector path m e (fst ie) (snd ie))
        (JS.indexed_from k els).
Proof.
  induction els as [|el rest IH]; intros k;
    cbn [JS.indexed_from map fst snd]; [reflexivity|].
  now rewrite styleConnector_idempotent, IH.
Qed.

(** Styling the connectors a second time changes nothing. *)
Lemma updateConnectorStyles_idempotent c :
  updateConnectorStyles (updateConnectorStyles c) = updateConnectorStyles c.
Proof.
  unfold updateConnectorStyles at 1.
  rewrite updateConnectorStyles_end.
  unfold updateConnectorStyles.
  cbn [connectorEls with_connectorEls executionPath pathHighlights].
  unfold with_connectorEls. cbn. f_equal.
  apply style_all_idempotent.
Qed.

(** The scope filter reads the badges only. *)
Lemma addScenario_badges c1 c2 hs sc :
  findBadges (connectorEls c1) = findBadges (connectorEls c2) ->
  addScenario c1 hs sc = addScenario c2 hs sc.
Proof.
  intros H. unfold addScenario, filterConnectorsByTestScope,
    startConnectorIndex, endConnectorIndex. now rewrite H.
Qed.

Lemma fold_addScenario_badges c1 c2 (scs : list Scenario.t) :
  findBadges (connectorEls c1) = findBadges (connectorEls c2) ->
  forall hs,
    fold_left (addScenario c1) scs hs = fold_left (addScenario c2) scs hs.
Proof.
  intros H. induction scs as [|sc scs IH]; intros hs; cbn [fold_left];
    [reflexivity|].
  now rewrite IH, (addScenario_badges c1 c2 hs sc H).
Qed.

Lemma with_pathHighlights_same c :
  with_pathHighlights (pathHighlights c) c = c.
Proof. destruct c. reflexivity. Qed.

(** C9.  [setPathHighlights] is idempotent: called a second time with
    the same list, the graph and the scope untouched in between, it
    leaves the canvas (the [pathHighlights] object and the styles of
    every connector line) as the first call left it. *)
Theorem setPathHighlights_idempotent
        (scenarioHighlights : list Scenario.t) (c : Canvas) :
  setPathHighlights scenarioHighlights
                    (setPathHighlights scenarioHighlights c)
  = setPathHighlights scenarioHighlights c.
Proof.
  unfold setPathHighlights at 1.
  rewrite (fold_addScenario_badges
             (setPathHighlights scenarioHighlights c) c scenarioHighlights).
  - unfold setPathHighlights.
    set (c0 := with_pathHighlights _ c).
    replace (with_pathHighlights _ (updateConnectorStyles c0))
      with (updateConnectorStyles c0).
    + apply updateConnectorStyles_idempotent.
    + symmetry. apply (with_pathHighlights_same (updateConnectorStyles c0)).
  - unfold setPathHighlights. now rewrite updateConnectorStyles_badges.
Qed.

(* ------------------------------------------------------------------ *)
(** ** The execution path next to the end point *)

(** C7 (fails on the code).  In the default graph the end point is set
    on [create-task] and then the start point on [update-case], the node
    right after it.  Connector 1, whose upper node is the end point, is
    rendered with the start badge and no connector carries the end
    badge, so that [setExecutionPath([0, 1, 2, 3])] trims nothing:
    connectors 1, 2 and 3 stay in the execution path, the line below
    the badge of connector 1 and the lines of connectors 2 and 3, which
    lie after the end point, are rendered as executed. *)
Theorem executed_after_end_point :
  let c := setExecutionPath
             [0; 1; 2; 3]
             (setTestStartPoint
                "update-case"
                (setTestEndPoint "create-task" (new None test))) in
  testEndPoint c = Some "create-task"
  /\ nodeIndex c "create-task" = 1
  /\ endConnectorIndex c = -1
  /\ executionPath c = [0; 1; 2; 3]
  /\ (exists above below,
        connectorAt c 1 = Some (Badged badge_start above below)
        /\ hasClass below executedClass)
  /\ (exists line, connectorAt c 2 = Some (Plain line)
                   /\ hasClass line executedClass)
  /\ (exists line, connectorAt c 3 = Some (Plain line)
                   /\ hasClass line executedClass).
Proof.
  cbv zeta.
  split; [reflexivity|]. split; [reflexivity|]. split; [reflexivity|].
  split; [reflexivity|].
  split; [|split].
  - eexists _, _. split; [vm_compute; reflexivity|].
    unfold hasClass. cbn. tauto.
  - eexists. split; [vm_compute; reflexivity|].
    unfold hasClass. cbn. tauto.
  - eexists. split; [vm_compute; reflexivity|].
    unfold hasClass. cbn. tauto.
Qed.

(** The same end point is uncovered by [clearTestStartPoint()], which
    keeps the execution path: connector 1 then carries the end badge,
    is still in the execution path, and its line above the badge is
    rendered as executed. *)
Lemma executed_on_end_connector :
  let c := clearTestStartPoint
             (setExecutionPath
                [0; 1; 2; 3]
                (setTestStartPoint
                   "update-case"
                   (setTestEndPoint "create-task" (new None test)))) in
  endConnectorIndex c = 1
  /\ In 1 (executionPath c)
  /\ exists above below,
      connectorAt c 1 = Some (Badged badge_end above below)
      /\ hasClass above executedClass.
Proof.
  cbv zeta. split; [reflexivity|]. split; [vm_compute; tauto|].
  eexists _, _. split; [vm_compute; reflexivity|].
  unfold hasClass. cbn. tauto.
Qed.

End HighlightProps.

(* ================================================================== *)
(** * FlowCanvas: the execution path stops at the end badge *)
(* ================================================================== *)

Module EndBadgeProps.

Import FlowCanvas.
Import LineFacts ConnectorFacts.
Local Open Scope string_scope.
Local Open Scope list_scope.
Local Open Scope Z_scope.

(** ** The connector that [endConnectorIndex] names *)



(** ** What a trimmed canvas shows from the end badge on *)




(** ** The operations keep the canvas trimmed *)

Lemma clean_line_clear (cl : list string) :
  (forall t, In t cl -> isHighlightClass t = false) ->
  clearPathHighlightStyles {| classList := cl; pathStatuses := None |}
  = {| classList := cl; pathStatuses := None |}.
Proof.
  intros H. apply line_ext; [|reflexivity].
  rewrite clear_classList. cbn [classList].
  induction cl as [|t rest IH]; [reflexivity|].
  cbn [filter]. rewrite (H t (or_introl eq_refl)). cbn [negb].
  f_equal. apply IH. intros u Hu. apply H. now right.
Qed.












End EndBadgeProps.

(* ================================================================== *)
(** * The rendered connectors follow the nodes and the bounds *)
(* ================================================================== *)

Module SyncProps.

Import FlowCanvas CanvasEdit.
Import ConnectorFacts.
Local Open Scope string_scope.
Local Open Scope list_scope.
Local Open Scope Z_scope.


















Lemma strict_eq_Some (v : option string) (s : string) :
  JS.strict_eq v s = true <-> v = Some s.
Proof.
  destruct v as [t|]; cbn [JS.strict_eq]; [|split; discriminate].
  rewrite String.eqb_eq. split; congruence.
Qed.





End SyncProps.

(* ================================================================== *)
(** * The badges in the index space of the connectors *)
(* ================================================================== *)

Module BadgeIndexProps.

Import FlowCanvas CanvasEdit.
Import ConnectorFacts SyncProps.
Local Open Scope string_scope.
Local Open Scope list_scope.
Local Open Scope Z_scope.









End BadgeIndexProps.

(* ================================================================== *)
(** * The scope and the nodes shown out of scope *)
(* ================================================================== *)

Module ScopeStyleProps.

Import FlowCanvas CanvasEdit.
Local Open Scope string_scope.
Local Open Scope list_scope.
Local Open Scope Z_scope.





(** ** Bounds that name no node *)

Lemma findIndex_from_filtered (x : string) (ns : list Node) : forall i,
  JS.findIndex_from (fun n => String.eqb (id n) x)
                    (filter (fun n => negb (String.eqb (id n) x)) ns) i
  = -1.
Proof.
  induction ns as [|n rest IH]; intros i; cbn [filter]; [reflexivity|].
  destruct (String.eqb (id n) x) eqn:E; cbn [negb]; [apply IH|].
  cbn [JS.findIndex_from]. rewrite E. apply IH.
Qed.

Lemma getTestScope_congr c1 c2 :
  nodes c1 = nodes c2 -> testStartPoint c1 = testStartPoint c2 ->
  testEndPoint c1 = testEndPoint c2 ->
  getTestScope c1 = getTestScope c2.
Proof.
  intros Hn Hs He. unfold getTestScope, boundIndex, nodeIndex.
  now rewrite Hn, Hs, He.
Qed.

Lemma isOutOfScope_congr c1 c2 n :
  nodes c1 = nodes c2 -> testStartPoint c1 = testStartPoint c2 ->
  testEndPoint c1 = testEndPoint c2 ->
  isOutOfScope c1 n = isOutOfScope c2 n.
Proof.
  intros Hn Hs He. unfold isOutOfScope, boundIndex, nodeIndex.
  now rewrite Hn, Hs, He.
Qed.

Lemma removeNode_nodes nodeId c :
  nodes (removeNode nodeId c)
  = filter (fun n => negb (String.eqb (id n) nodeId)) (nodes c).
Proof.
  unfold removeNode. cbn [with_nodes nodes selectedNodeId].
  destruct (JS.strict_eq (selectedNodeId c) nodeId); reflexivity.
Qed.

Lemma removeNode_bounds nodeId c :
  testStartPoint (removeNode nodeId c) = testStartPoint c
  /\ testEndPoint (removeNode nodeId c) = testEndPoint c.
Proof.
  unfold removeNode. cbn [with_nodes nodes selectedNodeId].
  destruct (JS.strict_eq (selectedNodeId c) nodeId); split; reflexivity.
Qed.

Lemma slice_to_zero (A : Type) (arr : list A) (start : Z) :
  JS.slice arr start 0 = [].
Proof.
  unfold JS.slice, JS.relative_index, JS.length.
  change (0 <? 0) with false. cbv iota.
  destruct (Z.ltb_spec start 0);
    match goal with
    | |- firstn ?n _ = _ => replace n with 0%nat by lia
    end; reflexivity.
Qed.

Lemma slice_last (A : Type) (arr : list A) :
  JS.slice arr (-1) (JS.length arr)
  = match rev arr with
    | [] => []
    | x :: _ => [x]
    end.
Proof.
  unfold JS.slice, JS.relative_index, JS.length.
  change (-1 <? 0) with true. cbv iota.
  destruct (rev arr) as [|x r] eqn:Hr.
  - assert (arr = []) by (rewrite <- (rev_involutive arr), Hr; reflexivity).
    subst arr. reflexivity.
  - assert (Harr : arr = rev r ++ [x])
      by (rewrite <- (rev_involutive arr), Hr; reflexivity).
    rewrite Harr, length_app. cbn [List.length].
    destruct (Z.ltb_spec (Z.of_nat (List.length (rev r) + 1)) 0); [lia|].
    replace (Z.to_nat (Z.max (Z.of_nat (List.length (rev r) + 1) + -1) 0))
      with (List.length (rev r)) by lia.
    rewrite skipn_app, skipn_all, Nat.sub_diag. cbn [skipn app].
    match goal with
    | |- firstn ?n _ = _ => replace n with 1%nat by lia
    end.
    reflexivity.
Qed.

(** X4.  [removeNode] leaves the start and end point as they are.
    After the node that is the end point has been removed, the end
    point names no node and [getTestScope()] returns no id at all,
    wherever the start point is. *)
Theorem removed_end_point_empties_scope (c : Canvas) (e : string)
        (He : testEndPoint c = Some e) (Hne : e <> "") :
  testEndPoint (removeNode e c) = Some e
  /\ nodeIndex (removeNode e c) e = -1
  /\ getTestScope (removeNode e c) = [].
Proof.
  destruct (removeNode_bounds e c) as [Hs' He'].
  assert (Hidx : nodeIndex (removeNode e c) e = -1).
  { unfold nodeIndex, JS.findIndex. rewrite removeNode_nodes.
    apply findIndex_from_filtered. }
  split; [congruence|]. split; [exact Hidx|].
  unfold getTestScope. rewrite He', He.
  assert (Ht : JS.truthy (Some e) = true).
  { cbn [JS.truthy]. apply negb_true_iff, String.eqb_neq, Hne. }
  rewrite Ht, andb_false_r. unfold boundIndex at 2. rewrite Ht, Hidx.
  cbn [Z.add]. now rewrite slice_to_zero.
Qed.

Lemma removed_end_point_empties_scope_witness :
  getTestScope
    (removeNode "update-case"
       (setTestEndPoint "update-case" (new None test))) = [].
Proof.
  apply (removed_end_point_empties_scope
           (setTestEndPoint "update-case" (new None test)) "update-case").
  - reflexivity.
  - discriminate.
Defined.

(** X5.  After the node that is the start point has been removed, with
    no end point set, [getTestScope()] returns the id of the last node
    only ([slice(-1, length)]), while no node is marked as out of
    scope. *)
Theorem removed_start_point_scope (c : Canvas) (s : string)
        (Hs : testStartPoint c = Some s) (Hne : s <> "")
        (He : JS.truthy (testEndPoint c) = false) :
  getTestScope (removeNode s c)
  = match rev (nodes (removeNode s c)) with
    | [] => []
    | n :: _ => [id n]
    end
  /\ forall n, isOutOfScope (removeNode s c) n = false.
Proof.
  destruct (removeNode_bounds s c) as [Hs' He'].
  assert (Hidx : nodeIndex (removeNode s c) s = -1).
  { unfold nodeIndex, JS.findIndex. rewrite removeNode_nodes.
    apply findIndex_from_filtered. }
  assert (Ht : JS.truthy (Some s) = true).
  { cbn [JS.truthy]. apply negb_true_iff, String.eqb_neq, Hne. }
  assert (Hbe : forall d, boundIndex (removeNode s c) (testEndPoint c) d = d).
  { intros d. unfold boundIndex. destruct (testEndPoint c); [|reflexivity].
    now rewrite He. }
  split.
  - unfold getTestScope. rewrite Hs', He', Hs, He, Ht. cbn [negb andb].
    rewrite Hbe. unfold boundIndex. rewrite Ht, Hidx.
    replace (JS.length (nodes (removeNode s c)) - 1 + 1)
      with (JS.length (nodes (removeNode s c))) by lia.
    rewrite slice_last.
    destruct (rev (nodes (removeNode s c))); reflexivity.
  - intros n. unfold isOutOfScope. rewrite Hs', He', Hs, Hbe.
    unfold boundIndex. rewrite Ht, Hidx. reflexivity.
Qed.

Lemma removed_start_point_scope_witness :
  getTestScope
    (removeNode "create-task"
       (setTestStartPoint "create-task" (new None test))) = ["end"].
Proof.
  apply (removed_start_point_scope
           (setTestStartPoint "create-task" (new None test)) "create-task").
  - reflexivity.
  - discriminate.
  - reflexivity.
Defined.

End ScopeStyleProps.

(* ================================================================== *)
(** * The execution path and the highlights as they are stored *)
(* ================================================================== *)

Module PathProps.

Import FlowCanvas CanvasEdit.
Import LineFacts ConnectorFacts.
Local Open Scope string_scope.
Local Open Scope list_scope.
Local Open Scope Z_scope.

Lemma range_In (lo hi i : Z) : In i (JS.range lo hi) <-> lo <= i < hi.
Proof.
  unfold JS.range. rewrite in_map_iff. split.
  - intros (k & <- & Hk). apply in_seq in Hk. lia.
  - intros H. exists (Z.to_nat (i - lo)). split; [lia|].
    apply in_seq. lia.
Qed.

Lemma push_step_In (e : Z) (path : list Z) (a i : Z) :
  In i (if negb (a =? e) && negb (JS.includes path a)
        then path ++ [a] else path)
  <-> In i path \/ (i = a /\ a <> e).
Proof.
  destruct (Z.eqb_spec a e) as [-> | Hne]; cbn [negb andb].
  - intuition congruence.
  - destruct (JS.includes path a) eqn:E; cbn [negb].
    + apply includes_In in E. intuition congruence.
    + rewrite in_app_iff. cbn [In]. intuition congruence.
Qed.

Lemma push_fold_In (e : Z) (l : list Z) : forall path i,
  In i (fold_left
          (fun path a =>
             if negb (a =? e) && negb (JS.includes path a)
             then path ++ [a] else path) l path)
  <-> In i path \/ (In i l /\ i <> e).
Proof.
  induction l as [|a rest IH]; intros path i; cbn [fold_left].
  - cbn [In]. tauto.
  - rewrite IH, push_step_In. cbn [In]. intuition congruence.
Qed.

Lemma pushMissing_In (e lo hi : Z) (path : list Z) (i : Z) :
  In i (pushMissing e lo hi path)
  <-> In i path \/ (lo <= i < hi /\ i <> e).
Proof. unfold pushMissing. now rewrite push_fold_In, range_In. Qed.

Lemma push_fold_NoDup (e : Z) (l : list Z) : forall path,
  NoDup path ->
  NoDup (fold_left
           (fun path a =>
              if negb (a =? e) && negb (JS.includes path a)
              then path ++ [a] else path) l path).
Proof.
  induction l as [|a rest IH]; intros path Hnd; cbn [fold_left];
    [exact Hnd|].
  apply IH. destruct (negb (a =? e)); cbn [andb]; [|exact Hnd].
  destruct (JS.includes path a) eqn:E; cbn [negb]; [exact Hnd|].
  apply NoDup_app; [exact Hnd | repeat constructor; intros [] |].
  intros x Hx [<- | []].
  apply includes_In in Hx. congruence.
Qed.

Lemma pushMissing_NoDup (e lo hi : Z) (path : list Z) :
  NoDup path -> NoDup (pushMissing e lo hi path).
Proof. apply push_fold_NoDup. Qed.

(** X6.  [setExecutionPath] with an empty array stores the empty path.
    With an array that is not empty, the stored path holds the indices
    given and the connectors between the badges (after the start badge
    up to the end badge or the last connector; before the end badge
    when there is no start badge), and of these only the ones before
    the connector with the end badge when there is one; an array
    without duplicates gives a path without duplicates. *)
Theorem setExecutionPath_members (l : list Z) (c : Canvas)
        (Hl : l <> []) :
  executionPath (setExecutionPath [] c) = []
  /\ (forall i,
        In i (executionPath (setExecutionPath l c))
        <-> (In i l \/ autoFilled c i)
            /\ (0 <= endConnectorIndex c -> i < endConnectorIndex c))
  /\ (NoDup l -> NoDup (executionPath (setExecutionPath l c))).
Proof.
  split; [reflexivity|].
  assert (Hlen : (0 <? JS.length l) = true).
  { apply Z.ltb_lt. unfold JS.length. destruct l; [congruence|].
    cbn [List.length]. lia. }
  unfold setExecutionPath, autoFilled.
  cbn [executionPath updateConnectorStyles with_connectorEls
       with_executionPath].
  rewrite Hlen.
  set (s := startConnectorIndex c). set (e := endConnectorIndex c).
  split.
  - intros i.
    destruct (Z.leb_spec 0 s) as [Hs | Hs];
      destruct (Z.leb_spec 0 e) as [He | He]; cbn [andb];
      try (destruct (Z.ltb_spec s 0) as [Hs' | Hs']; [|try lia]);
      repeat rewrite filter_In; repeat rewrite pushMissing_In;
      rewrite ?Z.ltb_lt, ?negb_true_iff, ?Z.eqb_neq; try lia;
      intuition lia.
  - intros Hnd.
    destruct (0 <=? s); destruct (0 <=? e); cbn [andb];
      try destruct (s <? 0);
      repeat apply NoDup_filter; repeat apply pushMissing_NoDup;
      exact Hnd.
Qed.

Lemma setExecutionPath_members_witness :
  In 2 (executionPath
          (setExecutionPath [1]
             (setTestEndPoint "send-email"
                (setTestStartPoint "create-task" (new None test)))))
  /\ ~ In 3 (executionPath
               (setExecutionPath [1; 3]
                  (setTestEndPoint "send-email"
                     (setTestStartPoint "create-task" (new None test))))).
Proof.
  set (c := setTestEndPoint "send-email"
              (setTestStartPoint "create-task" (new None test))).
  assert (Hs : startConnectorIndex c = 0) by (vm_compute; reflexivity).
  assert (He : endConnectorIndex c = 3) by (vm_compute; reflexivity).
  split.
  - apply (proj1 (proj2 (setExecutionPath_members
                           [1] c ltac:(discriminate)))).
    unfold autoFilled. rewrite Hs, He. cbn. lia.
  - intros H.
    apply (proj1 (proj2 (setExecutionPath_members
                           [1; 3] c ltac:(discriminate)))) in H.
    rewrite He in H. lia.
Defined.

(** ** Highlights removed *)

Lemma obj_delete_iff (hs : list (string * PathHighlight)) (k0 : string)
      (k : string) (h : PathHighlight) :
  In (k, h) (JS.obj_delete hs k0) <-> In (k, h) hs /\ k <> k0.
Proof.
  unfold JS.obj_delete. rewrite filter_In. cbn [fst].
  rewrite negb_true_iff, String.eqb_neq. tauto.
Qed.

Lemma fold_obj_delete_iff (ids : list string) :
  forall (hs : list (string * PathHighlight)) k h,
    In (k, h) (fold_left (@JS.obj_delete PathHighlight) ids hs)
    <-> In (k, h) hs /\ ~ In k ids.
Proof.
  induction ids as [|k0 ids IH]; intros hs k h; cbn [fold_left In].
  - tauto.
  - rewrite IH, obj_delete_iff. intuition congruence.
Qed.

Lemma lastKept_In (scs : list Scenario.t) (sc : Scenario.t) :
  lastKept scs sc -> In sc scs.
Proof.
  intros (pre & post & -> & _). apply in_or_app. right. now left.
Qed.

(** X7.  [clearPathHighlights(ids)] removes exactly the highlights of
    the scenarios named and keeps the others; called without argument
    it removes them all, called with an empty array it removes none;
    the execution path stays as it is.  Removing the ids of all the
    scenarios that [setPathHighlights] was given leaves no highlight. *)
Theorem clearPathHighlights_removes (ids : list string) (c : Canvas)
        (scs : list Scenario.t) :
  (forall k h,
      In (k, h) (pathHighlights (clearPathHighlights (Some ids) c))
      <-> In (k, h) (pathHighlights c) /\ ~ In k ids)
  /\ pathHighlights (clearPathHighlights None c) = []
  /\ pathHighlights (clearPathHighlights (Some []) c) = pathHighlights c
  /\ executionPath (clearPathHighlights (Some ids) c) = executionPath c
  /\ pathHighlights
       (clearPathHighlights (Some (map Scenario.scenarioId scs))
                            (setPathHighlights scs c)) = [].
Proof.
  split; [|split; [|split; [|split]]]; try reflexivity.
  - intros k h. apply fold_obj_delete_iff.
  - match goal with |- ?l = [] => destruct l as [|[k h] rest] eqn:E end;
      [reflexivity|].
    assert (Hin : In (k, h)
                     (pathHighlights
                        (clearPathHighlights
                           (Some (map Scenario.scenarioId scs))
                           (setPathHighlights scs c))))
      by (rewrite E; now left).
    cbn [clearPathHighlights pathHighlights updateConnectorStyles
         with_connectorEls with_pathHighlights] in Hin.
    apply fold_obj_delete_iff in Hin. destruct Hin as [Hin Hno].
    exfalso. apply Hno.
    change (In (k, h) (fold_left (addScenario c) scs [])) in Hin.
    apply ScenarioFacts.fold_addScenario_In in Hin; [|constructor].
    destruct Hin as [(sc & Hl & -> & _) | [[] _]].
    apply in_map, lastKept_In, Hl.
Qed.

End PathProps.

(* ================================================================== *)
(** * The switch between build mode and test mode *)
(* ================================================================== *)

Module ModeProps.

Import FlowCanvas CanvasEdit.
Import LineFacts ConnectorFacts.
Local Open Scope string_scope.
Local Open Scope list_scope.
Local Open Scope Z_scope.





End ModeProps.

(* ================================================================== *)
(** * Nodes added, removed and edited *)
(* ================================================================== *)

Module NodeEditProps.

Import FlowCanvas CanvasEdit.
Local Open Scope string_scope.
Local Open Scope list_scope.
Local Open Scope Z_scope.

Lemma filter_fresh (x : string) (ns : list Node) :
  ~ In x (map id ns) ->
  filter (fun n => negb (String.eqb (id n) x)) ns = ns.
Proof.
  induction ns as [|n rest IH]; cbn [map In filter]; [reflexivity|].
  intros H. destruct (String.eqb_spec (id n) x) as [E | E]; [tauto|].
  cbn [negb]. f_equal. apply IH. tauto.
Qed.

Lemma splice_insert_length (ns : list Node) (start : Z) (n : Node) :
  List.length (splice_insert ns start n) = S (List.length ns).
Proof.
  unfold splice_insert. rewrite length_app. cbn [List.length].
  rewrite Nat.add_succ_r, <- length_app, firstn_skipn. reflexivity.
Qed.

Lemma relative_index_range (len k : Z) :
  0 <= len -> 0 <= JS.relative_index len k <= len.
Proof.
  intros H. unfold JS.relative_index. destruct (k <? 0) eqn:E; [lia|].
  apply Z.ltb_ge in E. lia.
Qed.

(** X11.  [addNode(node, index)] puts the node at position [index + 1],
    brought into the array as [splice] does, and the array grows by
    one.  For a node whose id is new and is not the id of the
    selection, [removeNode] of this id undoes [addNode]: the canvas is
    the one before, rendered again. *)
Theorem addNode_removeNode (n : Node) (index : Z) (c : Canvas)
        (Hfresh : ~ In (id n) (map id (nodes c)))
        (Hsel : selectedNodeId c <> Some (id n)) :
  JS.at_index (nodes (addNode n index c))
              (JS.relative_index (JS.length (nodes c)) (index + 1))
  = Some n
  /\ JS.length (nodes (addNode n index c)) = JS.length (nodes c) + 1
  /\ removeNode (id n) (addNode n index c) = renderNodesOnly c.
Proof.
  assert (Hr := relative_index_range (JS.length (nodes c)) (index + 1)
                  ltac:(unfold JS.length; lia)).
  split; [|split].
  - unfold addNode, renderNodesOnly,
      updateConnectorStyles. cbn [nodes with_connectorEls with_nodes].
    unfold splice_insert, JS.at_index.
    destruct (Z.ltb_spec (JS.relative_index (JS.length (nodes c))
                                            (index + 1)) 0); [lia|].
    set (k := Z.to_nat (JS.relative_index (JS.length (nodes c))
                                          (index + 1))).
    assert (Hk : (k <= List.length (nodes c))%nat)
      by (unfold k, JS.length in *; lia).
    rewrite nth_error_app2 by (rewrite length_firstn; lia).
    rewrite length_firstn.
    replace (k - Nat.min k (List.length (nodes c)))%nat with 0%nat by lia.
    reflexivity.
  - unfold addNode, renderNodesOnly, updateConnectorStyles.
    cbn [nodes with_connectorEls with_nodes]. unfold JS.length.
    rewrite splice_insert_length. lia.
  - unfold removeNode.
    assert (Hn : filter (fun m => negb (String.eqb (id m) (id n)))
                        (nodes (addNode n index c))
                 = nodes c).
    { unfold addNode, renderNodesOnly, updateConnectorStyles.
      cbn [nodes with_connectorEls with_nodes]. unfold splice_insert.
      rewrite filter_app. cbn [filter]. rewrite String.eqb_refl.
      cbn [negb]. rewrite <- filter_app, firstn_skipn.
      now apply filter_fresh. }
    rewrite Hn.
    assert (Hs : JS.strict_eq
                   (selectedNodeId
                      (with_nodes (nodes c) (addNode n index c))) (id n)
                 = false).
    { cbn [selectedNodeId with_nodes addNode renderNodesOnly
           updateConnectorStyles with_connectorEls].
      destruct (selectedNodeId c) as [s|]; cbn [JS.strict_eq];
        [|reflexivity].
      apply String.eqb_neq. congruence. }
    rewrite Hs. reflexivity.
Qed.

Lemma addNode_removeNode_witness :
  removeNode "wait"
    (addNode {| id := "wait"; type := "action"; title := "Wait";
                subtitle := "Action" |} 1 (new None build))
  = renderNodesOnly (new None build).
Proof.
  refine (proj2 (proj2 (addNode_removeNode
                          {| id := "wait"; type := "action";
                             title := "Wait"; subtitle := "Action" |}
                          1 (new None build) _ _))).
  - vm_compute. intuition discriminate.
  - discriminate.
Defined.

(** ** [updateNodeProperty] *)

Section UpdateFirst.
Variable p : Node -> bool.
Variable f : Node -> Node.


End UpdateFirst.



End NodeEditProps.

(* ================================================================== *)
(** * The direction of the zoom steps *)
(* ================================================================== *)

Module ZoomStepProps.

Import FlowCanvas.
Local Open Scope Q_scope.

Lemma zoomIn_level c :
  zoomLevel (zoomIn c)
  = JS.Math_max minZoom (JS.Math_min maxZoom (zoomLevel c * zoomFactor)).
Proof. reflexivity. Qed.

Lemma zoomOut_level c :
  zoomLevel (zoomOut c)
  = JS.Math_max minZoom (JS.Math_min maxZoom (zoomLevel c / zoomFactor)).
Proof. reflexivity. Qed.

(** X13.  For a level within the bounds: [zoomIn] does not lower the
    level and stays at or below [maxZoom], [zoomOut] does not raise it
    and stays at or above [minZoom]; [zoomIn] raises every level below
    [maxZoom] and leaves [maxZoom] as it is, [zoomOut] lowers every
    level above [minZoom] and leaves [minZoom] as it is; both set the
    flag [isZoomManuallyChanged].  Only the order of the levels is
    stated, which the rounding of the doubles keeps; the product and the
    quotient themselves are rounded, and a [zoomOut] after a [zoomIn]
    need not give the level back to the last digit. *)
Theorem zoom_steps_direction (c : Canvas)
        (Hlo : minZoom <= zoomLevel c)
        (Hhi : zoomLevel c <= maxZoom) :
  zoomLevel c <= zoomLevel (zoomIn c) <= maxZoom
  /\ minZoom <= zoomLevel (zoomOut c) <= zoomLevel c
  /\ (zoomLevel c < maxZoom -> zoomLevel c < zoomLevel (zoomIn c))
  /\ (minZoom < zoomLevel c -> zoomLevel (zoomOut c) < zoomLevel c)
  /\ (zoomLevel c == maxZoom -> zoomLevel (zoomIn c) == maxZoom)
  /\ (zoomLevel c == minZoom -> zoomLevel (zoomOut c) == minZoom)
  /\ isZoomManuallyChanged (zoomIn c) = true
  /\ isZoomManuallyChanged (zoomOut c) = true.
Proof.
  rewrite zoomIn_level, zoomOut_level.
  assert (Hdiv : zoomLevel c / zoomFactor == zoomLevel c * (100 # 105)).
  { unfold zoomFactor. field. }
  set (z := zoomLevel c) in *.
  set (q := z / zoomFactor) in *.
  destruct (JSFacts.Math_min_cases maxZoom (z * zoomFactor))
    as [[H1 ->] | [H1 ->]];
    destruct (JSFacts.Math_min_cases maxZoom q) as [[H2 ->] | [H2 ->]];
    destruct (JSFacts.Math_max_cases minZoom maxZoom) as [[H3 E3] | [H3 E3]];
    destruct (JSFacts.Math_max_cases minZoom (z * zoomFactor))
      as [[H4 E4] | [H4 E4]];
    destruct (JSFacts.Math_max_cases minZoom q) as [[H5 E5] | [H5 E5]];
    rewrite ?E3, ?E4, ?E5;
    unfold minZoom, maxZoom, zoomFactor in *;
    repeat match goal with |- _ /\ _ => split end;
    try reflexivity;
    match goal with |- _ -> _ => intros Hx | _ => idtac end; lra.
Qed.

(** A fresh canvas, at level 1. *)
Lemma zoom_steps_direction_witness :
  zoomLevel (new None build) < zoomLevel (zoomIn (new None build))
  /\ zoomLevel (zoomOut (new None build)) < zoomLevel (new None build).
Proof.
  assert (Hlo : minZoom <= zoomLevel (new None build)).
  { vm_compute. discriminate. }
  assert (Hhi : zoomLevel (new None build) <= maxZoom).
  { vm_compute. discriminate. }
  destruct (zoom_steps_direction (new None build) Hlo Hhi)
    as (_ & _ & W1 & W2 & _).
  split; [apply W1 | apply W2]; vm_compute; reflexivity.
Defined.

End ZoomStepProps.

(* ================================================================== *)
(** * The outputs of the nodes *)
(* ================================================================== *)

Module OutputsProps.

Import FlowCanvas Outputs.
Local Open Scope string_scope.
Local Open Scope list_scope.

Section ObjGet.
Variable V : Type.

Lemma obj_get_set_same (o : list (string * V)) (k : string) (v : V) :
  obj_get (JS.obj_set o k v) k = Some v.
Proof.
  unfold obj_get.
  induction o as [|[k' v'] rest IH]; cbn [JS.obj_set find fst].
  - rewrite String.eqb_refl. reflexivity.
  - destruct (String.eqb k' k) eqn:E; cbn [find fst].
    + rewrite String.eqb_refl. reflexivity.
    + rewrite E. exact IH.
Qed.

Lemma obj_get_set_other (o : list (string * V)) (k k' : string) (v : V) :
  k' <> k -> obj_get (JS.obj_set o k v) k' = obj_get o k'.
Proof.
  intros Hne. unfold obj_get.
  induction o as [|[k0 v0] rest IH]; cbn [JS.obj_set find fst].
  - destruct (String.eqb_spec k k'); [congruence | reflexivity].
  - destruct (String.eqb_spec k0 k) as [-> | Hk]; cbn [find fst].
    + destruct (String.eqb_spec k k'); [congruence | reflexivity].
    + destruct (String.eqb k0 k'); [reflexivity | exact IH].
Qed.

Lemma obj_get_delete_same (o : list (string * V)) (k : string) :
  obj_get (JS.obj_delete o k) k = None.
Proof.
  unfold obj_get, JS.obj_delete.
  induction o as [|[k0 v0] rest IH]; cbn [filter find fst]; [reflexivity|].
  destruct (String.eqb k0 k) eqn:E; cbn [negb find fst]; [exact IH|].
  rewrite E. exact IH.
Qed.

Lemma obj_get_delete_other (o : list (string * V)) (k k' : string) :
  k' <> k -> obj_get (JS.obj_delete o k) k' = obj_get o k'.
Proof.
  intros Hne. unfold obj_get, JS.obj_delete.
  induction o as [|[k0 v0] rest IH]; cbn [filter find fst]; [reflexivity|].
  destruct (String.eqb_spec k0 k) as [-> | Hk]; cbn [negb find fst].
  - destruct (String.eqb_spec k k'); [congruence | exact IH].
  - destruct (String.eqb k0 k'); [reflexivity | exact IH].
Qed.
End ObjGet.

Lemma truthy_Some (k : string) : k <> "" -> JS.truthy (Some k) = true.
Proof.
  intros H. cbn [JS.truthy]. now apply negb_true_iff, String.eqb_neq.
Qed.

(** X14.  For node ids that are not names of [Object.prototype]: the
    outputs stored by [updateNodeOutputs] under a node id that is not
    empty are what [getNodeOutputs] returns for this id, the outputs of
    the other nodes stay, and [onOutputsChange] is called once with the
    id and the outputs.  With an empty or missing id nothing is stored
    and nothing is called.  After [setOutputs(null)] the node has no
    outputs. *)
Theorem updateNodeOutputs_getNodeOutputs (k : string) (d : Data)
        (o : Store) (Hk : k <> "") (Hown : ownName k = true) :
  getNodeOutputs k (fst (updateNodeOutputs (Some k) d o)) = Some d
  /\ (forall k', ownName k' = true -> k' <> k ->
                 getNodeOutputs k' (fst (updateNodeOutputs (Some k) d o))
                 = getNodeOutputs k' o)
  /\ snd (updateNodeOutputs (Some k) d o) = [onOutputsChange k d]
  /\ updateNodeOutputs (Some "") d o = (o, [])
  /\ updateNodeOutputs None d o = (o, [])
  /\ getNodeOutputs k (setOutputs None) = None.
Proof.
  unfold updateNodeOutputs, getNodeOutputs.
  rewrite (truthy_Some k Hk). cbn [negb fst snd].
  repeat match goal with |- _ /\ _ => split end; try reflexivity.
  - apply obj_get_set_same.
  - intros k' _ Hne. now apply obj_get_set_other.
Qed.

Lemma updateNodeOutputs_getNodeOutputs_witness :
  getNodeOutputs "create-task"
    (fst (updateNodeOutputs (Some "create-task")
                            [("value", VString "42")] []))
  = Some [("value", VString "42")].
Proof.
  refine (proj1 (updateNodeOutputs_getNodeOutputs
                   "create-task" [("value", VString "42")] [] _ _)).
  - discriminate.
  - vm_compute. reflexivity.
Defined.

Lemma current_after_update (k : string) (d : Data) (o : Store) :
  k <> "" ->
  currentOutputs (fst (updateNodeOutputs (Some k) d o)) k = d.
Proof.
  intros Hk. unfold currentOutputs, updateNodeOutputs.
  rewrite (truthy_Some k Hk). cbn [negb fst].
  now rewrite obj_get_set_same.
Qed.

Lemma other_after_update (k k' : string) (d : Data) (o : Store) :
  k' <> k ->
  getNodeOutputs k' (fst (updateNodeOutputs (Some k) d o))
  = getNodeOutputs k' o.
Proof.
  intros Hne. unfold getNodeOutputs, updateNodeOutputs.
  destruct (negb (JS.truthy (Some k))); cbn [fst]; [reflexivity|].
  now apply obj_get_set_other.
Qed.

(** X15.  For a node that is rendered, with an id without markup, and
    for ids and fields that are not names of [Object.prototype]:
    switching the toggle of the mock outputs on stores the flag
    [mockOutputs = true], and the node shows the badge "Output Mocked"
    in test mode and never in build mode; switching it off removes the
    flag.  Both keep every other field of the outputs of the node and
    the outputs of every other node.  For a node that is not rendered
    the toggle changes nothing and calls nothing. *)
Theorem toggleChange_flag (k : string) (o : Store) (Hk : k <> "")
        (Hplain : CanvasEdit.plainText k = true)
        (Hown : ownName k = true) :
  let on := fst (toggleChange (Some k) true true o) in
  let off := fst (toggleChange (Some k) false true o) in
  mockOutputsEnabled on k = true
  /\ mockOutputsBadge test on k = true
  /\ mockOutputsBadge build on k = false
  /\ mockOutputsEnabled off k = false
  /\ obj_get (currentOutputs off k) "mockOutputs" = None
  /\ (forall f, ownName f = true -> f <> "mockOutputs" ->
                obj_get (currentOutputs on k) f
                = obj_get (currentOutputs o k) f
                /\ obj_get (currentOutputs off k) f
                   = obj_get (currentOutputs o k) f)
  /\ (forall k', ownName k' = true -> k' <> k ->
                 getNodeOutputs k' on = getNodeOutputs k' o
                 /\ getNodeOutputs k' off = getNodeOutputs k' o)
  /\ (forall checked, toggleChange (Some k) checked false o = (o, [])).
Proof.
  intros on off. subst on off. unfold toggleChange.
  rewrite (truthy_Some k Hk). cbn [andb].
  unfold mockOutputsBadge, mockOutputsEnabled.
  rewrite !current_after_update by exact Hk.
  rewrite obj_get_set_same, obj_get_delete_same.
  repeat match goal with |- _ /\ _ => split end; try reflexivity.
  - intros f _ Hf. split;
      [now apply obj_get_set_other | now apply obj_get_delete_other].
  - intros k' _ Hne. split; now apply other_after_update.
Qed.

Lemma toggleChange_flag_witness :
  mockOutputsEnabled
    (fst (toggleChange (Some "create-task") true true [])) "create-task"
  = true
  /\ mockOutputsEnabled
       (fst (toggleChange (Some "create-task") false true
               (fst (toggleChange (Some "create-task") true true []))))
       "create-task"
     = false.
Proof.
  split.
  - refine (proj1 (toggleChange_flag "create-task" [] _ _ _));
      [discriminate | vm_compute; reflexivity | vm_compute; reflexivity].
  - refine (proj1 (proj2 (proj2 (proj2
              (toggleChange_flag
                 "create-task"
                 (fst (toggleChange (Some "create-task") true true []))
                 _ _ _)))));
      [discriminate | vm_compute; reflexivity | vm_compute; reflexivity].
Defined.

(** X16.  For a node that is rendered, with an id without markup, and
    for ids and fields that are not names of [Object.prototype]: a click
    on the view mode button ['resource'] or ['code'] stores the view
    mode, and an input that is committed stores its value under the name
    of its field; both keep the other fields of the outputs of the node,
    among them the flag of the mock outputs, and the outputs of the
    other nodes.  A view mode other than ['resource'] and ['code'] is
    ignored. *)
Theorem outputs_edits_keep_the_rest (k vm fieldName value : string)
        (o : Store) (Hk : k <> "")
        (Hplain : CanvasEdit.plainText k = true)
        (Hown : ownName k = true)
        (Hfield : ownName fieldName = true)
        (Hvm : vm = "resource" \/ vm = "code") :
  let viewed := fst (viewModeClick (Some k) (Some vm) true o) in
  let typed := fst (inputCommit k fieldName value true o) in
  obj_get (currentOutputs viewed k) "viewMode" = Some (VString vm)
  /\ mockOutputsEnabled viewed k = mockOutputsEnabled o k
  /\ (forall f, ownName f = true -> f <> "viewMode" ->
                obj_get (currentOutputs viewed k) f
                = obj_get (currentOutputs o k) f)
  /\ obj_get (currentOutputs typed k) fieldName = Some (VString value)
  /\ (forall f, ownName f = true -> f <> fieldName ->
                obj_get (currentOutputs typed k) f
                = obj_get (currentOutputs o k) f)
  /\ (forall k', ownName k' = true -> k' <> k ->
                 getNodeOutputs k' viewed = getNodeOutputs k' o
                 /\ getNodeOutputs k' typed = getNodeOutputs k' o)
  /\ (forall other, other <> "resource" -> other <> "code" ->
                    viewModeClick (Some k) (Some other) true o = (o, [])).
Proof.
  intros viewed typed. subst viewed typed.
  unfold viewModeClick, inputCommit.
  rewrite (truthy_Some k Hk).
  assert (Hvmt : JS.truthy (Some vm) = true)
    by (destruct Hvm as [-> | ->]; reflexivity).
  assert (Hok : (String.eqb vm "resource" || String.eqb vm "code")%bool
                = true)
    by (destruct Hvm as [-> | ->]; reflexivity).
  rewrite Hvmt, Hok. cbn [andb].
  unfold mockOutputsEnabled.
  rewrite !current_after_update by exact Hk.
  rewrite !obj_get_set_same.
  rewrite (obj_get_set_other _ (currentOutputs o k) "viewMode"
                             "mockOutputs") by discriminate.
  repeat match goal with |- _ /\ _ => split end; try reflexivity.
  - intros f _ Hf. now apply obj_get_set_other.
  - intros f _ Hf. now apply obj_get_set_other.
  - intros k' _ Hne. split; now apply other_after_update.
  - intros other H1 H2.
    destruct (String.eqb_spec other "resource"); [contradiction|].
    destruct (String.eqb_spec other "code"); [contradiction|].
    cbn [orb]. now rewrite andb_false_r.
Qed.

Lemma outputs_edits_keep_the_rest_witness :
  mockOutputsEnabled
    (fst (viewModeClick
            (Some "create-task") (Some "code") true
            (fst (toggleChange (Some "create-task") true true []))))
    "create-task"
  = true.
Proof.
  refine (eq_trans
            (proj1 (proj2 (outputs_edits_keep_the_rest
                             "create-task" "code" "text" "hello"
                             (fst (toggleChange (Some "create-task")
                                                true true []))
                             _ _ _ _ _)))
            _).
  - discriminate.
  - vm_compute. reflexivity.
  - vm_compute. reflexivity.
  - vm_compute. reflexivity.
  - now right.
  - reflexivity.
Defined.

End OutputsProps.

(* ================================================================== *)
(** * The width of a dragged panel *)
(* ================================================================== *)

Module PanelWidthProps.

Import FlowPanel.
Local Open Scope Q_scope.

Lemma lt_true (a b : Q) : JS.lt a b = true -> a < b.
Proof.
  unfold JS.lt. intros H. apply negb_true_iff in H.
  now apply JSFacts.Qle_bool_false.
Qed.

Lemma Math_max_le (a b c : Q) : a <= c -> b <= c -> JS.Math_max a b <= c.
Proof.
  intros Ha Hb.
  destruct (JSFacts.Math_max_cases a b) as [[_ ->] | [_ ->]]; assumption.
Qed.

(** X17.  A move of the mouse changes a width during a drag only.  The
    width it gives the dragged panel is at least [minWidth] (400) and at
    most the larger of [minWidth] and the window width.  When it resizes
    the other panel, the other panel is open, does not get wider than it
    was and stays at least [otherPanelMinWidth] (400) wide.  The bounds
    are those that the rounding of the doubles keeps: the cap of 80% of
    the window width is a rounded product, and a difference of widths is
    rounded too. *)
Theorem drag_width_bounds (position : Position) (d : Drag) (env : Layout)
        (x : Q) (r : Resize)
        (H : handleMouseMove position d env x = Some r) :
  isDragging d = true
  /\ minWidth <= newWidth r
  /\ newWidth r <= Qmax minWidth (innerWidth env)
  /\ forall w,
      otherNewWidth r = Some w ->
      otherOpen env = true
      /\ otherPanelMinWidth <= w
      /\ w <= otherOffsetWidth env.
Proof.
  assert (Hcapw : innerWidth env * 0.8 <= Qmax minWidth (innerWidth env)).
  { destruct (Qlt_le_dec (innerWidth env) 0) as [Hneg | Hpos].
    - eapply Qle_trans; [|apply Q.le_max_l]. unfold minWidth. lra.
    - eapply Qle_trans; [|apply Q.le_max_r]. lra. }
  unfold handleMouseMove in H.
  destruct (isDragging d); cbn [negb] in H; [|discriminate].
  split; [reflexivity|].
  set (raw := startWidth d + match position with
                             | Left => x - startX d
                             | Right => startX d - x
                             end) in H.
  set (n1 := JS.Math_max minWidth (JS.Math_min (innerWidth env * 0.8) raw))
    in H.
  assert (Hlo : minWidth <= n1) by apply (proj1 (JSFacts.Math_max_lub _ _)).
  assert (Hhi : n1 <= Qmax minWidth (innerWidth env)).
  { apply Math_max_le; [apply Q.le_max_l|].
    eapply Qle_trans;
      [apply (proj1 (JSFacts.Math_min_glb _ _)) | exact Hcapw]. }
  assert (Hcap : forall y, JS.Math_max minWidth (JS.Math_min n1 y)
                           <= Qmax minWidth (innerWidth env)).
  { intros y. apply Math_max_le; [apply Q.le_max_l|].
    eapply Qle_trans;
      [apply (proj1 (JSFacts.Math_min_glb _ _)) | exact Hhi]. }
  assert (Hn1 : JS.Math_max minWidth n1
                <= Qmax minWidth (innerWidth env)).
  { apply Math_max_le; [apply Q.le_max_l | exact Hhi]. }
  destruct (otherOpen env).
  2:{ injection H as <-. cbn [newWidth otherNewWidth].
      split; [apply (proj1 (JSFacts.Math_max_lub _ _))|]. split; [exact Hn1|].
      intros w Hw. discriminate. }
  destruct position.
  - destruct (JS.gt _ _) eqn:Hgt.
    2:{ injection H as <-. cbn [newWidth otherNewWidth].
        split; [apply (proj1 (JSFacts.Math_max_lub _ _))|]. split; [exact Hn1|].
        intros w Hw. discriminate. }
    destruct (JS.ge _ _) eqn:Hge.
    + injection H as <-. cbn [newWidth otherNewWidth].
      split; [apply (proj1 (JSFacts.Math_max_lub _ _))|]. split; [exact Hn1|].
      intros w [= <-]. split; [reflexivity|].
      apply JSFacts.ge_true in Hge. apply JSFacts.gt_true in Hgt.
      split; [exact Hge|]. lra.
    + injection H as <-. cbn [newWidth otherNewWidth].
      split; [apply (proj1 (JSFacts.Math_max_lub _ _))|]. split; [apply Hcap|].
      intros w Hw. discriminate.
  - destruct (JS.lt _ _) eqn:Hlt.
    2:{ injection H as <-. cbn [newWidth otherNewWidth].
        split; [apply (proj1 (JSFacts.Math_max_lub _ _))|]. split; [exact Hn1|].
        intros w Hw. discriminate. }
    destruct (JS.ge _ _) eqn:Hge.
    + injection H as <-. cbn [newWidth otherNewWidth].
      split; [apply (proj1 (JSFacts.Math_max_lub _ _))|]. split; [exact Hn1|].
      intros w [= <-]. split; [reflexivity|].
      apply JSFacts.ge_true in Hge. apply lt_true in Hlt.
      split; [exact Hge|]. lra.
    + injection H as <-. cbn [newWidth otherNewWidth].
      split; [apply (proj1 (JSFacts.Math_max_lub _ _))|]. split; [apply Hcap|].
      intros w Hw. discriminate.
Qed.

Lemma drag_width_bounds_witness :
  exists r,
    handleMouseMove Left (handleMouseDown 400 400) (bothOpen 1200 500) 2000
    = Some r
    /\ minWidth <= newWidth r
    /\ newWidth r <= Qmax minWidth 1200.
Proof.
  eexists. split; [vm_compute; reflexivity|].
  destruct (drag_width_bounds
              Left (handleMouseDown 400 400) (bothOpen 1200 500) 2000 _
              eq_refl) as (_ & H1 & H2 & _).
  split; [exact H1 | exact H2].
Defined.

End PanelWidthProps.

(* ================================================================== *)
(** * BuilderHeader *)
(* ================================================================== *)

Module HeaderProps.

Import BuilderHeader.
Local Open Scope string_scope.
Local Open Scope list_scope.
Local Open Scope Z_scope.

Lemma handleClick_exclusive (a : HeaderAction) (h : Header) :
  exclusive h -> exclusive (fst (handleClick a h)).
Proof.
  unfold exclusive. intros H.
  destruct a as [| | | | | | | | | | | | [v|] |]; cbn [handleClick fst toolboxOpen errorsOpen];
    try exact H; try apply andb_false_r; reflexivity.
Qed.

Lemma clicks_exclusive (actions : list HeaderAction) : forall h,
  exclusive h -> exclusive (clicks actions h).
Proof.
  induction actions as [|a rest IH]; intros h H; cbn [clicks fold_left];
    [exact H|].
  apply IH, handleClick_exclusive, H.
Qed.

(** X21.  After a click on the toolbox button or on the errors button,
    and after any further clicks on the header, at most one of the two
    panels is open, whatever the header was given at the start.  A
    click on the toolbox button toggles the toolbox, closes the errors
    panel and hands the new state to [onToolbox]; a second click closes
    the toolbox again. *)
Theorem panel_buttons_exclusive (a : HeaderAction)
        (actions : list HeaderAction) (h : Header)
        (Ha : a = toolbox \/ a = errors) :
  exclusive (clicks (a :: actions) h)
  /\ handleClick toolbox h
     = ({| toolboxOpen := negb (toolboxOpen h); errorsOpen := false;
           layoutMode := layoutMode h |},
        [onToolbox (negb (toolboxOpen h))])
  /\ handleClick errors h
     = ({| toolboxOpen := false; errorsOpen := negb (errorsOpen h);
           layoutMode := layoutMode h |},
        [onErrors (negb (errorsOpen h))])
  /\ toolboxOpen (clicks [toolbox; toolbox] h) = toolboxOpen h
  /\ errorsOpen (clicks [errors; errors] h) = errorsOpen h
  /\ toolboxOpen (clicks [toolbox; errors] h) = false.
Proof.
  split; [|repeat match goal with |- _ /\ _ => split end;
           try reflexivity;
           cbn [clicks fold_left handleClick fst toolboxOpen errorsOpen];
           apply negb_involutive].
  cbn [clicks fold_left]. apply clicks_exclusive. unfold exclusive.
  destruct Ha as [-> | ->]; cbn [handleClick fst toolboxOpen errorsOpen];
    [apply andb_false_r | reflexivity].
Qed.

Lemma panel_buttons_exclusive_witness :
  exclusive
    (clicks [toolbox; save; errors; undo]
            (BuilderHeader.new (Some true) (Some true) None)).
Proof.
  refine (proj1 (panel_buttons_exclusive
                   toolbox [save; errors; undo]
                   (BuilderHeader.new (Some true) (Some true) None) _)).
  now left.
Defined.

(** ** The label of the last save *)

Lemma length_append (a b : string) :
  String.length (String.append a b)
  = (String.length a + String.length b)%nat.
Proof.
  induction a as [|ch a IH]; cbn [String.append String.length];
    [reflexivity|].
  now rewrite IH.
Qed.

Lemma append_inj (a : string) : forall a' b b',
  String.length a = String.length a' ->
  String.append a b = String.append a' b' -> a = a' /\ b = b'.
Proof.
  induction a as [|ch a IH]; intros [|ch' a'] b b' Hlen Heq;
    cbn [String.length String.append] in *; try discriminate.
  - split; [reflexivity | exact Heq].
  - injection Heq as -> Heq. injection Hlen as Hlen.
    destruct (IH a' b b' Hlen Heq) as [-> ->]. split; reflexivity.
Qed.

Lemma range_forall (P : Z -> bool) (lo hi : Z) :
  forallb P (JS.range lo hi) = true ->
  forall n, lo <= n < hi -> P n = true.
Proof.
  intros H n Hn. apply (proj1 (forallb_forall P (JS.range lo hi)) H).
  now apply PathProps.range_In.
Qed.

(** Two digits: the numbers from 0 to 99 padded to two characters. *)
Lemma two_digits (n : Z) :
  0 <= n <= 99 ->
  String.length (padStart2 (String_of n)) = 2%nat
  /\ decimalValue (padStart2 (String_of n)) = Some n.
Proof.
  intros Hn.
  assert (H : (Nat.eqb (String.length (padStart2 (String_of n))) 2
               && match decimalValue (padStart2 (String_of n)) with
                  | Some v => v =? n
                  | None => false
                  end)%bool = true).
  { apply (range_forall
             (fun n => (Nat.eqb (String.length (padStart2 (String_of n))) 2
                        && match decimalValue (padStart2 (String_of n)) with
                           | Some v => v =? n
                           | None => false
                           end)%bool) 0 100);
      [vm_compute; reflexivity | lia]. }
  apply andb_true_iff in H. destruct H as [H1 H2].
  apply Nat.eqb_eq in H1. split; [exact H1|].
  destruct (decimalValue (padStart2 (String_of n))); [|discriminate].
  apply Z.eqb_eq in H2. now subst.
Qed.

(** Four digits: the years from 1000 to 9999. *)
Lemma four_digits (y : Z) :
  1000 <= y <= 9999 ->
  String.length (String_of y) = 4%nat
  /\ decimalValue (String_of y) = Some y.
Proof.
  intros Hy.
  assert (H : (Nat.eqb (String.length (String_of y)) 4
               && match decimalValue (String_of y) with
                  | Some v => v =? y
                  | None => false
                  end)%bool = true).
  { apply (range_forall
             (fun y => (Nat.eqb (String.length (String_of y)) 4
                        && match decimalValue (String_of y) with
                           | Some v => v =? y
                           | None => false
                           end)%bool) 1000 10000);
      [vm_compute; reflexivity | lia]. }
  apply andb_true_iff in H. destruct H as [H1 H2].
  apply Nat.eqb_eq in H1. split; [exact H1|].
  destruct (decimalValue (String_of y)); [|discriminate].
  apply Z.eqb_eq in H2. now subst.
Qed.

(** The clock of twelve hours keeps the hour of the day. *)
Lemma hours12_spec (h : Z) :
  0 <= h <= 23 ->
  1 <= hours12 h <= 12
  /\ h = Z.rem (hours12 h) 12
         + (if String.eqb (ampm h) "PM" then 12 else 0)
  /\ (ampm h = "AM" \/ ampm h = "PM").
Proof.
  intros Hh.
  assert (H : ((1 <=? hours12 h) && (hours12 h <=? 12)
               && (h =? Z.rem (hours12 h) 12
                        + (if String.eqb (ampm h) "PM" then 12 else 0))
               && (String.eqb (ampm h) "AM" || String.eqb (ampm h) "PM"))%bool
              = true).
  { apply (range_forall
             (fun h => ((1 <=? hours12 h) && (hours12 h <=? 12)
                        && (h =? Z.rem (hours12 h) 12
                                 + (if String.eqb (ampm h) "PM"
                                    then 12 else 0))
                        && (String.eqb (ampm h) "AM"
                            || String.eqb (ampm h) "PM"))%bool) 0 24);
      [vm_compute; reflexivity | lia]. }
  repeat (apply andb_true_iff in H; destruct H as [H ?]).
  repeat match goal with
         | H : (_ <=? _) = true |- _ => apply Z.leb_le in H
         | H : (_ =? _) = true |- _ => apply Z.eqb_eq in H
         end.
  split; [lia|]. split; [assumption|].
  match goal with
  | H : (_ || _)%bool = true |- _ =>
      apply orb_true_iff in H; destruct H as [H | H];
        apply String.eqb_eq in H; auto
  end.
Qed.

(** X22.  For a date with a year of four digits, the label of the last
    save has 20 characters, its hour lies between 1 and 12, and the
    label determines month, day, year, hour and minute: two dates with
    the same label agree in all of them. *)
Theorem label_determines_time (d1 d2 : DateFields)
        (H1 : validFields d1) (H2 : validFields d2) :
  String.length (formatted d1) = 20%nat
  /\ 1 <= hours12 (getHours d1) <= 12
  /\ (formatted d1 = formatted d2 -> d1 = d2).
Proof.
  destruct H1 as (Hm1 & Hd1 & Hy1 & Hh1 & Hi1).
  destruct H2 as (Hm2 & Hd2 & Hy2 & Hh2 & Hi2).
  destruct (two_digits (getMonth d1 + 1)) as [Lm1 Vm1]; [lia|].
  destruct (two_digits (getMonth d2 + 1)) as [Lm2 Vm2]; [lia|].
  destruct (two_digits (getDate d1)) as [Ld1 Vd1]; [lia|].
  destruct (two_digits (getDate d2)) as [Ld2 Vd2]; [lia|].
  destruct (four_digits (getFullYear d1)) as [Ly1 Vy1]; [lia|].
  destruct (four_digits (getFullYear d2)) as [Ly2 Vy2]; [lia|].
  destruct (two_digits (getMinutes d1)) as [Li1 Vi1]; [lia|].
  destruct (two_digits (getMinutes d2)) as [Li2 Vi2]; [lia|].
  destruct (hours12_spec (getHours d1) Hh1) as (Hr1 & Hrec1 & Hap1).
  destruct (hours12_spec (getHours d2) Hh2) as (Hr2 & Hrec2 & Hap2).
  destruct (two_digits (hours12 (getHours d1))) as [Lh1 Vh1]; [lia|].
  destruct (two_digits (hours12 (getHours d2))) as [Lh2 Vh2]; [lia|].
  split; [|split; [exact Hr1|]].
  - unfold formatted. rewrite !length_append, Lm1, Ld1, Ly1, Lh1, Li1.
    destruct Hap1 as [-> | ->]; reflexivity.
  - unfold formatted. intros Heq.
    apply append_inj in Heq; [|congruence]. destruct Heq as [Em Heq].
    cbn [String.append] in Heq. injection Heq as Heq.
    apply append_inj in Heq; [|congruence]. destruct Heq as [Ed Heq].
    cbn [String.append] in Heq. injection Heq as Heq.
    apply append_inj in Heq; [|congruence]. destruct Heq as [Ey Heq].
    cbn [String.append] in Heq. injection Heq as Heq.
    apply append_inj in Heq; [|congruence]. destruct Heq as [Eh Heq].
    cbn [String.append] in Heq. injection Heq as Heq.
    apply append_inj in Heq; [|congruence]. destruct Heq as [Ei Heq].
    cbn [String.append] in Heq. injection Heq as Eap.
    assert (Am : getMonth d1 = getMonth d2).
    { rewrite Em in Vm1. rewrite Vm1 in Vm2. injection Vm2. lia. }
    assert (Ad : getDate d1 = getDate d2) by congruence.
    assert (Ay : getFullYear d1 = getFullYear d2) by congruence.
    assert (Ai : getMinutes d1 = getMinutes d2) by congruence.
    assert (Ah12 : hours12 (getHours d1) = hours12 (getHours d2))
      by congruence.
    assert (Ah : getHours d1 = getHours d2).
    { rewrite Hrec1, Hrec2, Ah12, Eap. reflexivity. }
    destruct d1, d2. cbn in *. congruence.
Qed.

Lemma label_determines_time_witness :
  String.length
    (formatted {| getMonth := 10; getDate := 3; getFullYear := 2026;
                  getHours := 0; getMinutes := 5 |}) = 20%nat
  /\ formatted {| getMonth := 10; getDate := 3; getFullYear := 2026;
                  getHours := 0; getMinutes := 5 |}
     = "11/03/2026, 12:05 AM".
Proof.
  split; [|vm_compute; reflexivity].
  refine (proj1 (label_determines_time
                   {| getMonth := 10; getDate := 3; getFullYear := 2026;
                      getHours := 0; getMinutes := 5 |}
                   {| getMonth := 10; getDate := 3; getFullYear := 2026;
                      getHours := 0; getMinutes := 5 |} _ _));
    unfold validFields; cbn; lia.
Defined.

(** ** The memo of the label *)

Section Memo.
Variable fieldsOf : Z -> DateFields.

Lemma coherent_empty : coherent fieldsOf emptyCache.
Proof. intros t H. discriminate. Qed.

Lemma formatLastSavedDate_coherent (t : Z) (cache : Cache) :
  coherent fieldsOf cache ->
  fst (formatLastSavedDate fieldsOf t cache)
  = Some (formatted (fieldsOf t))
  /\ coherent fieldsOf (snd (formatLastSavedDate fieldsOf t cache)).
Proof.
  intros H. unfold formatLastSavedDate.
  destruct (negb (t =? 0)); cbn [andb].
  - destruct (cachedDateTimestamp cache) as [t'|] eqn:E.
    + destruct (Z.eqb_spec t' t) as [-> | Hne]; cbn [fst snd].
      * split; [now apply H | exact H].
      * split; [reflexivity|]. intros u [= <-]. reflexivity.
    + cbn [fst snd]. split; [reflexivity|]. intros u [= <-]. reflexivity.
  - cbn [fst snd]. split; [reflexivity|]. intros u [= <-]. reflexivity.
Qed.

Lemma labelRun_coherent (ops : list LabelOp) : forall cache,
  coherent fieldsOf cache -> coherent fieldsOf (labelRun fieldsOf ops cache).
Proof.
  induction ops as [|op ops IH]; intros cache H; cbn [labelRun fold_left];
    [exact H|].
  apply IH. destruct op; cbn [labelStep].
  - now apply formatLastSavedDate_coherent.
  - apply coherent_empty.
Qed.
End Memo.

Lemma cache_after (fieldsOf : Z -> DateFields) (t : Z) (cache : Cache) :
  coherent fieldsOf cache ->
  snd (formatLastSavedDate fieldsOf t cache)
  = {| cachedFormattedDate := Some (formatted (fieldsOf t));
       cachedDateTimestamp := Some t |}.
Proof.
  intros H. unfold formatLastSavedDate.
  destruct (negb (t =? 0)); cbn [andb]; [|reflexivity].
  destruct (cachedDateTimestamp cache) as [t'|] eqn:E; [|reflexivity].
  destruct (Z.eqb_spec t' t) as [-> | Hne]; [|reflexivity].
  cbn [snd]. pose proof (H t E) as Hf.
  destruct cache as [f ts]. cbn in *. congruence.
Qed.

(** X23.  The memo of [formatLastSavedDate] never gives a label of
    another date: after any sequence of formatted dates and of new
    [lastSavedDate]s on a fresh header, the answer for a date is the
    label built from the fields of this date, the memo then holds this
    date and its label, and a second call with the same date gives the
    same label and leaves the memo as it is. *)
Theorem formatLastSavedDate_memo (fieldsOf : Z -> DateFields)
        (ops : list LabelOp) (t : Z) :
  let cache := labelRun fieldsOf ops emptyCache in
  let first := formatLastSavedDate fieldsOf t cache in
  let second := formatLastSavedDate fieldsOf t (snd first) in
  fst first = Some (formatted (fieldsOf t))
  /\ snd first = {| cachedFormattedDate := Some (formatted (fieldsOf t));
                    cachedDateTimestamp := Some t |}
  /\ fst second = Some (formatted (fieldsOf t))
  /\ snd second = snd first.
Proof.
  intros cache first second. subst first second.
  assert (Hc : coherent fieldsOf cache)
    by (apply labelRun_coherent, coherent_empty).
  destruct (formatLastSavedDate_coherent fieldsOf t cache Hc) as [H1 H2].
  split; [exact H1|]. split; [now apply cache_after|]. split.
  - now apply formatLastSavedDate_coherent.
  - rewrite (cache_after fieldsOf t _ H2). symmetry.
    now apply cache_after.
Qed.

End HeaderProps.

(* ================================================================== *)
(** * The menu item, the scope and the results of a run *)
(* ================================================================== *)

Module MenuProps.

Import FlowCanvas CanvasEdit.
Import LineFacts ConnectorFacts.
Local Open Scope string_scope.
Local Open Scope list_scope.
Local Open Scope Z_scope.

Lemma boundIndex_range c (bound : option string) :
  -1 <= boundIndex c bound (-1) < JS.length (nodes c).
Proof.
  unfold boundIndex. pose proof (ScopeProps.nodeIndex_range c) as H.
  destruct bound as [b|].
  - destruct (JS.truthy (Some b)); [apply H|].
    specialize (H b). unfold JS.length in *. lia.
  - specialize (H ""). unfold JS.length in *. lia.
Qed.

(** X24.  For a node that is not the end point itself, the menu item
    "Set an End Point After" is rendered disabled exactly when the click
    handler refuses to set the end point on this node: what is shown
    and what a click does agree. *)
Theorem disabled_item_is_refused_click (c : Canvas) (n : Node)
        (Hn : testEndPoint c <> Some (id n)) :
  endPointDisabled c n = setEndPointRefused c (id n) false.
Proof.
  unfold endPointDisabled, setEndPointRefused.
  assert (Hs : JS.strict_eq (testEndPoint c) (id n) = false).
  { destruct (JS.strict_eq (testEndPoint c) (id n)) eqn:E; [|reflexivity].
    apply SyncProps.strict_eq_Some in E. contradiction. }
  rewrite Hs. cbn [negb andb].
  pose proof (ScopeProps.nodeIndex_range c (id n)) as Hi.
  pose proof (boundIndex_range c (testEndPoint c)) as He.
  destruct (Z.leb_spec 0 (nodeIndex c (id n))) as [H0 | H0];
    destruct (Z.ltb_spec (nodeIndex c (id n)) (JS.length (nodes c) - 1))
      as [H1 | H1]; cbn [andb].
  - destruct (JS.at_index (nodes c) (nodeIndex c (id n) + 1)) as [nx|];
      [destruct (String.eqb (type nx) "end")|]; cbn [orb];
      try reflexivity;
      destruct (JS.truthy (testEndPoint c)); cbn [andb]; reflexivity.
  - cbn [orb].
    destruct (Z.eqb_spec (nodeIndex c (id n) + 1)
                         (boundIndex c (testEndPoint c) (-1))); [lia|].
    now rewrite !andb_false_r.
  - cbn [orb]. now rewrite !andb_false_r.
  - cbn [orb]. now rewrite !andb_false_r.
Qed.

Lemma disabled_item_is_refused_click_witness :
  endPointDisabled (new None test)
                   {| id := "send-email"; type := "action";
                      title := "Send Email to User"; subtitle := "Action" |}
  = true
  /\ setEndPointRefused (new None test) "send-email" false = true.
Proof.
  split; [vm_compute; reflexivity|].
  refine (eq_trans
            (eq_sym (disabled_item_is_refused_click
                       (new None test)
                       {| id := "send-email"; type := "action";
                          title := "Send Email to User";
                          subtitle := "Action" |} _)) _).
  - discriminate.
  - vm_compute. reflexivity.
Defined.

(** ** A change of the scope *)



(** ** A node removed *)




End MenuProps.
